(** * Agent orchestration core of terraform-llm

    A shallow embedding of
      - [MemStorage]   (server/storage.ts: the agent, activity and log tables),
      - [BaseAgent]    (server/agents/base-agent.ts: queue, lifecycle, drain loop),
      - the [executeTask] dispatchers of InfrastructureAgent and LearningAgent,
      - [AgentManager] (server/agents/agent-manager.ts: registry and routing),
    and the properties of the scheduling core proved about them; then of
      - the other tables of [MemStorage] (users, projects, deployments,
        git repositories),
      - [initializeAgents] and [createProject] of the manager, and the
        handler of [POST /api/projects] (server/routes.ts),
      - the handlers of InfrastructureAgent
        (server/agents/infrastructure-agent.ts),
    with further properties of these and of the worker.

    Conventions of the embedding.
      - JavaScript numbers that the code uses as identifiers, priorities and
        progress values are integers of [Z].
      - A JavaScript [Map] is an insertion-ordered association list: [set] on
        a present key replaces the value in place, on an absent key appends.
      - Wall-clock fields (createdAt, updatedAt) and the opaque [config] and
        [payload] values are not inspected by the core; time stamps are left
        out and payloads are carried as strings.
      - [async] methods: every method of MemStorage runs to its end at the
        call, so a method of the agent is a sequence of blocks which run
        without interruption; the only await on which the event loop can
        serve other requests is that of [executeTask], whose handlers wait
        for external services.  A suspended activation of [processQueue] is
        kept as the rest of the handler it awaits. *)

From stdpp Require Import gmap strings list pretty.
From Stdlib Require Import ZArith Lia Sorting.Sorted Sorting.Permutation.

Local Open Scope string_scope.
Local Open Scope list_scope.
Local Open Scope Z_scope.

(** ** Insertion-ordered maps (JavaScript [Map<number, V>]) *)

Module JsMap.

Section Ops.
Context {V : Type}.

Fixpoint get (k : Z) (m : list (Z * V)) : option V :=
  match m with
  | [] => None
  | (k', v) :: m' => if bool_decide (k' = k) then Some v else get k m'
  end.

Fixpoint set (k : Z) (v : V) (m : list (Z * V)) : list (Z * V) :=
  match m with
  | [] => [(k, v)]
  | (k', v') :: m' =>
      if bool_decide (k' = k) then (k, v) :: m' else (k', v') :: set k v m'
  end.

Definition values (m : list (Z * V)) : list V := map snd m.

End Ops.

End JsMap.

(** ** The persistence store: [MemStorage] *)

Module Storage.

Record Agent := mkAgent {
  agent_id : Z;
  agent_name : string;
  agent_type : string;
  agent_status : string;
  agent_currentTask : option string;   (* [None] is JavaScript's null *)
  agent_progress : Z
}.

(** [InsertAgent]: what [createAgent] receives. *)
Record InsertAgent := mkInsertAgent {
  ins_name : string;
  ins_type : string
}.

(** [Partial<Agent>] as the agent passes it to [updateAgent]: a field that
    is [None] is absent from the object literal.  These are the updates of
    [BaseAgent], the only caller; [updateAgent] on updates of any field is
    [Partial.updateAgent]. *)
Record AgentUpdates := mkUpdates {
  upd_status : option string;
  upd_currentTask : option (option string);
  upd_progress : option Z
}.

Record SystemLog := mkLog {
  log_id : Z;
  log_level : string;
  log_message : string;
  log_source : string;
  log_agentId : Z;
  log_metadata : option string       (* [{ error: message }] or undefined *)
}.

Record Activity := mkActivity {
  act_id : Z;
  act_type : string;
  act_title : string;
  act_description : option string;
  act_status : string;
  act_agentId : Z;
  act_projectId : option Z
}.

Record MemStorage := mkStorage {
  agents : list (Z * Agent);
  activities : list (Z * Activity);
  systemLogs : list (Z * SystemLog);
  currentId : Z
}.

(** [new MemStorage()] *)
Definition empty : MemStorage :=
  {| agents := []; activities := []; systemLogs := []; currentId := 1 |}.

Definition getAgent (id : Z) (s : MemStorage) : option Agent :=
  JsMap.get id (agents s).

Definition getAgents (s : MemStorage) : list Agent :=
  JsMap.values (agents s).

Definition getActiveAgents (s : MemStorage) : list Agent :=
  filter (λ a, agent_status a = "running" ∨ agent_status a = "working")
         (getAgents s).

Definition createAgent (ins : InsertAgent) (s : MemStorage)
  : Agent * MemStorage :=
  let id := currentId s in
  let agent := {| agent_id := id; agent_name := ins_name ins;
                  agent_type := ins_type ins; agent_status := "idle";
                  agent_currentTask := None; agent_progress := 0 |} in
  (agent, {| agents := JsMap.set id agent (agents s);
             activities := activities s;
             systemLogs := systemLogs s;
             currentId := currentId s + 1 |}).

(** [{ ...agent, ...updates }] *)
Definition spread (a : Agent) (u : AgentUpdates) : Agent :=
  {| agent_id := agent_id a;
     agent_name := agent_name a;
     agent_type := agent_type a;
     agent_status := default (agent_status a) (upd_status u);
     agent_currentTask := default (agent_currentTask a) (upd_currentTask u);
     agent_progress := default (agent_progress a) (upd_progress u) |}.

Definition updateAgent (id : Z) (u : AgentUpdates) (s : MemStorage)
  : option Agent * MemStorage :=
  match JsMap.get id (agents s) with
  | None => (None, s)
  | Some agent =>
      let updatedAgent := spread agent u in
      (Some updatedAgent,
       {| agents := JsMap.set id updatedAgent (agents s);
          activities := activities s;
          systemLogs := systemLogs s;
          currentId := currentId s |})
  end.

Definition createSystemLog (level message source : string) (agentId : Z)
    (metadata : option string) (s : MemStorage) : SystemLog * MemStorage :=
  let id := currentId s in
  let log := {| log_id := id; log_level := level; log_message := message;
                log_source := source; log_agentId := agentId;
                log_metadata := metadata |} in
  (log, {| agents := agents s;
           activities := activities s;
           systemLogs := JsMap.set id log (systemLogs s);
           currentId := currentId s + 1 |}).

Definition createActivity (type title : string) (description : option string)
    (status : string) (agentId : Z) (projectId : option Z) (s : MemStorage)
  : Activity * MemStorage :=
  let id := currentId s in
  let activity := {| act_id := id; act_type := type; act_title := title;
                     act_description := description; act_status := status;
                     act_agentId := agentId; act_projectId := projectId |} in
  (activity, {| agents := agents s;
                activities := JsMap.set id activity (activities s);
                systemLogs := systemLogs s;
                currentId := currentId s + 1 |}).

(** [createDeployment] and the other creators of tables the core never
    reads: all the core can see of them is the identifier they take. *)
Definition createOther (s : MemStorage) : MemStorage :=
  {| agents := agents s; activities := activities s;
     systemLogs := systemLogs s; currentId := currentId s + 1 |}.

End Storage.

(** ** The worker: [BaseAgent] and its subclasses *)

Module Worker.
Import Storage.

Record AgentTask := mkTask {
  task_id : string;
  task_type : string;
  task_payload : string;
  task_priority : Z
}.

(** The comparator of [addTask]: [(a, b) => b.priority - a.priority]. *)
Definition byPriority (a b : AgentTask) : Z := task_priority b - task_priority a.

(** [Array.prototype.sort(cmp)]: the language fixes the result for a
    consistent comparator, the sorted arrangement that keeps elements which
    compare equal in their order (stable since ES2019).  Insertion from the
    right computes it: [x] goes before the first [y] with [cmp x y <= 0]. *)
Section Sort.
Context {A : Type} (cmp : A → A → Z).

Fixpoint insert (x : A) (l : list A) : list A :=
  match l with
  | [] => [x]
  | y :: l' => if cmp x y <=? 0 then x :: y :: l' else y :: insert x l'
  end.

Fixpoint sort (l : list A) : list A :=
  match l with
  | [] => []
  | x :: l' => insert x (sort l')
  end.

End Sort.

(** What a handler does to the worker and the store while it runs, in
    order, and how it ends.  The handlers of the source call [this.log]
    at level info only, [this.updateProgress], [this.createActivity] and
    creators of other tables. *)
Inductive HandlerOp :=
  | OpLog (message : string)
  | OpProgress (progress : Z)
  | OpActivity (type title : string) (description : option string)
               (projectId : option Z)
  | OpCreate.

Inductive Completion :=
  | Returns
  | Throws (message : string).

Record HandlerRun := mkRun {
  run_ops : list HandlerOp;
  run_end : Completion
}.

Inductive AgentClass := CodeGeneratorAgent | InfrastructureAgent | LearningAgent.

(** [this.constructor.name] *)
Definition className (c : AgentClass) : string :=
  match c with
  | CodeGeneratorAgent => "CodeGeneratorAgent"
  | InfrastructureAgent => "InfrastructureAgent"
  | LearningAgent => "LearningAgent"
  end.

(** The fields of [BaseAgent], the activations of [processQueue] that are
    suspended in [await this.executeTask(..)] (each as what is left of its
    handler), and two histories: the arguments of the calls of
    [executeTask] and the [taskError] events emitted. *)
Record BaseAgent := mkBaseAgent {
  class : AgentClass;
  agentId : Z;
  isRunning : bool;
  taskQueue : list AgentTask;
  currentTask : option AgentTask;
  awaiting : list HandlerRun;
  executed : list AgentTask;
  emitted : list (AgentTask * string)
}.

(** [new C(agentId)] *)
Definition new (c : AgentClass) (id : Z) : BaseAgent :=
  {| class := c; agentId := id; isRunning := false; taskQueue := [];
     currentTask := None; awaiting := []; executed := []; emitted := [] |}.

Definition set_isRunning (b : bool) (w : BaseAgent) : BaseAgent :=
  {| class := class w; agentId := agentId w; isRunning := b;
     taskQueue := taskQueue w; currentTask := currentTask w;
     awaiting := awaiting w; executed := executed w; emitted := emitted w |}.

Definition set_taskQueue (q : list AgentTask) (w : BaseAgent) : BaseAgent :=
  {| class := class w; agentId := agentId w; isRunning := isRunning w;
     taskQueue := q; currentTask := currentTask w;
     awaiting := awaiting w; executed := executed w; emitted := emitted w |}.

Definition set_currentTask (c : option AgentTask) (w : BaseAgent) : BaseAgent :=
  {| class := class w; agentId := agentId w; isRunning := isRunning w;
     taskQueue := taskQueue w; currentTask := c;
     awaiting := awaiting w; executed := executed w; emitted := emitted w |}.

Definition set_awaiting (a : list HandlerRun) (w : BaseAgent) : BaseAgent :=
  {| class := class w; agentId := agentId w; isRunning := isRunning w;
     taskQueue := taskQueue w; currentTask := currentTask w;
     awaiting := a; executed := executed w; emitted := emitted w |}.

(** The call [this.executeTask(task)] that suspends the activation. *)
Definition call_executeTask (task : AgentTask) (r : HandlerRun) (w : BaseAgent)
  : BaseAgent :=
  {| class := class w; agentId := agentId w; isRunning := isRunning w;
     taskQueue := taskQueue w; currentTask := currentTask w;
     awaiting := awaiting w ++ [r]; executed := executed w ++ [task];
     emitted := emitted w |}.

(** [this.emit('taskError', task, error)] *)
Definition emit_taskError (task : AgentTask) (message : string) (w : BaseAgent)
  : BaseAgent :=
  {| class := class w; agentId := agentId w; isRunning := isRunning w;
     taskQueue := taskQueue w; currentTask := currentTask w;
     awaiting := awaiting w; executed := executed w;
     emitted := emitted w ++ [(task, message)] |}.

(** [currentTask || null]: undefined and the empty string both give null. *)
Definition orNull (currentTask : option string) : option string :=
  match currentTask with
  | Some "" => None
  | Some k => Some k
  | None => None
  end.

Arguments orNull : simpl never.

Definition updateStatus (status : string) (currentTask : option string)
    (w : BaseAgent) (s : MemStorage) : MemStorage :=
  (updateAgent (agentId w)
     {| upd_status := Some status;
        upd_currentTask := Some (orNull currentTask);
        upd_progress := None |} s).2.

Definition updateProgress (progress : Z) (w : BaseAgent) (s : MemStorage)
  : MemStorage :=
  (updateAgent (agentId w)
     {| upd_status := None; upd_currentTask := None;
        upd_progress := Some progress |} s).2.

Definition log (level message : string) (metadata : option string)
    (w : BaseAgent) (s : MemStorage) : MemStorage :=
  (createSystemLog level message (className (class w)) (agentId w) metadata s).2.

Definition createActivity (type title : string) (description : option string)
    (projectId : option Z) (w : BaseAgent) (s : MemStorage) : MemStorage :=
  (Storage.createActivity type title description "completed" (agentId w)
     projectId s).2.

Definition handlerOp (op : HandlerOp) (w : BaseAgent) (s : MemStorage)
  : MemStorage :=
  match op with
  | OpLog message => log "info" message None w s
  | OpProgress progress => updateProgress progress w s
  | OpActivity type title description projectId =>
      createActivity type title description projectId w s
  | OpCreate => createOther s
  end.

Section Agent.

(** What the external collaborators make of each task: the run of the
    handler procedure selected for it. *)
Variable collaborators : AgentTask → HandlerRun.

(** The task kinds of CodeGeneratorAgent, whose source file
    (code-generator-agent.ts) is missing. *)
Variable codeGeneratorKinds : list string.

Definition unknownTaskType (task : AgentTask) : HandlerRun :=
  {| run_ops := [];
     run_end := Throws ("Unknown task type: " +:+ task_type task) |}.

(** [InfrastructureAgent.executeTask] *)
Definition InfrastructureAgent_executeTask (task : AgentTask) : HandlerRun :=
  if String.eqb (task_type task) "generate_terraform" then collaborators task
  else if String.eqb (task_type task) "deploy_infrastructure" then collaborators task
  else if String.eqb (task_type task) "monitor_resources" then collaborators task
  else unknownTaskType task.

(** [LearningAgent.executeTask] *)
Definition LearningAgent_executeTask (task : AgentTask) : HandlerRun :=
  if String.eqb (task_type task) "analyze_commits" then collaborators task
  else if String.eqb (task_type task) "learn_patterns" then collaborators task
  else if String.eqb (task_type task) "suggest_improvements" then collaborators task
  else unknownTaskType task.

(** Modelled from the spec: [CodeGeneratorAgent.executeTask], missing from
    the sources; a closed handler table like the other two, a kind outside
    of it being a lookup failure. *)
Definition CodeGeneratorAgent_executeTask (task : AgentTask) : HandlerRun :=
  if existsb (String.eqb (task_type task)) codeGeneratorKinds
  then collaborators task
  else unknownTaskType task.

(** The abstract [executeTask], resolved by the class of the object. *)
Definition executeTask (c : AgentClass) (task : AgentTask) : HandlerRun :=
  match c with
  | CodeGeneratorAgent => CodeGeneratorAgent_executeTask task
  | InfrastructureAgent => InfrastructureAgent_executeTask task
  | LearningAgent => LearningAgent_executeTask task
  end.

(** [processQueue] from the test of its loop up to the point where it
    hands control back: suspended in [await this.executeTask(..)], or
    returned. *)
Definition processQueue (w : BaseAgent) (s : MemStorage)
  : BaseAgent * MemStorage :=
  match isRunning w, taskQueue w with
  | true, task :: rest =>
      let w := set_currentTask (Some task) (set_taskQueue rest w) in
      let s := updateStatus "working" (Some (task_type task)) w s in
      let s := log "info" ("Starting task: " +:+ task_type task) None w s in
      (call_executeTask task (executeTask (class w) task) w, s)
  | true, [] => (w, updateStatus "running" None w s)
  | false, _ => (w, s)
  end.

(** The rest of the loop body once the awaited handler has ended: the
    end of the try block or the catch block, then the finally block.  When
    [this.currentTask] is null by then (another activation cleared it),
    [this.currentTask.type] raises a TypeError in the try block and again
    in the catch block, so that nothing is logged before the finally block
    runs. *)
Definition restOfBody (outcome : Completion) (w : BaseAgent) (s : MemStorage)
  : BaseAgent * MemStorage :=
  let '(w, s) :=
    match currentTask w, outcome with
    | Some cur, Returns =>
        (w, log "info" ("Completed task: " +:+ task_type cur) None w s)
    | Some cur, Throws message =>
        let s := log "error" ("Task failed: " +:+ task_type cur)
                     (Some message) w s in
        (emit_taskError cur message w, s)
    | None, _ => (w, s)
    end in
  let w := set_currentTask None w in
  (w, updateProgress 0 w s).

(** The activation past its await: the rest of the loop body and on to the
    next test of the loop; with [this.currentTask] null the TypeError
    leaves [processQueue] after the finally block. *)
Definition afterTask (outcome : Completion) (w : BaseAgent) (s : MemStorage)
  : BaseAgent * MemStorage :=
  let '(w', s') := restOfBody outcome w s in
  match currentTask w with
  | Some _ => processQueue w' s'
  | None => (w', s')
  end.

(** One move of the [i]-th suspended activation: the next effect of its
    handler, or, the handler having ended, the rest of [processQueue]. *)
Definition resume (i : nat) (w : BaseAgent) (s : MemStorage)
  : BaseAgent * MemStorage :=
  match awaiting w !! i with
  | None => (w, s)
  | Some r =>
      match run_ops r with
      | op :: ops =>
          (set_awaiting (<[i := {| run_ops := ops; run_end := run_end r |}]>
                           (awaiting w)) w,
           handlerOp op w s)
      | [] => afterTask (run_end r) (set_awaiting (delete i (awaiting w)) w) s
      end
  end.

Definition start (w : BaseAgent) (s : MemStorage) : BaseAgent * MemStorage :=
  if isRunning w then (w, s)
  else
    let w := set_isRunning true w in
    let s := updateStatus "running" None w s in
    let s := log "info" "Agent started" None w s in
    processQueue w s.

Definition stop (w : BaseAgent) (s : MemStorage) : BaseAgent * MemStorage :=
  let w := set_isRunning false w in
  let s := updateStatus "idle" None w s in
  let s := log "info" "Agent stopped" None w s in
  (w, s).

Definition addTask (task : AgentTask) (w : BaseAgent) (s : MemStorage)
  : BaseAgent * MemStorage :=
  let w := set_taskQueue (sort byPriority (taskQueue w ++ [task])) w in
  if isRunning w && negb (bool_decide (is_Some (currentTask w)))
  then processQueue w s
  else (w, s).

(** What can happen to one worker: a call of one of its public methods,
    or a move of one of its suspended activations. *)
Inductive Event :=
  | Start
  | Stop
  | AddTask (task : AgentTask)
  | Resume (i : nat).

Definition step (e : Event) (ws : BaseAgent * MemStorage)
  : BaseAgent * MemStorage :=
  match e with
  | Start => start ws.1 ws.2
  | Stop => stop ws.1 ws.2
  | AddTask task => addTask task ws.1 ws.2
  | Resume i => resume i ws.1 ws.2
  end.

Definition run (es : list Event) (ws : BaseAgent * MemStorage)
  : BaseAgent * MemStorage :=
  foldl (λ ws e, step e ws) ws es.

(** [n] moves of the oldest suspended activation. *)
Definition drain (n : nat) (ws : BaseAgent * MemStorage)
  : BaseAgent * MemStorage :=
  run (replicate n (Resume 0)) ws.

End Agent.

End Worker.

(** ** The registry: [AgentManager] *)

Module Manager.
Import Storage Worker.

(** The state the manager works on: the store, the worker objects created
    so far (an object is known by its position, and stays there when the
    registry forgets it: its suspended activation still holds it), and the
    field [agents : Map<number, any>] from agent id to worker object. *)
Record AgentManager := mkManager {
  storage : MemStorage;
  objects : list BaseAgent;
  agents : gmap Z nat
}.

(** The errors the manager throws:
    [Agent ${agentId} not found], [Unknown agent type: ${type}] and
    [No running agent of type ${agentType} found]. *)
Inductive Error :=
  | AgentNotFound (agentId : Z)
  | UnknownAgentType (type : string)
  | NoRunningAgent (agentType : string).

Inductive Result :=
  | Resolved
  | Rejected (e : Error).

(** The switch of [startAgent] on [agentData.type]. *)
Definition classOf (type : string) : option AgentClass :=
  if String.eqb type "code_generator" then Some CodeGeneratorAgent
  else if String.eqb type "infrastructure" then Some InfrastructureAgent
  else if String.eqb type "learning" then Some LearningAgent
  else None.

(** [this.agents.get(agentId)]: the registered object, with its position. *)
Definition instance (agentId : Z) (m : AgentManager) : option (nat * BaseAgent) :=
  match agents m !! agentId with
  | None => None
  | Some ref =>
      match objects m !! ref with
      | None => None
      | Some w => Some (ref, w)
      end
  end.

Section Manager.

Variable collaborators : AgentTask → HandlerRun.
Variable codeGeneratorKinds : list string.

Definition startAgent (agentId : Z) (m : AgentManager) : Result * AgentManager :=
  match getAgent agentId (storage m) with
  | None => (Rejected (AgentNotFound agentId), m)
  | Some agentData =>
      if bool_decide (is_Some (agents m !! agentId)) then (Resolved, m)
      else
        match classOf (agent_type agentData) with
        | None => (Rejected (UnknownAgentType (agent_type agentData)), m)
        | Some c =>
            (* the listener attached by [agent.on('taskError', ..)] writes
               to the console only *)
            let ref := length (objects m) in
            let '(w, s) :=
              start collaborators codeGeneratorKinds (new c agentId) (storage m) in
            (Resolved,
             {| storage := s;
                objects := objects m ++ [w];
                agents := <[agentId := ref]> (agents m) |})
        end
  end.

Definition stopAgent (agentId : Z) (m : AgentManager) : Result * AgentManager :=
  match instance agentId m with
  | Some (ref, agent) =>
      let '(w, s) := stop agent (storage m) in
      (Resolved,
       {| storage := s;
          objects := <[ref := w]> (objects m);
          agents := delete agentId (agents m) |})
  | None => (Resolved, m)
  end.

Definition assignTask (agentType : string) (task : AgentTask) (m : AgentManager)
  : Result * AgentManager :=
  let agents := getAgents (storage m) in
  match List.find (λ a, String.eqb (agent_type a) agentType
                        && String.eqb (agent_status a) "running") agents with
  | None => (Rejected (NoRunningAgent agentType), m)
  | Some targetAgent =>
      match instance (agent_id targetAgent) m with
      | Some (ref, agentInstance) =>
          let '(w, s) :=
            addTask collaborators codeGeneratorKinds task agentInstance
                    (storage m) in
          (Resolved,
           {| storage := s;
              objects := <[ref := w]> (objects m);
              agents := Manager.agents m |})
      | None => (Resolved, m)
      end
  end.

(** A move of the [i]-th suspended activation of the object at [ref]. *)
Definition resumeAt (ref i : nat) (m : AgentManager) : AgentManager :=
  match objects m !! ref with
  | None => m
  | Some agent =>
      let '(w, s) := resume collaborators codeGeneratorKinds i agent (storage m) in
      {| storage := s; objects := <[ref := w]> (objects m); agents := agents m |}
  end.

(** What can happen to the manager: a call from the route layer, or a
    move of a handler in flight. *)
Inductive Call :=
  | StartAgent (agentId : Z)
  | StopAgent (agentId : Z)
  | AssignTask (agentType : string) (task : AgentTask)
  | ResumeAt (ref i : nat).

Definition perform (c : Call) (m : AgentManager) : AgentManager :=
  match c with
  | StartAgent agentId => (startAgent agentId m).2
  | StopAgent agentId => (stopAgent agentId m).2
  | AssignTask agentType task => (assignTask agentType task m).2
  | ResumeAt ref i => resumeAt ref i m
  end.

Definition performAll (cs : list Call) (m : AgentManager) : AgentManager :=
  foldl (λ m c, perform c m) m cs.

(** The manager of a fresh process over a store [s]: no worker object. *)
Definition fresh (s : MemStorage) : AgentManager :=
  {| storage := s; objects := []; agents := ∅ |}.

End Manager.

End Manager.

(** ** The other tables of [MemStorage] *)

Module Tables.
Import Storage.

(** [Map.delete]: the entry of the key is gone. *)
Definition remove {V : Type} (k : Z) (m : list (Z * V)) : list (Z * V) :=
  filter (λ kv, kv.1 ≠ k) m.

(** The records of the tables, with the fields the code reads or writes;
    what else a record carries is kept as one opaque text. *)
Record User := mkUser {
  user_id : Z;
  user_username : string;
  user_rest : string
}.

Record InsertUser := mkInsertUser {
  iu_username : string;
  iu_rest : string
}.

Record Project := mkProject {
  project_id : Z;
  project_name : string;
  project_type : string;
  project_details : string;          (* description and config *)
  project_status : string
}.

Record InsertProject := mkInsertProject {
  ip_name : string;
  ip_type : string;
  ip_details : string
}.

Record ProjectUpdates := mkProjectUpdates {
  pu_name : option string;
  pu_type : option string;
  pu_details : option string;
  pu_status : option string
}.

Record Deployment := mkDeployment {
  deployment_id : Z;
  deployment_projectId : Z;
  deployment_environment : string;
  deployment_status : string;
  deployment_url : option string;
  deployment_terraformState : option string
}.

Record InsertDeployment := mkInsertDeployment {
  id_projectId : Z;
  id_environment : string;
  id_status : string;
  id_url : option string;
  id_terraformState : option string
}.

Record DeploymentUpdates := mkDeploymentUpdates {
  du_status : option string;
  du_url : option (option string);
  du_terraformState : option (option string)
}.

Record GitRepository := mkGitRepository {
  repo_id : Z;
  repo_projectId : Z;
  repo_rest : string;                (* url, local path *)
  repo_branch : string;
  repo_lastCommit : option string;
  repo_lastAnalyzed : option Z       (* a time *)
}.

Record InsertGitRepository := mkInsertGitRepository {
  ir_projectId : Z;
  ir_rest : string;
  ir_branch : option string
}.

Record GitRepositoryUpdates := mkGitRepositoryUpdates {
  ru_lastAnalyzed : option (option Z);
  ru_lastCommit : option (option string)
}.

(** All of [MemStorage]: the tables of the agents, activities and logs with
    the counter of identifiers, and the four other tables. *)
Record Tables := mkTables {
  core : MemStorage;
  users : list (Z * User);
  projects : list (Z * Project);
  deployments : list (Z * Deployment);
  gitRepositories : list (Z * GitRepository)
}.

(** [new MemStorage()] *)
Definition empty : Tables :=
  {| core := Storage.empty; users := []; projects := []; deployments := [];
     gitRepositories := [] |}.

Definition set_core (c : MemStorage) (t : Tables) : Tables :=
  {| core := c; users := users t; projects := projects t;
     deployments := deployments t; gitRepositories := gitRepositories t |}.

Definition set_users (m : list (Z * User)) (t : Tables) : Tables :=
  {| core := core t; users := m; projects := projects t;
     deployments := deployments t; gitRepositories := gitRepositories t |}.

Definition set_projects (m : list (Z * Project)) (t : Tables) : Tables :=
  {| core := core t; users := users t; projects := m;
     deployments := deployments t; gitRepositories := gitRepositories t |}.

Definition set_deployments (m : list (Z * Deployment)) (t : Tables) : Tables :=
  {| core := core t; users := users t; projects := projects t;
     deployments := m; gitRepositories := gitRepositories t |}.

Definition set_gitRepositories (m : list (Z * GitRepository)) (t : Tables)
  : Tables :=
  {| core := core t; users := users t; projects := projects t;
     deployments := deployments t; gitRepositories := m |}.

(** [this.currentId++] *)
Definition nextId (t : Tables) : Z * Tables :=
  (currentId (core t), set_core (createOther (core t)) t).

(** *** Users *)

Definition getUser (id : Z) (t : Tables) : option User :=
  JsMap.get id (users t).

Definition getUserByUsername (username : string) (t : Tables) : option User :=
  List.find (λ user, String.eqb (user_username user) username)
            (JsMap.values (users t)).

Definition createUser (ins : InsertUser) (t : Tables) : User * Tables :=
  let '(id, t) := nextId t in
  let user := {| user_id := id; user_username := iu_username ins;
                 user_rest := iu_rest ins |} in
  (user, set_users (JsMap.set id user (users t)) t).

(** *** Projects *)

Definition getProject (id : Z) (t : Tables) : option Project :=
  JsMap.get id (projects t).

Definition getProjects (t : Tables) : list Project :=
  JsMap.values (projects t).

Definition createProject (ins : InsertProject) (t : Tables) : Project * Tables :=
  let '(id, t) := nextId t in
  let project := {| project_id := id; project_name := ip_name ins;
                    project_type := ip_type ins;
                    project_details := ip_details ins;
                    project_status := "active" |} in
  (project, set_projects (JsMap.set id project (projects t)) t).

Definition spreadProject (p : Project) (u : ProjectUpdates) : Project :=
  {| project_id := project_id p;
     project_name := default (project_name p) (pu_name u);
     project_type := default (project_type p) (pu_type u);
     project_details := default (project_details p) (pu_details u);
     project_status := default (project_status p) (pu_status u) |}.

Definition updateProject (id : Z) (u : ProjectUpdates) (t : Tables)
  : option Project * Tables :=
  match JsMap.get id (projects t) with
  | None => (None, t)
  | Some project =>
      let updatedProject := spreadProject project u in
      (Some updatedProject,
       set_projects (JsMap.set id updatedProject (projects t)) t)
  end.

Definition deleteProject (id : Z) (t : Tables) : bool * Tables :=
  (bool_decide (is_Some (JsMap.get id (projects t))),
   set_projects (remove id (projects t)) t).

(** *** Deployments *)

Definition getDeployments (t : Tables) : list Deployment :=
  JsMap.values (deployments t).

Definition getDeploymentsByProject (projectId : Z) (t : Tables)
  : list Deployment :=
  List.filter (λ d, bool_decide (deployment_projectId d = projectId))
              (JsMap.values (deployments t)).

Definition createDeployment (ins : InsertDeployment) (t : Tables)
  : Deployment * Tables :=
  let '(id, t) := nextId t in
  let deployment :=
    {| deployment_id := id; deployment_projectId := id_projectId ins;
       deployment_environment := id_environment ins;
       deployment_status := id_status ins; deployment_url := id_url ins;
       deployment_terraformState := id_terraformState ins |} in
  (deployment, set_deployments (JsMap.set id deployment (deployments t)) t).

Definition spreadDeployment (d : Deployment) (u : DeploymentUpdates)
  : Deployment :=
  {| deployment_id := deployment_id d;
     deployment_projectId := deployment_projectId d;
     deployment_environment := deployment_environment d;
     deployment_status := default (deployment_status d) (du_status u);
     deployment_url := default (deployment_url d) (du_url u);
     deployment_terraformState :=
       default (deployment_terraformState d) (du_terraformState u) |}.

Definition updateDeployment (id : Z) (u : DeploymentUpdates) (t : Tables)
  : option Deployment * Tables :=
  match JsMap.get id (deployments t) with
  | None => (None, t)
  | Some deployment =>
      let updatedDeployment := spreadDeployment deployment u in
      (Some updatedDeployment,
       set_deployments (JsMap.set id updatedDeployment (deployments t)) t)
  end.

(** *** Git repositories *)

Definition getGitRepository (projectId : Z) (t : Tables)
  : option GitRepository :=
  List.find (λ repo, bool_decide (repo_projectId repo = projectId))
            (JsMap.values (gitRepositories t)).

(** [insertRepo.branch || "main"] *)
Definition branchOrMain (branch : option string) : string :=
  match branch with
  | Some "" => "main"
  | Some b => b
  | None => "main"
  end.

Definition createGitRepository (ins : InsertGitRepository) (t : Tables)
  : GitRepository * Tables :=
  let '(id, t) := nextId t in
  let repo := {| repo_id := id; repo_projectId := ir_projectId ins;
                 repo_rest := ir_rest ins;
                 repo_branch := branchOrMain (ir_branch ins);
                 repo_lastCommit := None; repo_lastAnalyzed := None |} in
  (repo, set_gitRepositories (JsMap.set id repo (gitRepositories t)) t).

Definition spreadGitRepository (r : GitRepository) (u : GitRepositoryUpdates)
  : GitRepository :=
  {| repo_id := repo_id r; repo_projectId := repo_projectId r;
     repo_rest := repo_rest r; repo_branch := repo_branch r;
     repo_lastCommit := default (repo_lastCommit r) (ru_lastCommit u);
     repo_lastAnalyzed := default (repo_lastAnalyzed r) (ru_lastAnalyzed u) |}.

Definition updateGitRepository (id : Z) (u : GitRepositoryUpdates) (t : Tables)
  : option GitRepository * Tables :=
  match JsMap.get id (gitRepositories t) with
  | None => (None, t)
  | Some repo =>
      let updatedRepo := spreadGitRepository repo u in
      (Some updatedRepo,
       set_gitRepositories (JsMap.set id updatedRepo (gitRepositories t)) t)
  end.

(** *** The calls that change the store *)

Inductive Call :=
  | CreateUser (ins : InsertUser)
  | CreateProject (ins : InsertProject)
  | UpdateProject (id : Z) (u : ProjectUpdates)
  | DeleteProject (id : Z)
  | CreateAgent (ins : InsertAgent)
  | UpdateAgent (id : Z) (u : AgentUpdates)
  | CreateActivity (type title : string) (description : option string)
                   (status : string) (agentId : Z) (projectId : option Z)
  | CreateSystemLog (level message source : string) (agentId : Z)
                    (metadata : option string)
  | CreateDeployment (ins : InsertDeployment)
  | UpdateDeployment (id : Z) (u : DeploymentUpdates)
  | CreateGitRepository (ins : InsertGitRepository)
  | UpdateGitRepository (id : Z) (u : GitRepositoryUpdates).

Definition perform (c : Call) (t : Tables) : Tables :=
  match c with
  | CreateUser ins => (createUser ins t).2
  | CreateProject ins => (createProject ins t).2
  | UpdateProject id u => (updateProject id u t).2
  | DeleteProject id => (deleteProject id t).2
  | CreateAgent ins => set_core (createAgent ins (core t)).2 t
  | UpdateAgent id u => set_core (updateAgent id u (core t)).2 t
  | CreateActivity type title description status agentId projectId =>
      set_core (createActivity type title description status agentId
                  projectId (core t)).2 t
  | CreateSystemLog level message source agentId metadata =>
      set_core (createSystemLog level message source agentId metadata
                  (core t)).2 t
  | CreateDeployment ins => (createDeployment ins t).2
  | UpdateDeployment id u => (updateDeployment id u t).2
  | CreateGitRepository ins => (createGitRepository ins t).2
  | UpdateGitRepository id u => (updateGitRepository id u t).2
  end.

Definition performAll (cs : list Call) (t : Tables) : Tables :=
  foldl (λ t c, perform c t) t cs.

(** The keys of all seven tables. *)
Definition keys (t : Tables) : list Z :=
  map fst (agents (core t)) ++ map fst (activities (core t))
  ++ map fst (systemLogs (core t)) ++ map fst (users t)
  ++ map fst (projects t) ++ map fst (deployments t)
  ++ map fst (gitRepositories t).

(** The id fields of all records, table by table in the same order. *)
Definition ids (t : Tables) : list Z :=
  map (agent_id ∘ snd) (agents (core t))
  ++ map (act_id ∘ snd) (activities (core t))
  ++ map (log_id ∘ snd) (systemLogs (core t))
  ++ map (user_id ∘ snd) (users t)
  ++ map (project_id ∘ snd) (projects t)
  ++ map (deployment_id ∘ snd) (deployments t)
  ++ map (repo_id ∘ snd) (gitRepositories t).

End Tables.

(** ** [updateAgent] on any updates *)

Module Partial.
Import Storage.

(** [Partial<Agent>]: any field of the row may be given. *)
Record PartialAgent := mkPartial {
  p_id : option Z;
  p_name : option string;
  p_type : option string;
  p_status : option string;
  p_currentTask : option (option string);
  p_progress : option Z
}.

(** [{ ...agent, ...updates }] *)
Definition spread (a : Agent) (u : PartialAgent) : Agent :=
  {| agent_id := default (agent_id a) (p_id u);
     agent_name := default (agent_name a) (p_name u);
     agent_type := default (agent_type a) (p_type u);
     agent_status := default (agent_status a) (p_status u);
     agent_currentTask := default (agent_currentTask a) (p_currentTask u);
     agent_progress := default (agent_progress a) (p_progress u) |}.

Definition updateAgent (id : Z) (updates : PartialAgent) (s : MemStorage)
  : option Agent * MemStorage :=
  match JsMap.get id (agents s) with
  | None => (None, s)
  | Some agent =>
      let updatedAgent := spread agent updates in
      (Some updatedAgent,
       {| agents := JsMap.set id updatedAgent (agents s);
          activities := activities s;
          systemLogs := systemLogs s;
          currentId := currentId s |})
  end.

(** The updates [BaseAgent] passes: status, current task and progress. *)
Definition ofAgent (u : AgentUpdates) : PartialAgent :=
  {| p_id := None; p_name := None; p_type := None;
     p_status := upd_status u; p_currentTask := upd_currentTask u;
     p_progress := upd_progress u |}.

End Partial.

(** ** Start-up of the platform: [AgentManager.initializeAgents] *)

Module Startup.
Import Storage Worker Manager.

(** The three agents [initializeAgents] creates in an empty store (their
    [config] is not read by the code of the workers). *)
Definition codeAgentData : InsertAgent :=
  {| ins_name := "Code Generator Agent"; ins_type := "code_generator" |}.
Definition infraAgentData : InsertAgent :=
  {| ins_name := "Infrastructure Agent"; ins_type := "infrastructure" |}.
Definition learningAgentData : InsertAgent :=
  {| ins_name := "Learning Agent"; ins_type := "learning" |}.

Section Startup.

Variable collaborators : AgentTask → HandlerRun.
Variable codeGeneratorKinds : list string.

(** [await this.startAgent(id)] for each id in turn; a rejection ends the
    sequence, the agents after it are not started. *)
Fixpoint startEach (ids : list Z) (m : AgentManager) : Result * AgentManager :=
  match ids with
  | [] => (Resolved, m)
  | agentId :: ids =>
      match startAgent collaborators codeGeneratorKinds agentId m with
      | (Resolved, m) => startEach ids m
      | (Rejected e, m) => (Rejected e, m)
      end
  end.

(** [existingAgents] is the array of the rows at the time of the call:
    [updateAgent] replaces a row by a new object, so the status the loop
    reads is the one of that time. *)
Definition initializeAgents (m : AgentManager) : Result * AgentManager :=
  let existingAgents := getAgents (storage m) in
  if bool_decide (length existingAgents = 0%nat) then
    let '(codeAgent, s) := createAgent codeAgentData (storage m) in
    let '(infraAgent, s) := createAgent infraAgentData s in
    let '(learningAgent, s) := createAgent learningAgentData s in
    startEach [agent_id codeAgent; agent_id infraAgent; agent_id learningAgent]
              {| storage := s; objects := objects m; agents := agents m |}
  else
    startEach
      (map agent_id
           (filter (λ agent, agent_status agent = "running") existingAgents))
      m.

End Startup.

End Startup.

(** ** The manager over the whole store: [createProject] and the route

    [AgentManager.createProject] and the handler of [POST /api/projects]
    in [routes.ts] work on the projects and, through [assignTask], on the
    agents.  As in [assignTask], an [await] on the store is taken to resume
    at once. *)

Module Platform.
Import Storage Worker Manager Tables.

(** The store, the worker objects and the registry of the manager. *)
Record App := mkApp {
  store : Tables;
  workers : list BaseAgent;
  registry : gmap Z nat
}.

Definition manager (app : App) : AgentManager :=
  {| storage := core (store app); objects := workers app;
     agents := registry app |}.

Definition withManager (m : AgentManager) (app : App) : App :=
  {| store := set_core (storage m) (store app); workers := objects m;
     registry := agents m |}.

Definition set_store (t : Tables) (app : App) : App :=
  {| store := t; workers := workers app; registry := registry app |}.

(** [projectData]: the fields the store keeps, and the two fields of
    [projectData.config] the manager reads. *)
Record ProjectData := mkProjectData {
  pd_insert : InsertProject;
  pd_autoDeploy : bool;
  pd_cloudProvider : string
}.

(** What the request went wrong with: [fs.mkdir], or the manager. *)
Inductive Cause :=
  | DirectoryNotMade
  | Manager (e : Error).

(** The answer of [POST /api/projects] to valid data: 201 with the
    project, or 500. *)
Inductive Response :=
  | Created (project : Project)
  | ServerError (cause : Cause).

Section Platform.

Variable collaborators : AgentTask → HandlerRun.
Variable codeGeneratorKinds : list string.

(** The payloads of the two tasks, as values the handlers read: the object
    literals of [createProject] over [project.id] and [projectData]. *)
Variable projectPayload : Z → ProjectData → string.
Variable terraformPayload : Z → ProjectData → string.

Definition generateProjectTask (project : Project) (data : ProjectData)
    (now : Z) : AgentTask :=
  {| task_id := "project_" +:+ pretty (project_id project) +:+ "_"
                +:+ pretty now;
     task_type := "generate_project";
     task_payload := projectPayload (project_id project) data;
     task_priority := 10 |}.

Definition generateTerraformTask (project : Project) (data : ProjectData)
    (now : Z) : AgentTask :=
  {| task_id := "infra_" +:+ pretty (project_id project) +:+ "_"
                +:+ pretty now;
     task_type := "generate_terraform";
     task_payload := terraformPayload (project_id project) data;
     task_priority := 8 |}.

(** [await this.assignTask(agentType, task)] *)
Definition assign (agentType : string) (task : AgentTask) (app : App)
  : Result * App :=
  let '(r, m) := assignTask collaborators codeGeneratorKinds agentType task
                            (manager app) in
  (r, withManager m app).

(** [AgentManager.createProject]; [now] and [now'] are what [Date.now()]
    gives at its two calls. *)
Definition createProject (data : ProjectData) (now now' : Z) (app : App)
  : Result * App :=
  let '(project, t) := Tables.createProject (pd_insert data) (store app) in
  let app := set_store t app in
  match assign "code_generator" (generateProjectTask project data now) app with
  | (Rejected e, app) => (Rejected e, app)
  | (Resolved, app) =>
      if pd_autoDeploy data
      then assign "infrastructure" (generateTerraformTask project data now') app
      else (Resolved, app)
  end.

(** What the event loop serves while a request waits for the file system:
    calls of other requests on the store and on the manager, and moves of
    the handlers in flight. *)
Inductive Event :=
  | Store (c : Tables.Call)
  | Manage (c : Manager.Call).

Definition serve (e : Event) (app : App) : App :=
  match e with
  | Store c => set_store (Tables.perform c (store app)) app
  | Manage c =>
      withManager (Manager.perform collaborators codeGeneratorKinds c
                                   (manager app)) app
  end.

Definition serveAll (es : list Event) (app : App) : App :=
  foldl (λ app e, serve e app) app es.

(** [ProjectService.createProject] as far as its await of [fs.mkdir]: the
    project is filed. *)
Definition fileProject (data : ProjectData) (app : App) : Project * App :=
  let '(project, t) := Tables.createProject (pd_insert data) (store app) in
  (project, set_store t app).

(** The handler of [POST /api/projects] once the body is validated.
    [ProjectService.createProject] files the project and awaits [fs.mkdir];
    [meanwhile] is what the event loop serves until the file system answers,
    and [directoryMade] whether it answers with success.  The manager then
    gets [{...project, config}], of which the store reads the same name,
    type and details again. *)
Definition postProject (data : ProjectData) (directoryMade : bool)
    (now now' : Z) (meanwhile : list Event) (app : App) : Response * App :=
  let '(project, app) := fileProject data app in
  let app := serveAll meanwhile app in
  if directoryMade then
    match createProject data now now' app with
    | (Resolved, app) => (Created project, app)
    | (Rejected e, app) => (ServerError (Manager e), app)
    end
  else (ServerError DirectoryNotMade, app).

End Platform.

(** All tasks the workers hold or have run. *)
Definition tasks (app : App) : list AgentTask :=
  flat_map (λ w, executed w ++ taskQueue w) (workers app).

End Platform.

(** ** The handlers of [InfrastructureAgent]

    What [generateTerraform], [deployInfrastructure] and
    [monitorResources] do, given what the services they await end with.
    [TerraformService] and [LLMService] are outside: each awaited call of
    one is fulfilled or fails with a message. *)

Module Handlers.
Import Storage Worker Tables.

Inductive Outcome (A : Type) :=
  | Fulfilled (a : A)
  | Failed (message : string).
Arguments Fulfilled {A} a.
Arguments Failed {A} message.

(** What [validateConfig] resolves to. *)
Record ValidationResult := mkValidation {
  valid : bool;
  errors : list string
}.

(** [InfrastructureTask]; [config] goes to the services only. *)
Record InfrastructureTask := mkInfrastructureTask {
  projectId : Z;
  cloudProvider : string;
  environment : string
}.

Definition generateTerraform (task : InfrastructureTask)
    (terraformConfig terraformPath : Outcome unit)
    (validation : Outcome ValidationResult) : HandlerRun :=
  let begun :=
    [OpLog ("Generating Terraform for " +:+ cloudProvider task +:+ " - "
            +:+ environment task);
     OpProgress 20] in
  match terraformConfig with
  | Failed message => {| run_ops := begun; run_end := Throws message |}
  | Fulfilled _ =>
      let generated := begun ++ [OpProgress 50] in
      match terraformPath with
      | Failed message => {| run_ops := generated; run_end := Throws message |}
      | Fulfilled _ =>
          let saved := generated ++ [OpProgress 80] in
          match validation with
          | Failed message => {| run_ops := saved; run_end := Throws message |}
          | Fulfilled validation =>
              if valid validation then
                {| run_ops :=
                     saved ++
                     [OpProgress 100;
                      OpActivity "terraform_generated"
                        "Infrastructure code generated"
                        (Some ("Created Terraform configuration for "
                               +:+ cloudProvider task +:+ " "
                               +:+ environment task))
                        (Some (projectId task))];
                   run_end := Returns |}
              else
                {| run_ops := saved;
                   run_end :=
                     Throws ("Terraform validation failed: "
                             +:+ String.concat ", " (errors validation)) |}
          end
      end
  end.

(** [monitorResources] awaits no service. *)
Definition monitorResources (deploymentId : Z) : HandlerRun :=
  {| run_ops :=
       [OpLog ("Monitoring deployment " +:+ pretty deploymentId);
        OpActivity "resources_monitored" "Infrastructure monitoring"
          (Some ("Checked status of deployment " +:+ pretty deploymentId))
          None];
     run_end := Returns |}.

(** [deployInfrastructure] writes to the deployments as well: its effects
    are those of a handler, the creation of its deployment, and updates of
    the deployment it has created. *)
Inductive Step :=
  | Op (op : HandlerOp)
  | CreateDeployment (deployment : InsertDeployment)
  | UpdateDeployment (updates : DeploymentUpdates).

Definition deployInfrastructure (task : InfrastructureTask)
    (plan : Outcome string) : list Step * Completion :=
  let begun :=
    [Op (OpLog ("Deploying infrastructure for project "
                +:+ pretty (projectId task) +:+ " - " +:+ environment task));
     Op (OpProgress 10);
     CreateDeployment
       {| id_projectId := projectId task;
          id_environment := environment task;
          id_status := "deploying"; id_url := None;
          id_terraformState := None |}] in
  match plan with
  | Fulfilled plan =>
      (begun ++
       [Op (OpProgress 30);
        Op (OpLog "Terraform plan generated successfully");
        Op (OpProgress 60);
        UpdateDeployment
          {| du_status := Some "planned"; du_url := None;
             du_terraformState := Some (Some plan) |};
        Op (OpProgress 100);
        Op (OpActivity "infrastructure_planned"
              "Infrastructure deployment planned"
              (Some ("Terraform plan ready for " +:+ environment task
                     +:+ " environment"))
              (Some (projectId task)))],
       Returns)
  | Failed message =>
      (begun ++
       [UpdateDeployment
          {| du_status := Some "failed"; du_url := None;
             du_terraformState := None |}],
       Throws message)
  end.

(** One effect of the handler of worker [w]; [deployment] is the id of
    the deployment the handler holds, once it has created it. *)
Definition step (w : BaseAgent) (st : Step) (held : option Z * Tables)
  : option Z * Tables :=
  let '(deployment, t) := held in
  match st with
  | Op op => (deployment, set_core (handlerOp op w (core t)) t)
  | CreateDeployment ins =>
      let '(created, t) := createDeployment ins t in
      (Some (deployment_id created), t)
  | UpdateDeployment updates =>
      match deployment with
      | Some id => (deployment, (updateDeployment id updates t).2)
      | None => (deployment, t)
      end
  end.

(** The effects of a handler, one after the other, nothing in between. *)
Definition steps (w : BaseAgent) (sts : list Step) (t : Tables) : Tables :=
  (foldl (λ held st, step w st held) (None, t) sts).2.

(** The effects as the worker's loop sees them: a handler operation each,
    but for the updates of the deployment. *)
Definition seen (sts : list Step) : list HandlerOp :=
  flat_map (λ st, match st with
                  | Op op => [op]
                  | CreateDeployment _ => [OpCreate]
                  | UpdateDeployment _ => []
                  end) sts.

(** The progress values a handler reports, in order. *)
Definition progress (ops : list HandlerOp) : list Z :=
  flat_map (λ op, match op with OpProgress p => [p] | _ => [] end) ops.

(** The activities a handler records, by type. *)
Definition recorded (ops : list HandlerOp) : list string :=
  flat_map (λ op, match op with
                  | OpActivity type _ _ _ => [type]
                  | _ => []
                  end) ops.

End Handlers.

(** ** Sample data: one infrastructure agent and runs of its handlers *)

Module Sample.
Import Storage Worker.

(** [generateTerraform] when every collaborator answers. *)
Definition terraformGenerated : HandlerRun :=
  {| run_ops :=
       [OpLog "Generating Terraform for aws - development";
        OpProgress 20; OpProgress 50; OpProgress 80; OpProgress 100;
        OpActivity "terraform_generated" "Infrastructure code generated"
          (Some "Created Terraform configuration for aws development")
          (Some 7)];
     run_end := Returns |}.

(** [generateTerraform] when the validation of the files fails. *)
Definition terraformRejected : HandlerRun :=
  {| run_ops :=
       [OpLog "Generating Terraform for aws - development";
        OpProgress 20; OpProgress 50; OpProgress 80];
     run_end := Throws "Terraform validation failed: missing provider" |}.

(** [monitorResources] *)
Definition resourcesMonitored : HandlerRun :=
  {| run_ops :=
       [OpLog "Monitoring deployment 3";
        OpActivity "resources_monitored" "Infrastructure monitoring"
          (Some "Checked status of deployment 3") None];
     run_end := Returns |}.

Definition collaborators (t : AgentTask) : HandlerRun :=
  if String.eqb (task_type t) "monitor_resources" then resourcesMonitored
  else if String.eqb (task_payload t) "invalid" then terraformRejected
  else terraformGenerated.

Definition task (id : string) (priority : Z) : AgentTask :=
  {| task_id := id; task_type := "generate_terraform";
     task_payload := "aws"; task_priority := priority |}.

Definition invalid (id : string) (priority : Z) : AgentTask :=
  {| task_id := id; task_type := "generate_terraform";
     task_payload := "invalid"; task_priority := priority |}.

(** A task of a kind no handler table knows. *)
Definition unknown (id : string) (priority : Z) : AgentTask :=
  {| task_id := id; task_type := "reticulate_splines";
     task_payload := "aws"; task_priority := priority |}.

(** A task whose kind is the empty string. *)
Definition unnamed (id : string) (priority : Z) : AgentTask :=
  {| task_id := id; task_type := "";
     task_payload := "aws"; task_priority := priority |}.

(** The store after [createAgent] of an infrastructure agent: its id is 1. *)
Definition store : MemStorage :=
  (createAgent {| ins_name := "Infrastructure Agent";
                  ins_type := "infrastructure" |} Storage.empty).2.

(** The tasks of priorities 5, 10, 1, 10, named by their position. *)
Definition fourTasks : list AgentTask :=
  [task "0" 5; task "1" 10; task "2" 1; task "3" 10].

Definition monitor (id : string) (priority : Z) : AgentTask :=
  {| task_id := id; task_type := "monitor_resources";
     task_payload := "3"; task_priority := priority |}.

(** The worker of agent 1, just constructed. *)
Definition worker : BaseAgent * MemStorage :=
  (new InfrastructureAgent 1, store).

(** Started; executes task 0, which validation will reject; tasks 1 and 2
    wait, the handler of task 2 will fail as well. *)
Definition failing : BaseAgent * MemStorage :=
  run collaborators []
    [Start; AddTask (invalid "0" 5); AddTask (task "1" 9);
     AddTask (invalid "2" 3)] worker.

(** Started; two effects into the handler of task 0. *)
Definition generating : BaseAgent * MemStorage :=
  run collaborators []
    [Start; AddTask (task "0" 5); Resume 0; Resume 0] worker.

(** Started; executes task 0 while a task of another kind waits. *)
Definition twoTasks : BaseAgent * MemStorage :=
  run collaborators []
    [Start; AddTask (task "0" 5); AddTask (monitor "1" 3)] worker.

(** Started; has just taken a task of unknown kind, task 1 waits. *)
Definition puzzled : BaseAgent * MemStorage :=
  run collaborators []
    [Start; AddTask (unknown "0" 5); AddTask (task "1" 3)] worker.

End Sample.

Module SampleManager.
Import Storage Worker Manager.

(** The manager of a process that starts over [Sample.store]. *)
Definition manager : AgentManager := fresh Sample.store.

(** Agent 1 was started and given task 0, which it executes. *)
Definition busy : AgentManager :=
  performAll Sample.collaborators []
    [StartAgent 1; AssignTask "infrastructure" (Sample.task "0" 5)] manager.

(** A manager without workers over a store whose row of agent 1 was left
    with the status running. *)
Definition restarted : AgentManager :=
  fresh (storage (performAll Sample.collaborators [] [StartAgent 1] manager)).

(** Agent 1 was stopped while it executed task 0, and started again. *)
Definition restartedBusy : AgentManager :=
  performAll Sample.collaborators []
    [StopAgent 1; StartAgent 1] busy.

(** Start, stop and start again of agent 1, tasks in between. *)
Definition calls : list Call :=
  [StartAgent 1; AssignTask "infrastructure" (Sample.task "0" 5);
   StopAgent 1; StartAgent 1; ResumeAt 0 0;
   AssignTask "infrastructure" (Sample.task "1" 3)].

End SampleManager.

Module SamplePlatform.
Import Storage Worker Manager Tables Platform.

(** The manager after [initializeAgents] on a new store: the agents 1, 2
    and 3, their workers running. *)
Definition booted : AgentManager :=
  (Startup.initializeAgents Sample.collaborators [] (fresh Storage.empty)).2.

(** The platform once [registerRoutes] has initialized the agents. *)
Definition app : App :=
  withManager booted {| store := Tables.empty; workers := []; registry := ∅ |}.

(** A platform without agents. *)
Definition unstaffed : App :=
  {| store := Tables.empty; workers := []; registry := ∅ |}.

(** A project to be deployed as well. *)
Definition shop : ProjectData :=
  {| pd_insert := {| ip_name := "shop"; ip_type := "Flask REST API";
                     ip_details := "" |};
     pd_autoDeploy := true; pd_cloudProvider := "aws" |}.

(** A rendering of the payloads: the id of the project. *)
Definition payload (projectId : Z) (data : ProjectData) : string :=
  pretty projectId.

(** Agent 1 of [Sample.store] was started. *)
Definition started : AgentManager :=
  Manager.performAll Sample.collaborators [] [StartAgent 1]
                     SampleManager.manager.

(** A store with one repository, of project 1. *)
Definition cloned : Tables :=
  Tables.performAll
    [CreateGitRepository {| ir_projectId := 1; ir_rest := "shop.git";
                            ir_branch := None |}] Tables.empty.

End SamplePlatform.

(** * Properties *)

(** ** Insertion-ordered maps *)

Module JsMapFacts.
Import JsMap.

Section Facts.
Context {V : Type}.
Implicit Types (m : list (Z * V)) (k : Z) (v : V).

Lemma get_set_eq k v m : get k (set k v m) = Some v.
Proof.
  induction m as [|[k' v'] m IH]; simpl.
  - by rewrite bool_decide_eq_true_2.
  - destruct (bool_decide (k' = k)) eqn:E; simpl.
    + by rewrite bool_decide_eq_true_2.
    + by rewrite E.
Qed.

Lemma get_set_ne k k' v m : k ≠ k' → get k' (set k v m) = get k' m.
Proof.
  intros Hne. induction m as [|[k0 v0] m IH]; simpl.
  - by rewrite bool_decide_eq_false_2.
  - destruct (bool_decide (k0 = k)) eqn:E; simpl.
    + apply bool_decide_eq_true_1 in E as ->.
      by rewrite !bool_decide_eq_false_2.
    + by rewrite IH.
Qed.

(** [set] on a key beyond all keys of the map appends. *)
Lemma set_fresh k v m :
  Forall (λ kv, kv.1 < k) m → set k v m = m ++ [(k, v)].
Proof.
  induction 1 as [|[k' v'] m Hk _ IH]; simpl in *; [done|].
  rewrite bool_decide_eq_false_2 by lia. by rewrite IH.
Qed.

End Facts.

End JsMapFacts.

(** ** The store *)

Module StorageFacts.
Import JsMap JsMapFacts Storage Worker.

(** Identifiers are handed out by a counter: the keys of the log table lie
    below it. *)
Definition fresh_ids (s : MemStorage) : Prop :=
  Forall (λ kv, kv.1 < currentId s) (systemLogs s).

(** Level, message, agent and metadata of the log records, oldest first. *)
Definition journal (s : MemStorage) : list (string * string * Z * option string) :=
  map (λ l, (log_level l, log_message l, log_agentId l, log_metadata l))
      (values (systemLogs s)).

Definition errors (s : MemStorage) : list (string * string * Z * option string) :=
  filter (λ e, e.1.1.1 = "error") (journal s).

(** The persisted row of the agent [id]. *)
Definition row (id : Z) (s : MemStorage) : option Agent := getAgent id s.

Lemma fresh_ids_weaken (m : list (Z * SystemLog)) (a b : Z) :
  a ≤ b → Forall (λ kv, kv.1 < a) m → Forall (λ kv, kv.1 < b) m.
Proof.
  intros Hab H. eapply Forall_impl; [exact H|]. intros kv; simpl; lia.
Qed.

Lemma getAgent_updateAgent id id' u s :
  getAgent id (updateAgent id' u s).2 =
    if bool_decide (id' = id) then (λ a, spread a u) <$> getAgent id s
    else getAgent id s.
Proof.
  unfold updateAgent, getAgent. case_bool_decide as E.
  - subst id'. destruct (get id (agents s)) eqn:G; simpl; [|by rewrite G].
    by rewrite get_set_eq.
  - destruct (get id' (agents s)) eqn:G; simpl; [|done].
    by rewrite get_set_ne.
Qed.

Lemma systemLogs_updateAgent id u s :
  systemLogs (updateAgent id u s).2 = systemLogs s
  ∧ currentId (updateAgent id u s).2 = currentId s.
Proof. unfold updateAgent. by destruct (get id (agents s)). Qed.

Section Effects.
Implicit Types (w : BaseAgent) (s : MemStorage).

Lemma journal_updateStatus st ct w s :
  journal (updateStatus st ct w s) = journal s.
Proof.
  unfold journal, updateStatus.
  by rewrite (proj1 (systemLogs_updateAgent _ _ _)).
Qed.

Lemma journal_updateProgress p w s :
  journal (updateProgress p w s) = journal s.
Proof.
  unfold journal, updateProgress.
  by rewrite (proj1 (systemLogs_updateAgent _ _ _)).
Qed.

Lemma journal_log level message metadata w s :
  fresh_ids s →
  journal (log level message metadata w s)
  = journal s ++ [(level, message, agentId w, metadata)].
Proof.
  intros Hf. unfold journal, log, createSystemLog, values; simpl.
  rewrite set_fresh by exact Hf. by rewrite map_app, map_app.
Qed.

Lemma journal_createActivity ty ti d p w s :
  journal (createActivity ty ti d p w s) = journal s.
Proof. done. Qed.

Lemma fresh_updateStatus st ct w s :
  fresh_ids s → fresh_ids (updateStatus st ct w s).
Proof.
  unfold fresh_ids, updateStatus.
  destruct (systemLogs_updateAgent (agentId w)
    {| upd_status := Some st; upd_currentTask := Some (orNull ct);
       upd_progress := None |} s) as [-> ->]. done.
Qed.

Lemma fresh_updateProgress p w s :
  fresh_ids s → fresh_ids (updateProgress p w s).
Proof.
  unfold fresh_ids, updateProgress.
  destruct (systemLogs_updateAgent (agentId w)
    {| upd_status := None; upd_currentTask := None;
       upd_progress := Some p |} s) as [-> ->]. done.
Qed.

Lemma fresh_log level message metadata w s :
  fresh_ids s → fresh_ids (log level message metadata w s).
Proof.
  unfold fresh_ids, log, createSystemLog; simpl. intros Hf.
  rewrite set_fresh by exact Hf. apply Forall_app. split.
  - eapply fresh_ids_weaken; [|exact Hf]. lia.
  - constructor; [simpl; lia|constructor].
Qed.

Lemma fresh_createActivity ty ti d p w s :
  fresh_ids s → fresh_ids (createActivity ty ti d p w s).
Proof.
  unfold fresh_ids, createActivity, Storage.createActivity; simpl.
  apply fresh_ids_weaken. lia.
Qed.

Lemma fresh_createOther s : fresh_ids s → fresh_ids (createOther s).
Proof. unfold fresh_ids, createOther; simpl. apply fresh_ids_weaken. lia. Qed.

Lemma fresh_empty : fresh_ids Storage.empty.
Proof. constructor. Qed.

Lemma fresh_createAgent ins s : fresh_ids s → fresh_ids (createAgent ins s).2.
Proof. unfold fresh_ids, createAgent; simpl. apply fresh_ids_weaken. lia. Qed.

Lemma row_updateStatus st ct w s :
  row (agentId w) (updateStatus st ct w s)
  = (λ a, spread a {| upd_status := Some st;
                      upd_currentTask := Some (orNull ct);
                      upd_progress := None |}) <$> row (agentId w) s.
Proof.
  unfold row, updateStatus. rewrite getAgent_updateAgent.
  by rewrite bool_decide_eq_true_2.
Qed.

Lemma row_updateProgress p w s :
  row (agentId w) (updateProgress p w s)
  = (λ a, spread a {| upd_status := None; upd_currentTask := None;
                      upd_progress := Some p |}) <$> row (agentId w) s.
Proof.
  unfold row, updateProgress. rewrite getAgent_updateAgent.
  by rewrite bool_decide_eq_true_2.
Qed.

Lemma row_log level message metadata id w s :
  row id (log level message metadata w s) = row id s.
Proof. done. Qed.

Lemma row_createActivity ty ti d p id w s :
  row id (createActivity ty ti d p w s) = row id s.
Proof. done. Qed.

Lemma row_createOther id s : row id (createOther s) = row id s.
Proof. done. Qed.

(** Status, current task and progress of the persisted row of [id]. *)
Definition persisted (id : Z) s : option (string * option string * Z) :=
  (λ a, (agent_status a, agent_currentTask a, agent_progress a)) <$> row id s.

Lemma persisted_updateStatus st ct id w s :
  agentId w = id →
  persisted id (updateStatus st ct w s)
  = (λ x, (st, orNull ct, x.2)) <$> persisted id s.
Proof.
  intros <-. unfold persisted. rewrite row_updateStatus.
  by destruct (row (agentId w) s).
Qed.

Lemma persisted_updateProgress p id w s :
  agentId w = id →
  persisted id (updateProgress p w s) = (λ x, (x.1, p)) <$> persisted id s.
Proof.
  intros <-. unfold persisted. rewrite row_updateProgress.
  by destruct (row (agentId w) s).
Qed.

Lemma persisted_log level message metadata id w s :
  persisted id (log level message metadata w s) = persisted id s.
Proof. done. Qed.

Lemma errors_updateStatus st ct w s : errors (updateStatus st ct w s) = errors s.
Proof. unfold errors. by rewrite journal_updateStatus. Qed.

Lemma errors_updateProgress p w s : errors (updateProgress p w s) = errors s.
Proof. unfold errors. by rewrite journal_updateProgress. Qed.

Lemma errors_log_info message metadata w s :
  fresh_ids s → errors (log "info" message metadata w s) = errors s.
Proof.
  intros Hf. unfold errors. rewrite journal_log by done.
  rewrite filter_app, filter_cons, decide_False by done.
  by rewrite filter_nil, app_nil_r.
Qed.

Lemma errors_log_error message metadata w s :
  fresh_ids s →
  errors (log "error" message metadata w s)
  = errors s ++ [("error", message, agentId w, metadata)].
Proof.
  intros Hf. unfold errors. rewrite journal_log by done.
  by rewrite filter_app, filter_cons, decide_True by done.
Qed.

End Effects.

End StorageFacts.

(** ** The order of the queue *)

Module QueueOrder.
Import Worker.

(** Every task has at least the priority of all tasks behind it. *)
Definition descending (l : list AgentTask) : Prop :=
  StronglySorted (λ a b, task_priority b ≤ task_priority a) l.

(** The tasks of one priority, in the order of the list. *)
Definition ofPriority (p : Z) (l : list AgentTask) : list AgentTask :=
  filter (λ t, task_priority t = p) l.

(** [r] is the stable priority sort of [l]: the same tasks, by descending
    priority, those of equal priority in their order in [l]. *)
Definition stablePrioritySort (l r : list AgentTask) : Prop :=
  l ≡ₚ r ∧ descending r ∧ ∀ p, ofPriority p r = ofPriority p l.

Lemma insert_perm x l : insert byPriority x l ≡ₚ x :: l.
Proof.
  induction l as [|y l IH]; simpl; [done|].
  destruct (byPriority x y <=? 0); [done|].
  rewrite IH. apply Permutation_swap.
Qed.

Lemma sort_perm l : sort byPriority l ≡ₚ l.
Proof.
  induction l as [|x l IH]; simpl; [done|].
  by rewrite insert_perm, IH.
Qed.

Lemma insert_descending x l : descending l → descending (insert byPriority x l).
Proof.
  unfold descending. induction 1 as [|y l Hl IH Hy]; simpl.
  - repeat constructor.
  - destruct (byPriority x y <=? 0) eqn:E.
    + apply Z.leb_le in E. unfold byPriority in E.
      constructor; [by constructor|].
      constructor; [lia|].
      eapply Forall_impl; [exact Hy|]. simpl. intros z Hz. lia.
    + apply Z.leb_gt in E. unfold byPriority in E.
      constructor; [exact IH|].
      rewrite insert_perm. constructor; [lia|exact Hy].
Qed.

Lemma sort_descending l : descending (sort byPriority l).
Proof.
  induction l as [|x l IH]; simpl; [constructor|].
  by apply insert_descending.
Qed.

Lemma insert_ofPriority p x l :
  ofPriority p (insert byPriority x l) = ofPriority p (x :: l).
Proof.
  unfold ofPriority. induction l as [|y l IH]; simpl; [done|].
  destruct (byPriority x y <=? 0) eqn:E; [done|].
  apply Z.leb_gt in E. unfold byPriority in E.
  rewrite (filter_cons _ y), IH, !(filter_cons _ x), (filter_cons _ y).
  repeat case_decide; try done; lia.
Qed.

Lemma sort_ofPriority p l : ofPriority p (sort byPriority l) = ofPriority p l.
Proof.
  induction l as [|x l IH]; simpl; [done|].
  rewrite insert_ofPriority. unfold ofPriority in *.
  by rewrite !(filter_cons _ x), IH.
Qed.

Lemma sort_stable l : stablePrioritySort l (sort byPriority l).
Proof.
  split; [by rewrite sort_perm|].
  split; [apply sort_descending|]. intros p. apply sort_ofPriority.
Qed.

(** The stable priority sort of a list is unique: [stablePrioritySort]
    determines the order in which the tasks leave the queue. *)
Lemma descending_unique r1 r2 :
  r1 ≡ₚ r2 → descending r1 → descending r2 →
  (∀ p, ofPriority p r1 = ofPriority p r2) → r1 = r2.
Proof.
  revert r2. induction r1 as [|a r1 IH]; intros r2 Hp H1 H2 Hf.
  - by apply Permutation_nil_l in Hp.
  - destruct r2 as [|b r2]; [by apply Permutation_nil_r in Hp|].
    apply StronglySorted_inv in H1 as [H1 Ha].
    apply StronglySorted_inv in H2 as [H2 Hb].
    assert (task_priority a = task_priority b) as Hab.
    { assert (a ∈ b :: r2) as Hin by (rewrite <- Hp; left).
      assert (b ∈ a :: r1) as Hin' by (rewrite Hp; left).
      apply elem_of_cons in Hin as [->|Hin]; [done|].
      apply elem_of_cons in Hin' as [->|Hin']; [done|].
      rewrite Forall_forall in Ha, Hb.
      apply Hb in Hin. apply Ha in Hin'. lia. }
    assert (a = b) as ->.
    { specialize (Hf (task_priority a)). unfold ofPriority in Hf.
      rewrite !filter_cons in Hf.
      rewrite decide_True in Hf by done.
      rewrite decide_True in Hf by done.
      congruence. }
    f_equal. apply IH; [by apply Permutation_cons_inv in Hp|done|done|].
    intros p. specialize (Hf p). unfold ofPriority in *.
    rewrite !filter_cons in Hf. case_decide; congruence.
Qed.

Lemma stablePrioritySort_unique l r1 r2 :
  stablePrioritySort l r1 → stablePrioritySort l r2 → r1 = r2.
Proof.
  intros (P1 & D1 & F1) (P2 & D2 & F2).
  apply descending_unique; [by rewrite <- P1|done|done|].
  intros p. by rewrite F1, F2.
Qed.

(** The queue after the tasks [ts] were pushed and sorted one by one. *)
Definition enqueued (q : list AgentTask) (ts : list AgentTask) : list AgentTask :=
  foldl (λ q t, sort byPriority (q ++ [t])) q ts.

Lemma enqueued_ofPriority p ts q :
  ofPriority p (enqueued q ts) = ofPriority p (q ++ ts).
Proof.
  revert q. induction ts as [|t ts IH]; intros q; simpl.
  - by rewrite app_nil_r.
  - rewrite IH. unfold ofPriority. rewrite filter_app.
    pose proof (sort_ofPriority p (q ++ [t])) as E. unfold ofPriority in E.
    rewrite E, <- filter_app. by rewrite <- app_assoc.
Qed.

Lemma enqueued_perm ts q : enqueued q ts ≡ₚ q ++ ts.
Proof.
  revert q. induction ts as [|t ts IH]; intros q; simpl.
  - by rewrite app_nil_r.
  - rewrite IH, sort_perm. by rewrite <- app_assoc.
Qed.

Lemma enqueued_descending ts q : descending q → descending (enqueued q ts).
Proof.
  revert q. induction ts as [|t ts IH]; intros q Hq; simpl; [done|].
  apply IH, sort_descending.
Qed.

Lemma enqueued_stable ts : stablePrioritySort ts (enqueued [] ts).
Proof.
  split; [by rewrite enqueued_perm|].
  split; [apply enqueued_descending; constructor|].
  intros p. by rewrite enqueued_ofPriority.
Qed.

Lemma enqueued_sort ts : enqueued [] ts = sort byPriority ts.
Proof.
  apply (stablePrioritySort_unique ts); [apply enqueued_stable|apply sort_stable].
Qed.

End QueueOrder.

(** ** The drain loop *)

Module DrainLoop.
Import Storage Worker StorageFacts QueueOrder.

Create HintDb fresh.

#[export] Hint Resolve fresh_updateStatus fresh_updateProgress fresh_log
  fresh_createActivity fresh_createOther : fresh.

Section Drain.
Variable collaborators : AgentTask → HandlerRun.
Variable codeGeneratorKinds : list string.

Abbreviation executeTask := (executeTask collaborators codeGeneratorKinds).
Abbreviation processQueue := (processQueue collaborators codeGeneratorKinds).
Abbreviation afterTask := (afterTask collaborators codeGeneratorKinds).
Abbreviation resume := (resume collaborators codeGeneratorKinds).
Abbreviation start := (start collaborators codeGeneratorKinds).
Abbreviation addTask := (addTask collaborators codeGeneratorKinds).
Abbreviation step := (step collaborators codeGeneratorKinds).
Abbreviation run := (run collaborators codeGeneratorKinds).
Abbreviation drain := (drain collaborators codeGeneratorKinds).

Implicit Types (w : BaseAgent) (s : MemStorage) (r : HandlerRun)
  (q : list AgentTask).

(** All effects of a handler, in order. *)
Definition handlerOps (ops : list HandlerOp) w s : MemStorage :=
  foldl (λ s op, handlerOp op w s) s ops.

(** The moves a handler run takes: one for each effect, one for its end. *)
Definition cost r : nat := S (length (run_ops r)).

(** The moves the tasks of a queue take on an agent of class [c]. *)
Definition work (c : AgentClass) q : nat :=
  foldr (λ t n, (cost (executeTask c t) + n)%nat) 0%nat q.

(** The error record of the drain loop for a task whose handler ended
    with [e]: none when it returned. *)
Definition failure (id : Z) (t : AgentTask) (e : Completion)
  : list (string * string * Z * option string) :=
  match e with
  | Returns => []
  | Throws message => [("error", "Task failed: " +:+ task_type t, id, Some message)]
  end.

Definition failures (c : AgentClass) (id : Z) q
  : list (string * string * Z * option string) :=
  flat_map (λ t, failure id t (run_end (executeTask c t))) q.

Definition throws (e : Completion) : bool :=
  match e with Returns => false | Throws _ => true end.

Lemma handlerOp_agent op w w' s :
  agentId w' = agentId w → class w' = class w →
  handlerOp op w' s = handlerOp op w s.
Proof.
  intros E1 E2.
  destruct op; unfold handlerOp, log, updateProgress, createActivity;
    by rewrite ?E1, ?E2.
Qed.

Lemma handlerOps_agent ops w w' s :
  agentId w' = agentId w → class w' = class w →
  handlerOps ops w' s = handlerOps ops w s.
Proof.
  intros E1 E2. revert s. induction ops as [|op ops IH]; intros s; simpl; [done|].
  by rewrite IH, (handlerOp_agent op w w').
Qed.

Lemma set_awaiting_id w : set_awaiting (awaiting w) w = w.
Proof. by destruct w. Qed.

Lemma drain_S n ws : drain (S n) ws = drain n (step (Resume 0) ws).
Proof. done. Qed.

Lemma drain_add n m ws : drain (n + m) ws = drain m (drain n ws).
Proof.
  unfold Worker.drain, Worker.run. by rewrite replicate_add, foldl_app.
Qed.

(** The first [k] moves of an activation perform the first [k] effects of
    its handler and nothing else. *)
Lemma drain_ops k : ∀ ops e rest w s,
  awaiting w = {| run_ops := ops; run_end := e |} :: rest →
  (k ≤ length ops)%nat →
  drain k (w, s)
  = (set_awaiting ({| run_ops := drop k ops; run_end := e |} :: rest) w,
     handlerOps (take k ops) w s).
Proof.
  induction k as [|k IH]; intros ops e rest w s Ha Hk.
  - rewrite drop_0, <- Ha, set_awaiting_id. done.
  - destruct ops as [|op ops]; [simpl in Hk; lia|].
    rewrite drain_S. simpl step. unfold Worker.resume. rewrite Ha. simpl.
    erewrite IH; [|reflexivity|simpl in Hk; lia]. simpl.
    by rewrite (handlerOps_agent _ w).
Qed.

(** After all moves of a handler run the activation is past the await. *)
Lemma drain_task r rest w s :
  awaiting w = r :: rest →
  drain (cost r) (w, s)
  = afterTask (run_end r) (set_awaiting rest w) (handlerOps (run_ops r) w s).
Proof.
  intros Ha. destruct r as [ops e]. unfold cost. simpl run_ops.
  replace (S (length ops)) with (length ops + 1)%nat by lia.
  rewrite drain_add, (drain_ops _ ops e rest) by done.
  rewrite drop_all, firstn_all. simpl. unfold Worker.resume. simpl. done.
Qed.

(** The progress a handler leaves behind: the last value it reported. *)
Definition reported (ops : list HandlerOp) (p : Z) : Z :=
  foldl (λ p op, match op with OpProgress p' => p' | _ => p end) p ops.

Lemma fresh_handlerOp op w s : fresh_ids s → fresh_ids (handlerOp op w s).
Proof. destruct op; simpl; auto with fresh. Qed.

Lemma fresh_handlerOps ops w s : fresh_ids s → fresh_ids (handlerOps ops w s).
Proof.
  revert s. induction ops as [|op ops IH]; intros s Hf; simpl; [done|].
  by apply IH, fresh_handlerOp.
Qed.

(** A handler writes no record of level error. *)
Lemma errors_handlerOp op w s :
  fresh_ids s → errors (handlerOp op w s) = errors s.
Proof.
  intros Hf. destruct op; simpl.
  - by apply errors_log_info.
  - apply errors_updateProgress.
  - done.
  - done.
Qed.

Lemma errors_handlerOps ops w s :
  fresh_ids s → errors (handlerOps ops w s) = errors s.
Proof.
  revert s. induction ops as [|op ops IH]; intros s Hf; simpl; [done|].
  rewrite IH by by apply fresh_handlerOp. by apply errors_handlerOp.
Qed.

(** A handler changes nothing of the persisted row but the progress. *)
Lemma persisted_handlerOps ops id w s :
  agentId w = id →
  persisted id (handlerOps ops w s)
  = (λ x, (x.1, reported ops x.2)) <$> persisted id s.
Proof.
  intros E. revert s. induction ops as [|op ops IH]; intros s; simpl.
  - by destruct (persisted id s) as [[??]|].
  - rewrite IH. destruct op; simpl.
    + rewrite persisted_log. done.
    + rewrite persisted_updateProgress by done.
      by destruct (persisted id s) as [[??]|].
    + done.
    + done.
Qed.

(** The loop goes on with the next task of the queue. *)
Lemma afterTask_next e w s cur t q :
  isRunning w = true → currentTask w = Some cur → taskQueue w = t :: q →
  awaiting w = [] →
  ∃ w' s', afterTask e w s = (w', s')
    ∧ isRunning w' = true ∧ currentTask w' = Some t ∧ taskQueue w' = q
    ∧ awaiting w' = [executeTask (class w) t]
    ∧ agentId w' = agentId w ∧ class w' = class w
    ∧ executed w' = executed w ++ [t]
    ∧ persisted (agentId w) s'
      = (λ _, ("working", orNull (Some (task_type t)), 0))
          <$> persisted (agentId w) s.
Proof.
  intros Hr Hc Hq Ha. unfold Worker.afterTask, Worker.restOfBody. rewrite Hc.
  destruct e as [|message]; unfold Worker.processQueue; simpl; rewrite Hr, Hq;
    (eexists _, _; split; [reflexivity|]);
    repeat split; simpl; rewrite ?Ha; try done.
  all: rewrite persisted_log, persisted_updateStatus, persisted_updateProgress,
      persisted_log by done.
  all: by destruct (persisted (agentId w) s) as [[??]|].
Qed.

(** The queue is empty: the loop ends and the agent is running again. *)
Lemma afterTask_last e w s cur :
  isRunning w = true → currentTask w = Some cur → taskQueue w = [] →
  awaiting w = [] →
  ∃ w' s', afterTask e w s = (w', s')
    ∧ isRunning w' = true ∧ currentTask w' = None ∧ taskQueue w' = []
    ∧ awaiting w' = []
    ∧ agentId w' = agentId w ∧ class w' = class w
    ∧ executed w' = executed w
    ∧ persisted (agentId w) s'
      = (λ _, ("running", None, 0)) <$> persisted (agentId w) s.
Proof.
  intros Hr Hc Hq Ha. unfold Worker.afterTask, Worker.restOfBody. rewrite Hc.
  destruct e as [|message]; unfold Worker.processQueue; simpl; rewrite Hr, Hq;
    (eexists _, _; split; [reflexivity|]);
    repeat split; simpl; try done.
  all: rewrite persisted_updateStatus, persisted_updateProgress,
      persisted_log by done.
  all: by destruct (persisted (agentId w) s) as [[??]|].
Qed.

(** The agent was stopped meanwhile: the loop ends, the queue and the
    status stay as they are. *)
Lemma afterTask_stopped e w s cur :
  isRunning w = false → currentTask w = Some cur →
  ∃ w' s', afterTask e w s = (w', s')
    ∧ isRunning w' = false ∧ currentTask w' = None
    ∧ taskQueue w' = taskQueue w ∧ awaiting w' = awaiting w
    ∧ agentId w' = agentId w ∧ class w' = class w
    ∧ executed w' = executed w
    ∧ s' = updateProgress 0 w
             (log (if throws e then "error" else "info")
                  ((if throws e then "Task failed: " else "Completed task: ")
                   +:+ task_type cur)
                  (match e with Returns => None | Throws m => Some m end) w s)
    ∧ persisted (agentId w) s'
      = (λ x, (x.1, 0)) <$> persisted (agentId w) s.
Proof.
  intros Hr Hc. unfold Worker.afterTask, Worker.restOfBody. rewrite Hc.
  destruct e as [|message]; unfold Worker.processQueue; simpl; rewrite Hr;
    (eexists _, _; split; [reflexivity|]);
    repeat split; simpl; try done.
  all: by rewrite persisted_updateProgress, persisted_log by done.
Qed.

(** What the end of a task adds to the error records: one record when
    the handler threw, none when it returned. *)
Lemma afterTask_errors e w s cur :
  currentTask w = Some cur → fresh_ids s →
  errors (afterTask e w s).2 = errors s ++ failure (agentId w) cur e
  ∧ fresh_ids (afterTask e w s).2.
Proof.
  intros Hc Hf. unfold Worker.afterTask, Worker.restOfBody. rewrite Hc.
  destruct e as [|message]; unfold Worker.processQueue; simpl;
    destruct (isRunning w); simpl; try destruct (taskQueue w); simpl;
    (split; [|auto 7 with fresh]);
    rewrite ?errors_log_info, ?errors_updateStatus, ?errors_updateProgress,
      ?errors_log_error, ?errors_log_info, ?app_nil_r; auto 7 with fresh.
Qed.

(** Nothing moves on a worker without suspended activation. *)
Lemma drain_idle k w s : awaiting w = [] → drain k (w, s) = (w, s).
Proof.
  intros Ha. induction k as [|k IH]; [done|].
  rewrite drain_S. simpl. unfold Worker.resume. by rewrite Ha.
Qed.

Lemma drain_settled n m ws w' s' :
  drain n ws = (w', s') → awaiting w' = [] → (n ≤ m)%nat →
  drain m ws = (w', s').
Proof.
  intros E Ha Hnm. replace m with (n + (m - n))%nat by lia.
  rewrite drain_add, E. by apply drain_idle.
Qed.

(** A running agent that executes [cur], the rest of whose handler is
    [r], with [q] in its queue, left to itself: after the moves of all
    handlers the queue is empty, every task of [q] was passed to
    [executeTask] once, in the order of the queue, and the row says
    running, no task, progress 0. *)
Lemma drain_all q : ∀ w s cur r,
  isRunning w = true → currentTask w = Some cur → taskQueue w = q →
  awaiting w = [r] →
  ∃ w' s', drain (cost r + work (class w) q) (w, s) = (w', s')
    ∧ isRunning w' = true ∧ currentTask w' = None ∧ taskQueue w' = []
    ∧ awaiting w' = []
    ∧ agentId w' = agentId w ∧ class w' = class w
    ∧ executed w' = executed w ++ q
    ∧ persisted (agentId w) s'
      = (λ _, ("running", None, 0)) <$> persisted (agentId w) s.
Proof.
  induction q as [|t q IH]; intros w s cur r Hr Hc Hq Ha.
  - simpl work. rewrite Nat.add_0_r, (drain_task _ []) by done.
    destruct (afterTask_last (run_end r) (set_awaiting [] w)
                (handlerOps (run_ops r) w s) cur)
      as (w' & s' & -> & ? & ? & ? & ? & ? & ? & He & Hp); try done.
    exists w', s'. simpl in *. repeat split; try done.
    + by rewrite app_nil_r.
    + rewrite Hp, persisted_handlerOps by done.
      by destruct (persisted (agentId w) s) as [[??]|].
  - simpl work. rewrite drain_add, (drain_task _ []) by done.
    destruct (afterTask_next (run_end r) (set_awaiting [] w)
                (handlerOps (run_ops r) w s) cur t q)
      as (w1 & s1 & -> & Hr1 & Hc1 & Hq1 & Ha1 & Hi1 & Hk1 & He1 & Hp1);
      try done.
    simpl in Ha1, Hi1, Hk1, He1, Hp1.
    destruct (IH w1 s1 t _ Hr1 Hc1 Hq1 Ha1)
      as (w' & s' & E & ? & ? & ? & ? & Hi & Hk & He & Hp).
    rewrite Hk1 in E. exists w', s'. repeat split; try done; try congruence.
    + rewrite He, He1. by rewrite <- app_assoc.
    + rewrite <- Hi1, Hp, Hi1, Hp1, persisted_handlerOps by done.
      by destruct (persisted (agentId w) s) as [[??]|].
Qed.

(** In the same run every handler that threw left exactly one error
    record, in the order of execution, and nothing else is an error. *)
Lemma drain_all_errors q : ∀ w s cur r,
  isRunning w = true → currentTask w = Some cur → taskQueue w = q →
  awaiting w = [r] → fresh_ids s →
  errors (drain (cost r + work (class w) q) (w, s)).2
  = errors s ++ failure (agentId w) cur (run_end r)
             ++ failures (class w) (agentId w) q.
Proof.
  induction q as [|t q IH]; intros w s cur r Hr Hc Hq Ha Hf.
  - simpl work. rewrite Nat.add_0_r, (drain_task _ []) by done.
    destruct (afterTask_errors (run_end r) (set_awaiting [] w)
                (handlerOps (run_ops r) w s) cur) as [-> _];
      [done|by apply fresh_handlerOps|].
    rewrite errors_handlerOps by done. simpl. by rewrite app_nil_r.
  - simpl work. rewrite drain_add, (drain_task _ []) by done.
    destruct (afterTask_errors (run_end r) (set_awaiting [] w)
                (handlerOps (run_ops r) w s) cur) as [Herr1 Hf1];
      [done|by apply fresh_handlerOps|].
    destruct (afterTask_next (run_end r) (set_awaiting [] w)
                (handlerOps (run_ops r) w s) cur t q)
      as (w1 & s1 & E1 & Hr1 & Hc1 & Hq1 & Ha1 & Hi1 & Hk1 & _); try done.
    rewrite E1 in Herr1, Hf1 |- *. simpl in Herr1, Hf1, Ha1, Hi1, Hk1.
    pose proof (IH w1 s1 t _ Hr1 Hc1 Hq1 Ha1 Hf1) as E.
    rewrite Hk1, Hi1 in E. etrans; [exact E|].
    rewrite Herr1, errors_handlerOps by done.
    simpl. by rewrite <- !app_assoc.
Qed.

Lemma drain_all_ge q w s cur r m :
  isRunning w = true → currentTask w = Some cur → taskQueue w = q →
  awaiting w = [r] → (cost r + work (class w) q ≤ m)%nat →
  ∃ w' s', drain m (w, s) = (w', s')
    ∧ isRunning w' = true ∧ currentTask w' = None ∧ taskQueue w' = []
    ∧ awaiting w' = []
    ∧ agentId w' = agentId w ∧ class w' = class w
    ∧ executed w' = executed w ++ q
    ∧ persisted (agentId w) s'
      = (λ _, ("running", None, 0)) <$> persisted (agentId w) s.
Proof.
  intros Hr Hc Hq Ha Hm.
  destruct (drain_all q w s cur r Hr Hc Hq Ha) as (w' & s' & E & H).
  exists w', s'. split; [|exact H].
  eapply drain_settled; [exact E| |exact Hm]. tauto.
Qed.

(** [addTask] on an agent that is not running, or that has a task in
    hand, only puts the task into the queue. *)
Lemma addTask_buffers t w s :
  isRunning w = false ∨ is_Some (currentTask w) →
  addTask t w s = (set_taskQueue (sort byPriority (taskQueue w ++ [t])) w, s).
Proof.
  intros H. unfold Worker.addTask. simpl.
  destruct H as [->|[cur ->]]; [done|].
  rewrite bool_decide_eq_true_2 by eauto. by rewrite andb_false_r.
Qed.

Lemma addTasks_buffer ts : ∀ w s,
  isRunning w = false ∨ is_Some (currentTask w) →
  run (map AddTask ts) (w, s)
  = (set_taskQueue (enqueued (taskQueue w) ts) w, s).
Proof.
  induction ts as [|t ts IH]; intros w s H; simpl.
  - by destruct w.
  - unfold Worker.run in *. simpl. rewrite addTask_buffers by done.
    by rewrite IH.
Qed.

(** [processQueue] on a running agent with a task in the queue: the task
    leaves the queue, the row says working, the handler is called. *)
Lemma processQueue_begin w s t q :
  isRunning w = true → taskQueue w = t :: q →
  ∃ w' s', processQueue w s = (w', s')
    ∧ isRunning w' = true ∧ currentTask w' = Some t ∧ taskQueue w' = q
    ∧ awaiting w' = awaiting w ++ [executeTask (class w) t]
    ∧ agentId w' = agentId w ∧ class w' = class w
    ∧ executed w' = executed w ++ [t]
    ∧ persisted (agentId w) s'
      = (λ x, ("working", orNull (Some (task_type t)), x.2))
          <$> persisted (agentId w) s
    ∧ (fresh_ids s → fresh_ids s' ∧ errors s' = errors s).
Proof.
  intros Hr Hq. unfold Worker.processQueue. rewrite Hr, Hq.
  eexists _, _; split; [reflexivity|]. repeat split; simpl; try done.
  - by rewrite persisted_log, persisted_updateStatus by done.
  - auto with fresh.
  - rewrite errors_log_info, errors_updateStatus; auto with fresh.
Qed.

(** The identifiers of the log table stay below the counter, whatever
    happens to the worker. *)
Lemma processQueue_fresh w s : fresh_ids s → fresh_ids (processQueue w s).2.
Proof.
  intros H. unfold Worker.processQueue.
  destruct (isRunning w); [|done].
  destruct (taskQueue w); simpl; auto with fresh.
Qed.

Lemma step_fresh e w s : fresh_ids s → fresh_ids (step e (w, s)).2.
Proof.
  intros H. destruct e as [| |t|i]; simpl.
  - unfold Worker.start. destruct (isRunning w); [done|].
    apply processQueue_fresh. auto with fresh.
  - unfold stop. simpl. auto with fresh.
  - unfold Worker.addTask. simpl. destruct (_ && _); [|done].
    by apply processQueue_fresh.
  - unfold Worker.resume. destruct (awaiting w !! i) as [r|]; [|done].
    destruct (run_ops r); [|by apply fresh_handlerOp].
    unfold Worker.afterTask, Worker.restOfBody. simpl.
    destruct (currentTask w); [|simpl; auto with fresh].
    destruct (run_end r); apply processQueue_fresh; auto with fresh.
Qed.

Lemma run_fresh es : ∀ ws, fresh_ids ws.2 → fresh_ids (run es ws).2.
Proof.
  induction es as [|e es IH]; intros [w s] H; [done|].
  apply IH. by apply step_fresh.
Qed.

(** Whatever happens to a worker, its queue stays in descending order of
    priority: [addTask] sorts it, the loop takes its head. *)
Lemma processQueue_descending w s :
  descending (taskQueue w) → descending (taskQueue (processQueue w s).1).
Proof.
  intros H. unfold Worker.processQueue.
  destruct (isRunning w); [|done].
  destruct (taskQueue w) as [|t q] eqn:Hq; simpl; [by rewrite Hq|].
  by apply StronglySorted_inv in H as [H _].
Qed.

Lemma step_descending e w s :
  descending (taskQueue w) → descending (taskQueue (step e (w, s)).1).
Proof.
  intros H. destruct e as [| |t|i]; simpl.
  - unfold Worker.start. destruct (isRunning w); [done|].
    by apply processQueue_descending.
  - done.
  - unfold Worker.addTask. simpl.
    destruct (_ && _); [|apply sort_descending].
    apply processQueue_descending, sort_descending.
  - unfold Worker.resume. destruct (awaiting w !! i) as [r|]; [|done].
    destruct (run_ops r); [|done].
    unfold Worker.afterTask, Worker.restOfBody. simpl.
    destruct (currentTask w); [|done].
    destruct (run_end r); by apply processQueue_descending.
Qed.

Lemma run_descending es : ∀ ws,
  descending (taskQueue ws.1) → descending (taskQueue (run es ws).1).
Proof.
  induction es as [|e es IH]; intros [w s] H; [done|].
  apply IH. by apply step_descending.
Qed.

End Drain.

End DrainLoop.

(** ** The registry *)

Module Registry.
Import Storage Worker Manager StorageFacts DrainLoop.

(** No row of the agent table is ever removed. *)
Definition keeps (s s' : MemStorage) : Prop :=
  ∀ id, is_Some (getAgent id s) → is_Some (getAgent id s').

Lemma keeps_refl s : keeps s s.
Proof. by intros id. Qed.

Lemma keeps_updateAgent id u s s' :
  keeps s s' → keeps s (updateAgent id u s').2.
Proof.
  intros H id' Hs. rewrite getAgent_updateAgent.
  case_bool_decide; [apply fmap_is_Some|]; by apply H.
Qed.

Lemma keeps_updateStatus st ct w s s' :
  keeps s s' → keeps s (updateStatus st ct w s').
Proof. apply keeps_updateAgent. Qed.

Lemma keeps_updateProgress p w s s' :
  keeps s s' → keeps s (updateProgress p w s').
Proof. apply keeps_updateAgent. Qed.

Lemma keeps_log level message metadata w s s' :
  keeps s s' → keeps s (log level message metadata w s').
Proof. done. Qed.

Lemma keeps_handlerOp op w s s' : keeps s s' → keeps s (handlerOp op w s').
Proof.
  destruct op; simpl; [done|apply keeps_updateProgress|done|done].
Qed.

Create HintDb rows.

#[export] Hint Resolve keeps_refl keeps_updateStatus keeps_updateProgress
  keeps_log keeps_handlerOp : rows.

Section Registry.
Variable collaborators : AgentTask → HandlerRun.
Variable codeGeneratorKinds : list string.

Abbreviation processQueue := (Worker.processQueue collaborators codeGeneratorKinds).
Abbreviation afterTask := (Worker.afterTask collaborators codeGeneratorKinds).
Abbreviation resume := (Worker.resume collaborators codeGeneratorKinds).
Abbreviation start := (Worker.start collaborators codeGeneratorKinds).
Abbreviation addTask := (Worker.addTask collaborators codeGeneratorKinds).
Abbreviation startAgent := (Manager.startAgent collaborators codeGeneratorKinds).
Abbreviation assignTask := (Manager.assignTask collaborators codeGeneratorKinds).
Abbreviation resumeAt := (Manager.resumeAt collaborators codeGeneratorKinds).
Abbreviation perform := (Manager.perform collaborators codeGeneratorKinds).
Abbreviation performAll := (Manager.performAll collaborators codeGeneratorKinds).

(** What no method of the worker changes but [start] and [stop]: whose
    worker it is and whether it runs; and no method removes a row. *)
Definition same_worker (w : BaseAgent) (s : MemStorage)
    (ws : BaseAgent * MemStorage) : Prop :=
  agentId ws.1 = agentId w ∧ isRunning ws.1 = isRunning w ∧ keeps s ws.2.

Lemma processQueue_same w s0 s :
  keeps s0 s → same_worker w s0 (processQueue w s).
Proof.
  intros H. unfold Worker.processQueue, same_worker.
  destruct (isRunning w) eqn:Hr; [|simpl; auto].
  destruct (taskQueue w); simpl; auto with rows.
Qed.

Lemma afterTask_same e w s0 s :
  keeps s0 s → same_worker w s0 (afterTask e w s).
Proof.
  intros H. unfold Worker.afterTask, Worker.restOfBody.
  destruct (currentTask w); [|unfold same_worker; simpl; auto with rows].
  destruct e.
  - apply (processQueue_same (set_currentTask None w)). auto with rows.
  - apply (processQueue_same (set_currentTask None (emit_taskError _ _ w))).
    auto with rows.
Qed.

Lemma resume_same i w s : same_worker w s (resume i w s).
Proof.
  unfold Worker.resume. destruct (awaiting w !! i) as [r|];
    [|unfold same_worker; auto with rows].
  destruct (run_ops r).
  - apply (afterTask_same _ (set_awaiting _ w)). auto with rows.
  - unfold same_worker; simpl; auto with rows.
Qed.

Lemma addTask_same t w s : same_worker w s (addTask t w s).
Proof.
  unfold Worker.addTask. simpl.
  destruct (_ && _); [|unfold same_worker; auto with rows].
  apply (processQueue_same (set_taskQueue _ w)). auto with rows.
Qed.

Lemma start_new c id s :
  agentId (start (new c id) s).1 = id
  ∧ isRunning (start (new c id) s).1 = true
  ∧ keeps s (start (new c id) s).2.
Proof.
  unfold Worker.start. simpl.
  apply (processQueue_same (set_isRunning true (new c id))). auto with rows.
Qed.

Lemma stop_spec w s :
  agentId (stop w s).1 = agentId w ∧ isRunning (stop w s).1 = false
  ∧ keeps s (stop w s).2.
Proof. unfold stop. simpl. auto with rows. Qed.

(** The registry and the worker objects agree: the object registered for
    an agent is a running worker of that agent, every running worker is
    the one registered for its agent, and registered agents have a row. *)
Record consistent (m : AgentManager) : Prop := {
  registered_running : ∀ id ref,
    agents m !! id = Some ref →
    ∃ w, objects m !! ref = Some w ∧ agentId w = id ∧ isRunning w = true;
  running_registered : ∀ ref w,
    objects m !! ref = Some w → isRunning w = true →
    agents m !! agentId w = Some ref;
  registered_persisted : ∀ id,
    is_Some (agents m !! id) → is_Some (getAgent id (storage m))
}.

Lemma consistent_fresh s : consistent (fresh s).
Proof.
  split; simpl.
  - intros id ref H. by rewrite lookup_empty in H.
  - intros ref w H. by rewrite lookup_nil in H.
  - intros id [? H]. by rewrite lookup_empty in H.
Qed.

(** A method that is neither [start] nor [stop] ran on one object. *)
Lemma consistent_update m ref w0 ws :
  objects m !! ref = Some w0 → same_worker w0 (storage m) ws →
  consistent m →
  consistent {| storage := ws.2; objects := <[ref := ws.1]> (objects m);
                agents := agents m |}.
Proof.
  intros Ho (Hi & Hr & Hk) [Ha Hb Hc]. split; simpl.
  - intros id ref' H. destruct (Ha id ref' H) as (w & Hw & ? & ?).
    destruct (decide (ref = ref')) as [->|Hne].
    + exists ws.1. rewrite list_lookup_insert_eq by by eapply lookup_lt_Some.
      simplify_eq. by rewrite Hi, Hr.
    + exists w. by rewrite list_lookup_insert_ne.
  - intros ref' w H Hw. apply list_lookup_insert_Some in H as [(-> & <- & _)|[? H]].
    + rewrite Hi. apply Hb; [done|]. by rewrite <- Hr.
    + by apply Hb.
  - intros id H. by apply Hk, Hc.
Qed.

Lemma consistent_startAgent id m :
  consistent m → consistent (startAgent id m).2.
Proof.
  intros Hm. unfold Manager.startAgent.
  destruct (getAgent id (storage m)) as [agentData|] eqn:Hg; [|done].
  case_bool_decide as Hreg; [done|].
  destruct (classOf (agent_type agentData)) as [c|]; [|done].
  destruct (start_new c id (storage m)) as (Hi & Hr & Hk).
  destruct (start (new c id) (storage m)) as [w s]. simpl in *.
  destruct Hm as [Ha Hb Hc]. split; simpl.
  - intros id' ref H. apply lookup_insert_Some in H as [[<- <-]|[? H]].
    + exists w. by rewrite list_lookup_middle.
    + destruct (Ha id' ref H) as (w' & Hw & ? & ?). exists w'.
      by rewrite lookup_app_l by by eapply lookup_lt_Some.
  - intros ref w' H Hw. apply lookup_app_Some in H as [H|[? H]].
    + pose proof (Hb ref w' H Hw) as Hreg'.
      rewrite lookup_insert_ne; [done|]. intros E. apply Hreg. rewrite E. eauto.
    + apply list_lookup_singleton_Some in H as [H ->].
      rewrite Hi, lookup_insert_eq. f_equal. lia.
  - intros id' H. apply lookup_insert_is_Some in H as [<-|[? H]].
    + apply Hk. rewrite Hg. eauto.
    + by apply Hk, Hc.
Qed.

Lemma consistent_stopAgent id m :
  consistent m → consistent (stopAgent id m).2.
Proof.
  intros Hm. unfold stopAgent, instance.
  destruct (agents m !! id) as [ref|] eqn:Hreg; [|done].
  destruct (objects m !! ref) as [agent|] eqn:Ho; [|done].
  destruct (stop_spec agent (storage m)) as (Hi & Hr & Hk).
  destruct (stop agent (storage m)) as [w s]. simpl in *.
  destruct Hm as [Ha Hb Hc]. split; simpl.
  - intros id' ref' H. apply lookup_delete_Some in H as [Hne H].
    destruct (Ha id' ref' H) as (w' & Hw & Hid & ?). exists w'.
    rewrite list_lookup_insert_ne; [done|]. intros <-.
    destruct (Ha id ref Hreg) as (w'' & Hw'' & ? & _). congruence.
  - intros ref' w' H Hw.
    apply list_lookup_insert_Some in H as [(-> & <- & _)|[Hne H]];
      [congruence|].
    pose proof (Hb ref' w' H Hw) as Hreg'.
    rewrite lookup_delete_ne; [done|]. intros E. congruence.
  - intros id' H. apply lookup_delete_is_Some in H as [? H].
    by apply Hk, Hc.
Qed.

Lemma consistent_assignTask agentType task m :
  consistent m → consistent (assignTask agentType task m).2.
Proof.
  intros Hm. unfold Manager.assignTask.
  destruct (List.find _ _) as [targetAgent|]; [|done].
  destruct (instance _ _) as [[ref agentInstance]|] eqn:Hin; [|done].
  unfold instance in Hin.
  destruct (agents m !! _); [|done].
  destruct (objects m !! _) eqn:Ho; [|done]. simplify_eq.
  pose proof (consistent_update m ref agentInstance
                (addTask task agentInstance (storage m)) Ho
                (addTask_same _ _ _) Hm) as H.
  by destruct (addTask task agentInstance (storage m)).
Qed.

Lemma consistent_resumeAt ref i m :
  consistent m → consistent (resumeAt ref i m).
Proof.
  intros Hm. unfold Manager.resumeAt.
  destruct (objects m !! ref) as [agent|] eqn:Ho; [|done].
  pose proof (consistent_update m ref agent (resume i agent (storage m)) Ho
                (resume_same _ _ _) Hm) as H.
  by destruct (resume i agent (storage m)).
Qed.

(** The calls that start and stop agents. *)
Definition lifecycle (c : Call) : Prop :=
  match c with
  | StartAgent _ | StopAgent _ => True
  | AssignTask _ _ | ResumeAt _ _ => False
  end.

(** A worker with nothing in its queue, in hand or in flight. *)
Definition inert (w : BaseAgent) : Prop :=
  awaiting w = [] ∧ taskQueue w = [] ∧ currentTask w = None.

Lemma inert_startAgent id m :
  Forall inert (objects m) → Forall inert (objects (startAgent id m).2).
Proof.
  intros Hm. unfold Manager.startAgent.
  destruct (getAgent id (storage m)); [|done].
  case_bool_decide; [done|].
  destruct (classOf _) as [c|]; [|done].
  unfold Worker.start, Worker.processQueue. simpl.
  apply Forall_app. split; [done|]. by repeat constructor.
Qed.

Lemma inert_stopAgent id m :
  Forall inert (objects m) → Forall inert (objects (stopAgent id m).2).
Proof.
  intros Hm. unfold stopAgent, instance.
  destruct (agents m !! id) as [ref|]; [|done].
  destruct (objects m !! ref) as [agent|] eqn:Ho; [|done]. simpl.
  apply Forall_insert; [done|].
  by apply (Forall_lookup_1 _ _ _ _ Hm) in Ho.
Qed.

Lemma inert_performAll cs : ∀ m,
  Forall lifecycle cs → Forall inert (objects m) →
  Forall inert (objects (performAll cs m)).
Proof.
  induction cs as [|c cs IH]; intros m Hcs Hm; [done|].
  apply Forall_cons in Hcs as [Hc Hcs]. apply IH; [done|].
  destruct c; simpl in *; try done.
  - by apply inert_startAgent.
  - by apply inert_stopAgent.
Qed.

Lemma consistent_performAll cs : ∀ m,
  consistent m → consistent (performAll cs m).
Proof.
  induction cs as [|c cs IH]; intros m Hm; [done|].
  apply IH. destruct c; simpl.
  - by apply consistent_startAgent.
  - by apply consistent_stopAgent.
  - by apply consistent_assignTask.
  - by apply consistent_resumeAt.
Qed.

End Registry.

End Registry.

(** * The properties of the specification *)

Import Storage Worker Manager StorageFacts QueueOrder DrainLoop.

Section WorkerProperties.
Variable collaborators : AgentTask → HandlerRun.
Variable codeGeneratorKinds : list string.

Abbreviation executeTask := (Worker.executeTask collaborators codeGeneratorKinds).
Abbreviation start := (Worker.start collaborators codeGeneratorKinds).
Abbreviation addTask := (Worker.addTask collaborators codeGeneratorKinds).
Abbreviation resume := (Worker.resume collaborators codeGeneratorKinds).
Abbreviation step := (Worker.step collaborators codeGeneratorKinds).
Abbreviation run := (Worker.run collaborators codeGeneratorKinds).
Abbreviation drain := (Worker.drain collaborators codeGeneratorKinds).
Abbreviation work := (DrainLoop.work collaborators codeGeneratorKinds).

(** C1 (amended).  Tasks enqueued on a worker that was not started yet
    wait in the stable priority sort of their arrival order, and the drain
    begun by [start()] takes them in that order: by descending priority
    and, at equal priority, in the order of their arrival; four tasks of
    priorities 5, 10, 1, 10 leave in the order 1, 3, 0, 2 of their
    positions.  On a started worker that has nothing to do the first task
    enqueued is taken at once, whatever its priority, and the tasks
    enqueued while it executes follow it in stable priority order.
    Whatever is called on a worker, and in whatever order, its queue is
    always in descending order of priority. *)
Theorem C1_drain_order (c : AgentClass) (id : Z) (s : MemStorage)
    (ts : list AgentTask) (t : AgentTask) (m : nat) :
  (work c (sort byPriority ts) ≤ m)%nat →
  let order := sort byPriority ts in
  stablePrioritySort ts order
  ∧ (let idle := run (map AddTask ts) (new c id, s) in
     let fin := drain m (step Start idle) in
     taskQueue idle.1 = order ∧ executed idle.1 = [] ∧ awaiting idle.1 = []
     ∧ executed fin.1 = order ∧ taskQueue fin.1 = [] ∧ awaiting fin.1 = [])
  ∧ (let busy := run (Start :: AddTask t :: map AddTask ts) (new c id, s) in
     let fin := drain (cost (executeTask c t) + m) busy in
     executed busy.1 = [t] ∧ taskQueue busy.1 = order
     ∧ executed fin.1 = t :: order ∧ taskQueue fin.1 = [] ∧ awaiting fin.1 = [])
  ∧ (∀ t0 t1 t2 t3,
       task_priority t0 = 5 → task_priority t1 = 10 →
       task_priority t2 = 1 → task_priority t3 = 10 →
       sort byPriority [t0; t1; t2; t3] = [t1; t3; t0; t2])
  ∧ (∀ es, descending (taskQueue (run es (new c id, s)).1)).
Proof.
  intros Hm order. subst order. split; [apply sort_stable|].
  split; [|split; [|split]];
    [| | |intros es; apply run_descending; constructor].
  - rewrite addTasks_buffer by (by left). simpl.
    rewrite enqueued_sort. unfold Worker.start. simpl.
    destruct (sort byPriority ts) as [|t0 q] eqn:Eo.
    + unfold Worker.processQueue. simpl. by rewrite drain_idle.
    + match goal with |- context [Worker.processQueue _ _ ?w ?s] =>
        destruct (processQueue_begin collaborators codeGeneratorKinds w s t0 q)
          as (w1 & s1 & -> & Hr1 & Hc1 & Hq1 & Ha1 & Hi1 & Hk1 & He1 & _);
          [done|done|]
      end.
      simpl in Ha1, Hk1, He1.
      destruct (drain_all_ge collaborators codeGeneratorKinds q w1 s1 t0 _ m
                  Hr1 Hc1 Hq1 Ha1)
        as (w' & s' & -> & _ & _ & Hq' & Ha' & _ & _ & He' & _);
        [by rewrite Hk1|].
      simpl. by rewrite He', He1.
  - unfold Worker.run. simpl foldl.
    unfold Worker.addTask. simpl.
    match goal with |- context [Worker.processQueue _ _ ?w ?s] =>
      destruct (processQueue_begin collaborators codeGeneratorKinds w s t [])
        as (w1 & s1 & -> & Hr1 & Hc1 & Hq1 & Ha1 & Hi1 & Hk1 & He1 & _);
        [done|done|]
    end.
    simpl in Ha1, Hk1, He1.
    change (foldl _ (w1, s1) (map AddTask ts))
      with (run (map AddTask ts) (w1, s1)).
    rewrite addTasks_buffer by (right; rewrite Hc1; eauto).
    rewrite Hq1, enqueued_sort. cbn [fst snd].
    destruct (drain_all_ge collaborators codeGeneratorKinds
                (sort byPriority ts)
                (set_taskQueue (sort byPriority ts) w1) s1 t _
                (S (length (run_ops (executeTask c t)) + m))
                Hr1 Hc1 eq_refl Ha1)
      as (w' & s' & -> & _ & _ & Hq' & Ha' & _ & _ & He' & _).
    { simpl. rewrite Hk1. unfold cost. lia. }
    simpl in He'. simpl. by rewrite He', He1.
  - intros [] [] [] [] H0 H1 H2 H3. simpl in H0, H1, H2, H3. by subst.
Qed.

(** C2 (amended).  A worker just constructed for a newly created agent is
    idle: not running, nothing in hand, the row says idle.  [start()] makes
    it running and persists that status.  A task enqueued then, the queue
    being empty, is taken at once: all the time its handler runs the row
    says working with current task the kind of the task (null when the
    kind is the empty string), and when the handler has ended, the queue
    being empty, the row says running again, with no current task. *)
Theorem C2_lifecycle (c : AgentClass) (ins : InsertAgent) (s0 : MemStorage)
    (t : AgentTask) (k : nat) :
  (k ≤ length (run_ops (executeTask c t)))%nat →
  let s := (createAgent ins s0).2 in
  let id := agent_id (createAgent ins s0).1 in
  let w := new c id in
  let started := start w s in
  let enq := addTask t started.1 started.2 in
  let mid := drain k enq in
  let fin := drain (cost (executeTask c t)) enq in
  (isRunning w = false ∧ currentTask w = None ∧ awaiting w = []
   ∧ persisted id s = Some ("idle", None, 0))
  ∧ (isRunning started.1 = true ∧ awaiting started.1 = []
     ∧ persisted id started.2 = Some ("running", None, 0))
  ∧ (currentTask mid.1 = Some t ∧ awaiting mid.1 ≠ []
     ∧ persisted id mid.2
       = Some ("working",
               if bool_decide (task_type t = "") then None
               else Some (task_type t),
               reported (take k (run_ops (executeTask c t))) 0))
  ∧ (isRunning fin.1 = true ∧ currentTask fin.1 = None ∧ awaiting fin.1 = []
     ∧ taskQueue fin.1 = []
     ∧ persisted id fin.2 = Some ("running", None, 0)).
Proof.
  intros Hk s id w started enq mid fin.
  assert (persisted id s = Some ("idle", None, 0)) as Hs.
  { unfold persisted, row, getAgent, s, id. simpl.
    by rewrite JsMapFacts.get_set_eq. }
  assert (persisted id started.2 = Some ("running", None, 0)) as Hst.
  { unfold started, Worker.start, Worker.processQueue. simpl.
    rewrite persisted_updateStatus, persisted_log, persisted_updateStatus, Hs
      by done. done. }
  split; [done|]. split; [done|].
  assert (∃ w1 s1, enq = (w1, s1)
            ∧ isRunning w1 = true ∧ currentTask w1 = Some t
            ∧ taskQueue w1 = [] ∧ awaiting w1 = [executeTask c t]
            ∧ agentId w1 = id ∧ class w1 = c
            ∧ persisted id s1
              = Some ("working", orNull (Some (task_type t)), 0))
    as (w1 & s1 & E & Hr1 & Hc1 & Hq1 & Ha1 & Hi1 & Hk1 & Hp1).
  { unfold enq, Worker.addTask.
    replace started with
      (set_isRunning true w,
       updateStatus "running" None (set_isRunning true w)
         (log "info" "Agent started" None (set_isRunning true w)
            (updateStatus "running" None (set_isRunning true w) s)))
      in * by done.
    cbn [fst snd] in *. simpl.
    match goal with |- context [Worker.processQueue _ _ ?w ?s] =>
      destruct (processQueue_begin collaborators codeGeneratorKinds w s t [])
        as (w1 & s1 & -> & Hr1 & Hc1 & Hq1 & Ha1 & Hi1 & Hk1 & He1 & Hp1 & _);
        [done|done|]
    end.
    exists w1, s1. simpl in *. repeat split; try done.
    by rewrite Hp1, Hst. }
  split.
  - unfold mid. rewrite E.
    destruct (executeTask c t) as [ops e] eqn:Er. simpl in Hk.
    rewrite (drain_ops _ _ k ops e []) by done. simpl.
    repeat split; [done|done|].
    rewrite persisted_handlerOps, Hp1 by done. simpl.
    unfold orNull. destruct (task_type t) eqn:Et; [done|].
    by rewrite bool_decide_eq_false_2.
  - unfold fin. rewrite E.
    destruct (drain_all_ge collaborators codeGeneratorKinds [] w1 s1 t
                (executeTask c t) (cost (executeTask c t)) Hr1 Hc1 Hq1 Ha1)
      as (w' & s' & -> & ? & ? & ? & ? & ? & ? & ? & Hp');
      [unfold cost; simpl; lia|].
    simpl. repeat split; try done.
    rewrite Hi1 in Hp'. by rewrite Hp', Hp1.
Qed.

(** X20.  A running worker executes [cur], whose handler is going to
    throw, with any tasks [q] in its queue, and no other activation of the
    loop is in flight.  The loop is not stopped: every
    task of [q] is passed to [executeTask], once and in the order of the
    queue, the failed task is not passed to it again and is not put back
    (the queue is empty at the end), and the failure leaves exactly one
    record of level error, followed by one for each task of [q] whose
    handler throws and by nothing else. *)
Theorem failure_isolation (w : BaseAgent) (s : MemStorage)
    (cur : AgentTask) (r : HandlerRun) (q : list AgentTask)
    (message : string) (m : nat) :
  isRunning w = true → currentTask w = Some cur → taskQueue w = q →
  awaiting w = [r] → run_end r = Throws message → fresh_ids s →
  (cost r + work (class w) q ≤ m)%nat →
  let fin := drain m (w, s) in
  isRunning fin.1 = true
  ∧ executed fin.1 = executed w ++ q
  ∧ taskQueue fin.1 = [] ∧ awaiting fin.1 = [] ∧ currentTask fin.1 = None
  ∧ errors fin.2
    = errors s
      ++ [("error", "Task failed: " +:+ task_type cur, agentId w, Some message)]
      ++ failures collaborators codeGeneratorKinds (class w) (agentId w) q
  ∧ length (failures collaborators codeGeneratorKinds (class w) (agentId w) q)
    = length (filter (λ t, throws (run_end (executeTask (class w) t)) = true) q).
Proof.
  intros Hr Hc Hq Ha He Hf Hm fin.
  destruct (drain_all collaborators codeGeneratorKinds q w s cur r Hr Hc Hq Ha)
    as (w' & s' & E & ? & ? & ? & Ha' & ? & ? & ? & _).
  pose proof (drain_all_errors collaborators codeGeneratorKinds
                q w s cur r Hr Hc Hq Ha Hf) as Herr.
  rewrite E, He in Herr. simpl in Herr.
  unfold fin. rewrite (drain_settled _ _ _ _ _ _ _ E Ha' Hm). simpl.
  repeat split; try done.
  clear. induction q as [|t q IH]; [done|].
  unfold failures in *. simpl. rewrite length_app, IH, filter_cons.
  by destruct (run_end (executeTask (class w) t)).
Qed.

(** C5.  [stop()] while a task executes: when it returns the worker is
    not running and the row says idle, but the activation is still
    suspended in the handler with all that was left of it.  The handler
    then goes on effect by effect, the row saying idle all the while, and
    ends as it would have; only then the loop looks at the flag, and leaves
    without taking another task. *)
Theorem C5_cooperative_stop (w : BaseAgent) (s : MemStorage)
    (cur : AgentTask) (r : HandlerRun) (k : nat) :
  currentTask w = Some cur → awaiting w = [r] →
  (k ≤ length (run_ops r))%nat →
  let id := agentId w in
  let stopped := stop w s in
  let mid := drain k stopped in
  let fin := drain (cost r) stopped in
  (isRunning stopped.1 = false ∧ currentTask stopped.1 = Some cur
   ∧ awaiting stopped.1 = [r] ∧ executed stopped.1 = executed w
   ∧ persisted id stopped.2 = (λ x, ("idle", None, x.2)) <$> persisted id s)
  ∧ (awaiting mid.1 = [{| run_ops := drop k (run_ops r); run_end := run_end r |}]
     ∧ currentTask mid.1 = Some cur
     ∧ mid.2 = handlerOps (take k (run_ops r)) w stopped.2
     ∧ persisted id mid.2
       = (λ x, ("idle", None, reported (take k (run_ops r)) x.2))
           <$> persisted id s)
  ∧ (awaiting fin.1 = [] ∧ currentTask fin.1 = None
     ∧ taskQueue fin.1 = taskQueue w ∧ executed fin.1 = executed w
     ∧ fin.2 = updateProgress 0 w
                 (log (if throws (run_end r) then "error" else "info")
                      ((if throws (run_end r) then "Task failed: "
                        else "Completed task: ") +:+ task_type cur)
                      (match run_end r with
                       | Returns => None
                       | Throws message => Some message
                       end) w
                      (handlerOps (run_ops r) w stopped.2))
     ∧ persisted id fin.2 = (λ _, ("idle", None, 0)) <$> persisted id s).
Proof.
  intros Hc Ha Hk id stopped mid fin.
  assert (persisted id stopped.2 = (λ x, ("idle", None, x.2)) <$> persisted id s)
    as Hst.
  { unfold stopped, stop. simpl.
    by rewrite persisted_log, persisted_updateStatus by done. }
  split; [done|]. split.
  - unfold mid, stopped, stop. destruct r as [ops e]. simpl in Hk |- *.
    rewrite (drain_ops _ _ k ops e []) by done. simpl.
    repeat split; [done|].
    rewrite persisted_handlerOps, persisted_log, persisted_updateStatus
      by done.
    by destruct (persisted id s) as [[??]|].
  - unfold fin, stopped, stop. rewrite (drain_task _ _ r []) by done.
    match goal with |- context [Worker.afterTask _ _ ?e ?w' ?s'] =>
      destruct (afterTask_stopped collaborators codeGeneratorKinds e w' s' cur)
        as (w2 & s2 & -> & ? & ? & ? & ? & ? & ? & ? & Es & Hp); [done|done|]
    end.
    simpl in *. repeat split; try done. unfold id in *.
    rewrite Hp, persisted_handlerOps, persisted_log, persisted_updateStatus
      by done.
    by destruct (persisted (agentId w) s) as [[??]|].
Qed.


(** The kinds for which [executeTask] of the class has a case. *)
Definition handlerTable (c : AgentClass) : list string :=
  match c with
  | CodeGeneratorAgent => codeGeneratorKinds
  | InfrastructureAgent =>
      ["generate_terraform"; "deploy_infrastructure"; "monitor_resources"]
  | LearningAgent =>
      ["analyze_commits"; "learn_patterns"; "suggest_improvements"]
  end.

Definition known (c : AgentClass) (t : AgentTask) : bool :=
  existsb (String.eqb (task_type t)) (handlerTable c).

Lemma executeTask_unknown c t :
  known c t = false → executeTask c t = unknownTaskType t.
Proof.
  unfold known, Worker.executeTask. destruct c; simpl.
  - unfold CodeGeneratorAgent_executeTask. by intros ->.
  - unfold InfrastructureAgent_executeTask.
    by repeat (destruct (String.eqb _ _); [done|]).
  - unfold LearningAgent_executeTask.
    by repeat (destruct (String.eqb _ _); [done|]).
Qed.

(** C7.  A task whose kind has no case in [executeTask] of its worker: the
    call is a handler run without effect that throws [Unknown task type].
    The drain loop treats it as any failed task: one error record, the
    task gone, the tasks behind it executed in their order, the worker
    still running.  Whether [assignTask] succeeds or fails does not depend
    on the task, so nothing of this reaches its caller. *)
Theorem C7_unknown_kind (w : BaseAgent) (s : MemStorage) (t : AgentTask)
    (q : list AgentTask) (m : nat) :
  known (class w) t = false →
  isRunning w = true → currentTask w = Some t → taskQueue w = q →
  awaiting w = [executeTask (class w) t] → fresh_ids s →
  (1 + work (class w) q ≤ m)%nat →
  let fin := drain m (w, s) in
  executeTask (class w) t
  = {| run_ops := [];
       run_end := Throws ("Unknown task type: " +:+ task_type t) |}
  ∧ isRunning fin.1 = true
  ∧ executed fin.1 = executed w ++ q
  ∧ taskQueue fin.1 = [] ∧ awaiting fin.1 = [] ∧ currentTask fin.1 = None
  ∧ errors fin.2
    = errors s
      ++ [("error", "Task failed: " +:+ task_type t, agentId w,
           Some ("Unknown task type: " +:+ task_type t))]
      ++ failures collaborators codeGeneratorKinds (class w) (agentId w) q
  ∧ (∀ mgr agentType t',
       (Manager.assignTask collaborators codeGeneratorKinds agentType t mgr).1
       = (Manager.assignTask collaborators codeGeneratorKinds agentType t' mgr).1).
Proof.
  intros Hu Hr Hc Hq Ha Hf Hm fin.
  pose proof (executeTask_unknown _ _ Hu) as Eu. split; [exact Eu|].
  rewrite Eu in Ha.
  destruct (drain_all collaborators codeGeneratorKinds q w s t _ Hr Hc Hq Ha)
    as (w' & s' & E & ? & ? & ? & Ha' & ? & ? & ? & _).
  pose proof (drain_all_errors collaborators codeGeneratorKinds
                q w s t _ Hr Hc Hq Ha Hf) as Herr.
  rewrite E in Herr. simpl in Herr.
  unfold fin. rewrite (drain_settled _ _ _ _ _ _ _ E Ha' Hm). simpl.
  repeat split; try done.
  intros mgr agentType t'. unfold Manager.assignTask.
  destruct (List.find _ _); [|done].
  destruct (instance _ _) as [[ref agentInstance]|]; [|done].
  by do 2 destruct (Worker.addTask _ _ _ _ _).
Qed.

End WorkerProperties.

Section ManagerProperties.
Import Registry.
Variable collaborators : AgentTask → HandlerRun.
Variable codeGeneratorKinds : list string.

Abbreviation startAgent := (Manager.startAgent collaborators codeGeneratorKinds).
Abbreviation assignTask := (Manager.assignTask collaborators codeGeneratorKinds).
Abbreviation performAll := (Manager.performAll collaborators codeGeneratorKinds).

(** What [assignTask] looks for: the first agent of the type whose status
    is running. *)
Definition target (agentType : string) (m : AgentManager) : option Agent :=
  List.find (λ a, String.eqb (agent_type a) agentType
                  && String.eqb (agent_status a) "running")
            (getAgents (storage m)).

(** [assignTask] fails exactly when no agent of the type has the status
    running; an agent whose status is working does not count. *)
Lemma assignTask_rejected agentType task m :
  (assignTask agentType task m).1 = Rejected (NoRunningAgent agentType)
  ↔ ∀ a, a ∈ getAgents (storage m) →
         ¬ (agent_type a = agentType ∧ agent_status a = "running").
Proof.
  unfold Manager.assignTask.
  destruct (List.find _ _) as [a|] eqn:Hf.
  - split.
    + destruct (instance _ _) as [[??]|]; [|done].
      by destruct (Worker.addTask _ _ _ _ _).
    + intros H. apply find_some in Hf as [Hin Ha].
      apply andb_prop in Ha as [?%String.eqb_eq ?%String.eqb_eq].
      destruct (H a); [by apply list_elem_of_In|done].
  - split; [|done]. intros _ a Hin [Ht Hs].
    apply list_elem_of_In in Hin.
    pose proof (find_none _ _ Hf a Hin) as Hn. simpl in Hn.
    apply andb_false_iff in Hn as [Hn|Hn];
      apply String.eqb_neq in Hn; done.
Qed.

(** C8 (amended).  [stopAgent] on an id for which no worker is registered
    does nothing and reports success: the store, the worker objects and the
    registry are as before, and no failure reaches the caller.  No call of
    [stopAgent] fails at all. *)
Theorem C8_stop_unregistered (agentId : Z) (m : AgentManager) :
  agents m !! agentId = None →
  stopAgent agentId m = (Resolved, m)
  ∧ ∀ agentId' m', (stopAgent agentId' m').1 = Resolved.
Proof.
  intros H. split.
  - unfold stopAgent, instance. by rewrite H.
  - intros agentId' m'. unfold stopAgent.
    destruct (instance agentId' m') as [[ref agent]|]; [|done].
    by destruct (stop agent (storage m')).
Qed.

(** C9.  After any sequence of calls of [startAgent], [stopAgent] and
    [assignTask] and of moves of handlers in flight, from a manager without
    workers: two worker objects that are running for the same agent are
    one object; the object registered for an agent is a running worker of
    that agent; and [startAgent] for a registered agent succeeds and
    changes nothing.  After calls of [startAgent] and [stopAgent] alone,
    a worker object other than the one registered for its agent is
    stopped and has nothing in its queue, in hand or in flight: the
    registered workers are the only ones there are. *)
Theorem C9_one_worker_per_agent (s0 : MemStorage) (cs : list Call) :
  let m := performAll cs (fresh s0) in
  (∀ ref1 ref2 w1 w2,
     objects m !! ref1 = Some w1 → objects m !! ref2 = Some w2 →
     isRunning w1 = true → isRunning w2 = true →
     Worker.agentId w1 = Worker.agentId w2 → ref1 = ref2)
  ∧ (∀ id ref, agents m !! id = Some ref →
       ∃ w, objects m !! ref = Some w ∧ Worker.agentId w = id
            ∧ isRunning w = true)
  ∧ (∀ id, is_Some (agents m !! id) → startAgent id m = (Resolved, m))
  ∧ (Forall lifecycle cs →
     ∀ ref w, objects m !! ref = Some w →
       agents m !! Worker.agentId w ≠ Some ref →
       isRunning w = false ∧ inert w).
Proof.
  intros m.
  pose proof (consistent_performAll collaborators codeGeneratorKinds cs
                (fresh s0) (consistent_fresh s0)) as [Ha Hb Hc].
  fold m in Ha, Hb, Hc. split; [|split; [|split]].
  - intros ref1 ref2 w1 w2 H1 H2 Hr1 Hr2 E.
    pose proof (Hb ref1 w1 H1 Hr1) as E1.
    pose proof (Hb ref2 w2 H2 Hr2) as E2. congruence.
  - exact Ha.
  - intros id H. unfold Manager.startAgent.
    destruct (Hc id H) as [agentData ->].
    by rewrite bool_decide_eq_true_2.
  - intros Hcs ref w Hw Hn. split.
    + destruct (isRunning w) eqn:Hr; [|done]. by destruct (Hn (Hb ref w Hw Hr)).
    + pose proof (inert_performAll collaborators codeGeneratorKinds cs
                    (fresh s0) Hcs (Forall_nil_2 _)) as Hi.
      by apply (Forall_lookup_1 _ _ _ _ Hi) in Hw.
Qed.

(** C10.  The store lists an agent of the type with status running, but
    no worker is registered under its id: [assignTask] reports success and
    nothing changes, neither a queue nor the store; the task is lost. *)
Theorem C10_assign_without_worker (agentType : string) (task : AgentTask)
    (m : AgentManager) (a : Agent) :
  target agentType m = Some a → agents m !! agent_id a = None →
  assignTask agentType task m = (Resolved, m).
Proof.
  unfold target, Manager.assignTask, instance. by intros -> ->.
Qed.

End ManagerProperties.

(** * The properties on sample data *)

Section Samples.
Import Sample SampleManager.

Abbreviation run := (Worker.run Sample.collaborators []).
Abbreviation drain := (Worker.drain Sample.collaborators []).
Abbreviation step := (Worker.step Sample.collaborators []).

Ltac fresh_ids :=
  unfold fresh_ids; vm_compute;
  repeat first [apply List.Forall_nil | apply List.Forall_cons; [reflexivity|]].

Ltac evaluated H := vm_compute in H; vm_compute; exact H.
Ltac evaluate := vm_compute; first [reflexivity | lia].

(** C1 as stated fails on a started worker: the tasks of priorities
    5, 10, 1, 10 are executed in the order 0, 1, 3, 2 of their positions,
    which is not by descending priority. *)
Lemma C1_counterexample :
  let fin := drain 28 (run (Start :: map AddTask fourTasks) worker) in
  map task_id (executed fin.1) = ["0"; "1"; "3"; "2"]
  ∧ taskQueue fin.1 = [] ∧ awaiting fin.1 = []
  ∧ ¬ descending (executed fin.1).
Proof.
  vm_compute. repeat split.
  intros H. apply StronglySorted_inv in H as [_ H].
  apply Forall_inv in H. by apply H.
Qed.

Lemma C1_witness :
  executed (drain 28 (step Start (run (map AddTask fourTasks) worker))).1
  = [task "1" 10; task "3" 10; task "0" 5; task "2" 1]
  ∧ executed (drain (7 + 28)
               (run (Start :: AddTask (task "4" 7) :: map AddTask fourTasks)
                    worker)).1
    = [task "4" 7; task "1" 10; task "3" 10; task "0" 5; task "2" 1].
Proof.
  assert (work Sample.collaborators [] InfrastructureAgent
            (sort byPriority fourTasks) ≤ 28)%nat as Hm by evaluate.
  destruct (C1_drain_order Sample.collaborators [] InfrastructureAgent 1
              Sample.store fourTasks (task "4" 7) 28 Hm)
    as (_ & (_ & _ & _ & H1 & _) & (_ & _ & H2 & _) & _).
  split; [evaluated H1|evaluated H2].
Defined.

(** C2 as stated fails for a task whose kind is the empty string: while
    it is in hand the row says working but has no current task. *)
Lemma C2_counterexample :
  let enq := run [Start; AddTask (unnamed "0" 5)] worker in
  currentTask enq.1 = Some (unnamed "0" 5)
  ∧ awaiting enq.1 ≠ []
  ∧ persisted 1 enq.2 = Some ("working", None, 0)
  ∧ (None : option string) ≠ Some (task_type (unnamed "0" 5)).
Proof. vm_compute. by repeat split. Qed.

Lemma C2_witness :
  let enq := run [Start; AddTask (task "0" 5)] worker in
  persisted 1 (drain 3 enq).2 = Some ("working", Some "generate_terraform", 50)
  ∧ persisted 1 (drain 7 enq).2 = Some ("running", None, 0).
Proof.
  assert (3 ≤ length (run_ops (Worker.executeTask Sample.collaborators []
                                 InfrastructureAgent (task "0" 5))))%nat
    as Hk by evaluate.
  destruct (C2_lifecycle Sample.collaborators [] InfrastructureAgent
              {| ins_name := "Infrastructure Agent";
                 ins_type := "infrastructure" |} Storage.empty (task "0" 5) 3
              Hk)
    as (_ & _ & (_ & _ & H1) & (_ & _ & _ & _ & H2)).
  split; [evaluated H1|evaluated H2].
Defined.

(** C3: [start()], a task whose handler is going to throw, a second task,
    [stop()] and [start()]: the second activation of the loop takes task 1
    while the handler of task 0 is in flight, and both use
    [this.currentTask].  The handler of task 1 returns first and its
    activation clears the field; when the handler of task 0 throws, the catch
    block finds no task in hand: both tasks were executed, and the failure
    has left no record of level error and no [taskError] event. *)
Lemma C3_error_record_lost :
  let overlapped :=
    run [Start; AddTask (invalid "0" 5); AddTask (monitor "1" 3); Stop; Start]
        worker in
  let fin := run (replicate 3 (Resume 1) ++ replicate 5 (Resume 0)) overlapped in
  awaiting overlapped.1 = [terraformRejected; resourcesMonitored]
  ∧ run_end terraformRejected
    = Throws "Terraform validation failed: missing provider"
  ∧ currentTask overlapped.1 = Some (monitor "1" 3)
  ∧ executed fin.1 = [invalid "0" 5; monitor "1" 3]
  ∧ awaiting fin.1 = []
  ∧ errors fin.2 = []
  ∧ emitted fin.1 = [].
Proof. vm_compute. by repeat split. Qed.

Lemma failure_isolation_witness :
  let fin := drain 17 failing in
  map task_id (executed fin.1) = ["0"; "1"; "2"]
  ∧ errors fin.2
    = [("error", "Task failed: generate_terraform", 1,
        Some "Terraform validation failed: missing provider");
       ("error", "Task failed: generate_terraform", 1,
        Some "Terraform validation failed: missing provider")].
Proof.
  assert (isRunning failing.1 = true) as Hr by evaluate.
  assert (currentTask failing.1 = Some (invalid "0" 5)) as Hc by evaluate.
  assert (taskQueue failing.1 = [task "1" 9; invalid "2" 3]) as Hq by evaluate.
  assert (awaiting failing.1 = [terraformRejected]) as Ha by evaluate.
  assert (fresh_ids failing.2) as Hf by fresh_ids.
  assert (cost terraformRejected
          + work Sample.collaborators [] (class failing.1)
              [task "1" 9; invalid "2" 3] ≤ 17)%nat as Hm by evaluate.
  destruct (failure_isolation Sample.collaborators [] failing.1 failing.2
              (invalid "0" 5) terraformRejected
              [task "1" 9; invalid "2" 3]
              "Terraform validation failed: missing provider" 17
              Hr Hc Hq Ha eq_refl Hf Hm)
    as (_ & H1 & _ & _ & _ & H2 & _).
  split; [apply (f_equal (map task_id)) in H1; evaluated H1|evaluated H2].
Defined.

Lemma C5_witness :
  let stopped := stop generating.1 generating.2 in
  persisted 1 stopped.2 = Some ("idle", None, 20)
  ∧ persisted 1 (drain 2 stopped).2 = Some ("idle", None, 80)
  ∧ persisted 1 (drain 5 stopped).2 = Some ("idle", None, 0)
  ∧ awaiting (drain 5 stopped).1 = [].
Proof.
  assert (currentTask generating.1 = Some (task "0" 5)) as Hc by evaluate.
  assert (awaiting generating.1
          = [{| run_ops := drop 2 (run_ops terraformGenerated);
                run_end := Returns |}]) as Ha by evaluate.
  assert (2 ≤ length (drop 2 (run_ops terraformGenerated)))%nat
    as Hk by evaluate.
  destruct (C5_cooperative_stop Sample.collaborators [] generating.1
              generating.2 (task "0" 5)
              {| run_ops := drop 2 (run_ops terraformGenerated);
                 run_end := Returns |} 2 Hc Ha Hk)
    as ((_ & _ & _ & _ & H1) & (_ & _ & _ & H2) & (H4 & _ & _ & _ & _ & H3)).
  split_and!; [evaluated H1|evaluated H2|evaluated H3|evaluated H4].
Defined.



Lemma C7_witness :
  let fin := drain 8 puzzled in
  map task_id (executed fin.1) = ["0"; "1"]
  ∧ isRunning fin.1 = true
  ∧ errors fin.2
    = [("error", "Task failed: reticulate_splines", 1,
        Some "Unknown task type: reticulate_splines")].
Proof.
  assert (known [] (class puzzled.1) (unknown "0" 5) = false)
    as Hu by evaluate.
  assert (isRunning puzzled.1 = true) as Hr by evaluate.
  assert (currentTask puzzled.1 = Some (unknown "0" 5)) as Hc by evaluate.
  assert (taskQueue puzzled.1 = [task "1" 3]) as Hq by evaluate.
  assert (awaiting puzzled.1
          = [Worker.executeTask Sample.collaborators [] (class puzzled.1)
               (unknown "0" 5)]) as Ha by evaluate.
  assert (fresh_ids puzzled.2) as Hf by fresh_ids.
  assert (1 + work Sample.collaborators [] (class puzzled.1) [task "1" 3]
          ≤ 8)%nat as Hm by evaluate.
  destruct (C7_unknown_kind Sample.collaborators [] puzzled.1 puzzled.2
              (unknown "0" 5) [task "1" 3] 8 Hu Hr Hc Hq Ha Hf Hm)
    as (_ & H2 & H1 & _ & _ & _ & H3 & _).
  apply (f_equal (map task_id)) in H1.
  split_and!; [evaluated H1|evaluated H2|evaluated H3].
Defined.

(** C4: the worker of agent 1 executes a task, its row says working and
    is among the active agents of the store, and [assignTask] for its type
    is rejected, no task being enqueued. *)
Lemma C4_working_agent_rejected :
  agent_status <$> getAgent 1 (storage busy) = Some "working"
  ∧ map agent_id (getActiveAgents (storage busy)) = [1]
  ∧ agents busy !! 1 = Some 0%nat
  ∧ (currentTask <$> objects busy !! 0%nat) = Some (Some (task "0" 5))
  ∧ Manager.assignTask Sample.collaborators [] "infrastructure" (task "1" 10) busy
    = (Rejected (NoRunningAgent "infrastructure"), busy).
Proof. vm_compute. by repeat split. Qed.

(** C8 as stated fails: no worker is registered for agent 7, and
    [stopAgent 7] reports success. *)
Lemma C8_counterexample :
  agents manager !! 7 = None
  ∧ stopAgent 7 manager = (Resolved, manager).
Proof. vm_compute. by split. Qed.

Lemma C8_witness :
  stopAgent 7 manager = (Resolved, manager)
  ∧ (stopAgent 1 busy).1 = Resolved.
Proof.
  assert (agents manager !! 7 = None) as H by evaluate.
  destruct (C8_stop_unregistered 7 manager H) as [H1 H2].
  split; [exact H1|exact (H2 1 busy)].
Defined.

Lemma C9_witness :
  let m := Manager.performAll Sample.collaborators [] calls manager in
  agents m !! 1 = Some 1%nat
  ∧ Manager.startAgent Sample.collaborators [] 1 m = (Resolved, m).
Proof.
  destruct (C9_one_worker_per_agent Sample.collaborators [] Sample.store calls)
    as (_ & _ & H & _).
  split; [evaluate|]. apply H. exists 1%nat. evaluate.
Defined.

(** The overlap of a stop and a restart: the worker that was stopped is
    gone from the registry but still executes its task, next to the worker
    registered in its place for the same agent. *)
Lemma stop_restart_overlap :
  map Worker.agentId (objects restartedBusy) = [1; 1]
  ∧ map isRunning (objects restartedBusy) = [false; true]
  ∧ map currentTask (objects restartedBusy) = [Some (task "0" 5); None]
  ∧ agents restartedBusy !! 1 = Some 1%nat.
Proof. vm_compute. by repeat split. Qed.

(** C9 as stated fails once a task was assigned.  Agent 1 was stopped while
    its worker executed task 0, and started again: the registry holds the
    new worker, the old one still has its handler in flight, and a task
    assigned now is executed by the new one at the same time, for the same
    agent. *)
Lemma C9_counterexample :
  let m := Manager.perform Sample.collaborators []
             (AssignTask "infrastructure" (task "1" 3)) restartedBusy in
  agents restartedBusy !! 1 = Some 1%nat
  ∧ map Worker.agentId (objects restartedBusy) = [1; 1]
  ∧ map (λ w, length (awaiting w)) (objects restartedBusy) = [1%nat; 0%nat]
  ∧ map Worker.agentId (objects m) = [1; 1]
  ∧ map currentTask (objects m) = [Some (task "0" 5); Some (task "1" 3)]
  ∧ map (λ w, length (awaiting w)) (objects m) = [1%nat; 1%nat].
Proof. vm_compute. by repeat split. Qed.

Lemma C10_witness :
  agent_status <$> getAgent 1 (storage restarted) = Some "running"
  ∧ Manager.assignTask Sample.collaborators [] "infrastructure" (task "0" 5)
      restarted
    = (Resolved, restarted).
Proof.
  split; [evaluate|].
  apply (C10_assign_without_worker Sample.collaborators [] "infrastructure"
           (task "0" 5) restarted
           {| agent_id := 1; agent_name := "Infrastructure Agent";
              agent_type := "infrastructure"; agent_status := "running";
              agent_currentTask := None; agent_progress := 0 |});
    evaluate.
Defined.

End Samples.

(** * Further properties of the worker *)

Module WorkerInvariants.
Import Storage Worker StorageFacts QueueOrder DrainLoop.

(** The tasks handed to [addTask] by a sequence of events, in order. *)
Definition added (es : list Event) : list AgentTask :=
  flat_map (λ e, match e with AddTask t => [t] | _ => [] end) es.

(** The events other than a call of [start()]. *)
Definition notStart (e : Event) : Prop :=
  match e with Start => False | _ => True end.

(** The info records a handler writes, for the agent [id]. *)
Definition handlerLogs (id : Z) (ops : list HandlerOp)
  : list (string * string * Z * option string) :=
  flat_map (λ op, match op with
                  | OpLog message => [("info", message, id, None)]
                  | _ => []
                  end) ops.

Section Invariants.
Variable collaborators : AgentTask → HandlerRun.
Variable codeGeneratorKinds : list string.

Abbreviation executeTask := (Worker.executeTask collaborators codeGeneratorKinds).
Abbreviation processQueue := (Worker.processQueue collaborators codeGeneratorKinds).
Abbreviation afterTask := (Worker.afterTask collaborators codeGeneratorKinds).
Abbreviation start := (Worker.start collaborators codeGeneratorKinds).
Abbreviation addTask := (Worker.addTask collaborators codeGeneratorKinds).
Abbreviation step := (Worker.step collaborators codeGeneratorKinds).
Abbreviation run := (Worker.run collaborators codeGeneratorKinds).
Abbreviation drain := (Worker.drain collaborators codeGeneratorKinds).

Implicit Types (w : BaseAgent) (s : MemStorage).

(** ** No task is lost or duplicated *)

(** [processQueue] moves the head of the queue to the end of the history
    of executed tasks, or leaves both alone. *)
Lemma processQueue_moves w s :
  executed (processQueue w s).1 ++ taskQueue (processQueue w s).1
  = executed w ++ taskQueue w.
Proof.
  unfold Worker.processQueue. destruct (isRunning w); [|done].
  destruct (taskQueue w) as [|t q] eqn:Hq; simpl; [by rewrite Hq|].
  by rewrite <- app_assoc.
Qed.

Lemma step_moves e w s :
  executed (step e (w, s)).1 ++ taskQueue (step e (w, s)).1
  ≡ₚ executed w ++ taskQueue w ++ added [e].
Proof.
  destruct e as [| |t|i]; simpl; rewrite ?app_nil_r.
  - unfold Worker.start. destruct (isRunning w); [done|].
    by rewrite processQueue_moves.
  - done.
  - unfold Worker.addTask. simpl.
    destruct (_ && _); [rewrite processQueue_moves|]; simpl;
      by rewrite sort_perm.
  - unfold Worker.resume. destruct (awaiting w !! i) as [r|]; [|done].
    destruct (run_ops r); [|done].
    unfold Worker.afterTask, Worker.restOfBody. simpl.
    destruct (currentTask w); [|done].
    destruct (run_end r); by rewrite processQueue_moves.
Qed.

Lemma processQueue_grows w s :
  executed w `prefix_of` executed (processQueue w s).1.
Proof.
  unfold Worker.processQueue. destruct (isRunning w); [|done].
  destruct (taskQueue w); simpl; [done|]. by apply prefix_app_r.
Qed.

Lemma step_grows e w s : executed w `prefix_of` executed (step e (w, s)).1.
Proof.
  destruct e as [| |t|i]; simpl.
  - unfold Worker.start. destruct (isRunning w); [done|].
    apply (processQueue_grows (set_isRunning true w)).
  - done.
  - unfold Worker.addTask. simpl. destruct (_ && _); [|done].
    apply (processQueue_grows (set_taskQueue _ w)).
  - unfold Worker.resume. destruct (awaiting w !! i) as [r|]; [|done].
    destruct (run_ops r); [|done].
    unfold Worker.afterTask, Worker.restOfBody. simpl.
    destruct (currentTask w); [|done].
    destruct (run_end r).
    + apply (processQueue_grows (set_currentTask None (set_awaiting _ w))).
    + apply (processQueue_grows
               (set_currentTask None (emit_taskError _ _ (set_awaiting _ w)))).
Qed.

(** X1.  Whatever is called on a worker, in whatever order and with handlers
    in flight: the tasks passed to [executeTask] so far together with the
    tasks in the queue are the tasks that were enqueued, each as often as
    it was enqueued; and the history of executed tasks only grows. *)
Theorem tasks_conserved (es : list Event) (w : BaseAgent) (s : MemStorage) :
  let w' := (run es (w, s)).1 in
  executed w' ++ taskQueue w' ≡ₚ executed w ++ taskQueue w ++ added es
  ∧ executed w `prefix_of` executed w'.
Proof.
  revert w s. induction es as [|e es IH]; intros w s.
  - simpl. by rewrite app_nil_r.
  - change (run (e :: es) (w, s)) with (run es (step e (w, s))).
    pose proof (step_moves e w s) as Hm. pose proof (step_grows e w s) as Hg.
    destruct (step e (w, s)) as [w1 s1]. simpl in Hm, Hg.
    destruct (IH w1 s1) as [H1 H2]. split.
    + rewrite H1, (app_assoc (executed w1)), Hm.
      assert (added (e :: es) = added [e] ++ added es) as ->
        by (unfold added; simpl; by rewrite app_nil_r).
      unfold added at 1. simpl. by rewrite <- !app_assoc.
    + by etrans.
Qed.

(** ** The log only grows *)

Lemma journal_handlerOp op w s :
  fresh_ids s →
  journal (handlerOp op w s) = journal s ++ handlerLogs (agentId w) [op].
Proof.
  intros Hf. destruct op; simpl; rewrite ?app_nil_r; try done.
  - by rewrite journal_log.
  - by rewrite journal_updateProgress.
Qed.

Lemma journal_handlerOps ops w s :
  fresh_ids s →
  journal (handlerOps ops w s) = journal s ++ handlerLogs (agentId w) ops.
Proof.
  revert s. induction ops as [|op ops IH]; intros s Hf; simpl.
  - by rewrite app_nil_r.
  - rewrite IH by by apply fresh_handlerOp.
    rewrite journal_handlerOp by done. unfold handlerLogs. simpl.
    by rewrite app_nil_r, <- app_assoc.
Qed.

Lemma handlerLogs_ofAgent id ops :
  Forall (λ e : string * string * Z * option string, e.1.2 = id)
         (handlerLogs id ops).
Proof.
  induction ops as [|op ops IH]; [constructor|].
  unfold handlerLogs in *. simpl. apply Forall_app. split; [|done].
  destruct op; by repeat constructor.
Qed.

(** What a block of the worker adds to the log: records of this agent,
    behind those that were there. *)
Definition appends (w : BaseAgent) (s s' : MemStorage) : Prop :=
  ∃ new, journal s' = journal s ++ new
         ∧ Forall (λ e : string * string * Z * option string,
                     e.1.2 = agentId w) new.

Ltac journal :=
  repeat first [ rewrite journal_log by auto 8 with fresh
               | rewrite journal_updateStatus
               | rewrite journal_updateProgress ];
  rewrite <- ?app_assoc.

Ltac appended :=
  eexists; split; [journal; try reflexivity; by rewrite app_nil_r
                  |by repeat constructor].

Lemma processQueue_appends w s :
  fresh_ids s → appends w s (processQueue w s).2.
Proof.
  intros Hf. unfold Worker.processQueue.
  destruct (isRunning w); [|by exists []; rewrite app_nil_r].
  destruct (taskQueue w); simpl; appended.
Qed.

Lemma appends_trans w s1 s2 s3 :
  appends w s1 s2 → appends w s2 s3 → appends w s1 s3.
Proof.
  intros (n1 & E1 & H1) (n2 & E2 & H2). exists (n1 ++ n2).
  rewrite E2, E1, <- app_assoc. split; [done|]. by apply Forall_app.
Qed.

Lemma step_appends e w s :
  fresh_ids s →
  appends w s (step e (w, s)).2 ∧ agentId (step e (w, s)).1 = agentId w.
Proof.
  intros Hf. destruct e as [| |t|i]; simpl.
  - unfold Worker.start. destruct (isRunning w) eqn:Hr.
    { split; [by exists []; rewrite app_nil_r|done]. }
    split; [|apply (Registry.processQueue_same _ _ (set_isRunning true w) _ _
                      (Registry.keeps_refl _))].
    eapply appends_trans;
      [|apply (processQueue_appends (set_isRunning true w));
        auto with fresh].
    appended.
  - unfold stop. simpl. split; [appended|done].
  - unfold Worker.addTask. simpl. destruct (_ && _).
    + split; [apply (processQueue_appends (set_taskQueue _ w)); done|].
      apply (Registry.processQueue_same _ _ (set_taskQueue _ w) _ _
               (Registry.keeps_refl _)).
    + split; [by exists []; rewrite app_nil_r|done].
  - split; [|apply Registry.resume_same].
    unfold Worker.resume. destruct (awaiting w !! i) as [r|];
      [|by exists []; rewrite app_nil_r].
    destruct (run_ops r) as [|op ops].
    + unfold Worker.afterTask, Worker.restOfBody. simpl.
      destruct (currentTask w); [|simpl; appended].
      destruct (run_end r).
      * eapply appends_trans;
          [|apply (processQueue_appends
                     (set_currentTask None (set_awaiting _ w)));
            auto with fresh].
        appended.
      * eapply appends_trans;
          [|apply (processQueue_appends
                     (set_currentTask None
                        (emit_taskError _ _ (set_awaiting _ w))));
            auto with fresh].
        appended.
    + simpl. exists (handlerLogs (agentId w) [op]).
      split; [by apply journal_handlerOp|apply handlerLogs_ofAgent].
Qed.

(** X2.  Whatever is called on a worker, the log keeps every record it had,
    in place, and what is added behind them are records of this agent. *)
Theorem log_append_only (es : list Event) (w : BaseAgent) (s : MemStorage) :
  fresh_ids s →
  ∃ new, journal (run es (w, s)).2 = journal s ++ new
         ∧ Forall (λ e : string * string * Z * option string,
                     e.1.2 = agentId w) new.
Proof.
  revert w s. induction es as [|e es IH]; intros w s Hf.
  - exists []. by rewrite app_nil_r.
  - change (run (e :: es) (w, s)) with (run es (step e (w, s))).
    destruct (step_appends e w s Hf) as [Ha Hi].
    pose proof (step_fresh collaborators codeGeneratorKinds e w s Hf) as Hf1.
    destruct (step e (w, s)) as [w1 s1]. simpl in *.
    destruct (IH w1 s1 Hf1) as (n2 & E2 & H2). rewrite Hi in H2.
    apply (appends_trans w s s1); [done|]. by exists n2.
Qed.

(** ** A worker that is not running takes no task *)

Lemma step_idle e w s :
  isRunning w = false → notStart e →
  isRunning (step e (w, s)).1 = false
  ∧ executed (step e (w, s)).1 = executed w
  ∧ taskQueue (step e (w, s)).1 = enqueued (taskQueue w) (added [e]).
Proof.
  intros Hr He. destruct e as [| |t|i]; simpl; [done|done| |].
  - by rewrite (addTask_buffers _ _ t w s) by by left.
  - unfold Worker.resume. destruct (awaiting w !! i) as [r|]; [|done].
    destruct (run_ops r); [|done].
    unfold Worker.afterTask, Worker.restOfBody, Worker.processQueue. simpl.
    destruct (currentTask w); [|done].
    destruct (run_end r); simpl; by rewrite Hr.
Qed.

(** X3.  On a worker that is not running, calls of [addTask] and [stop()] and
    the moves of a handler still in flight pass no task to [executeTask]:
    the tasks enqueued wait, in stable priority order, for [start()]. *)
Theorem idle_worker_buffers (es : list Event) (w : BaseAgent)
    (s : MemStorage) :
  isRunning w = false → Forall notStart es →
  let w' := (run es (w, s)).1 in
  isRunning w' = false
  ∧ executed w' = executed w
  ∧ taskQueue w' = enqueued (taskQueue w) (added es).
Proof.
  revert w s. induction es as [|e es IH]; intros w s Hr Hes; [done|].
  apply Forall_cons in Hes as [He Hes].
  change (run (e :: es) (w, s)) with (run es (step e (w, s))).
  destruct (step_idle e w s Hr He) as (Hr1 & He1 & Hq1).
  destruct (step e (w, s)) as [w1 s1]. cbn [fst snd] in *.
  destruct (IH w1 s1 Hr1 Hes) as (? & ? & Hq). repeat split; [done|congruence|].
  rewrite Hq, Hq1.
  assert (added (e :: es) = added [e] ++ added es) as ->
    by (unfold added; simpl; by rewrite app_nil_r).
  unfold enqueued. by rewrite foldl_app.
Qed.

(** [processQueue] keeps the activations that are suspended. *)
Lemma processQueue_awaits w s r :
  r ∈ awaiting w → r ∈ awaiting (processQueue w s).1.
Proof.
  intros H. unfold Worker.processQueue. destruct (isRunning w); [|done].
  destruct (taskQueue w); simpl; [done|]. apply elem_of_app. by left.
Qed.

(** ** [start()] twice *)

(** X4.  A second [start()] changes nothing: neither the worker nor the store,
    and no second activation of the drain loop begins. *)
Theorem start_idempotent (w : BaseAgent) (s : MemStorage) :
  start (start w s).1 (start w s).2 = start w s.
Proof.
  assert (isRunning (start w s).1 = true) as Hr.
  { unfold Worker.start. destruct (isRunning w) eqn:E; [done|].
    apply (Registry.processQueue_same _ _ (set_isRunning true w) _ _
             (Registry.keeps_refl _)). }
  unfold Worker.start at 1. rewrite Hr. by destruct (start w s).
Qed.

(** ** [stop()] and [start()] while a task executes *)

(** X5.  A worker executes [cur] and [t] waits.  After [stop()] and [start()]
    the first activation of the loop is still suspended in the handler of
    [cur], and a second one has taken [t]: two handlers are in flight.
    When the handler of [cur] returns, the first activation reads
    [this.currentTask], which is [t] by then: the log says that [t] was
    completed, while the handler of [t] is still running. *)
Theorem restart_during_task (w : BaseAgent) (s : MemStorage)
    (cur t : AgentTask) (r : HandlerRun) (q : list AgentTask) :
  currentTask w = Some cur → awaiting w = [r] → taskQueue w = t :: q →
  run_end r = Returns → fresh_ids s →
  let again := run [Stop; Start] (w, s) in
  let ended := drain (cost r) again in
  (isRunning again.1 = true
   ∧ awaiting again.1 = [r; executeTask (class w) t]
   ∧ currentTask again.1 = Some t
   ∧ executed again.1 = executed w ++ [t])
  ∧ (∃ rest,
       journal ended.2
       = journal again.2 ++ handlerLogs (agentId w) (run_ops r)
         ++ [("info", "Completed task: " +:+ task_type t, agentId w, None)]
         ++ rest)
  ∧ executeTask (class w) t ∈ awaiting ended.1.
Proof.
  intros Hc Ha Hq He Hf again ended.
  assert (∃ w1 s1, again = (w1, s1) ∧ isRunning w1 = true
            ∧ awaiting w1 = [r; executeTask (class w) t]
            ∧ currentTask w1 = Some t ∧ executed w1 = executed w ++ [t]
            ∧ agentId w1 = agentId w ∧ fresh_ids s1)
    as (w1 & s1 & E & Hr1 & Ha1 & Hc1 & He1 & Hi1 & Hf1).
  { unfold again, Worker.run. simpl. unfold stop, Worker.start. simpl.
    match goal with |- context [Worker.processQueue _ _ ?w0 ?s0] =>
      destruct (processQueue_begin collaborators codeGeneratorKinds w0 s0 t q)
        as (w1 & s1 & -> & ? & ? & ? & Ha1 & ? & ? & ? & ? & Hf1);
        [done|done|]
    end.
    exists w1, s1. simpl in *. rewrite Ha in Ha1.
    repeat split; try done. apply Hf1. auto 8 with fresh. }
  rewrite E. simpl. split; [done|].
  unfold ended. rewrite E, (drain_task _ _ r [executeTask (class w) t]) by done.
  unfold Worker.afterTask, Worker.restOfBody. simpl. rewrite Hc1, He.
  match goal with |- context [Worker.processQueue _ _ ?w0 ?s0] =>
    destruct (processQueue_appends w0 s0) as (rest & Er & _);
      [auto 8 using fresh_handlerOps with fresh|];
    pose proof (Registry.processQueue_same collaborators codeGeneratorKinds
                  w0 s0 s0 (Registry.keeps_refl _)) as Hs;
    pose proof (processQueue_awaits w0 s0) as Hw
  end.
  split.
  - exists rest. rewrite Er. journal.
    rewrite journal_log by by apply fresh_handlerOps.
    rewrite journal_handlerOps by done. simpl.
    by rewrite Hi1, <- !app_assoc.
  - apply Hw. simpl. left.
Qed.

End Invariants.

End WorkerInvariants.

(** * The other tables of [MemStorage] *)

Module TablesFacts.
Import JsMap JsMapFacts Storage Tables.

Section Table.
Context {V : Type} (idof : V → Z).
Implicit Types (m : list (Z * V)) (k : Z) (v : V).

(** Key and id field of every record of a table. *)
Definition pairs m : list (Z * Z) := map (λ kv, (kv.1, idof kv.2)) m.

Lemma pairs_create k v m :
  Forall (λ p, p.1 < k) (pairs m) →
  pairs (set k v m) = pairs m ++ [(k, idof v)].
Proof.
  intros H. unfold pairs in *. rewrite set_fresh; [by rewrite map_app|].
  apply Forall_fmap in H. by eapply Forall_impl.
Qed.

Lemma pairs_update k v v0 m :
  get k m = Some v0 → idof v = idof v0 → pairs (set k v m) = pairs m.
Proof.
  intros Hg Hv. induction m as [|[k' v'] m IH]; [done|]. simpl in *.
  case_bool_decide; simplify_eq; simpl; [by rewrite Hv|]. by rewrite IH.
Qed.

Lemma pairs_remove k m : pairs (remove k m) `sublist_of` pairs m.
Proof. unfold pairs, remove. apply fmap_sublist, sublist_filter. Qed.

Lemma get_remove_eq k m : get k (remove k m) = None.
Proof.
  induction m as [|[k' v'] m IH]; [done|]. unfold remove in *.
  rewrite filter_cons. case_decide; simpl in *; [|done].
  by rewrite bool_decide_eq_false_2.
Qed.

Lemma get_remove_ne k k' m : k ≠ k' → get k' (remove k m) = get k' m.
Proof.
  intros Hne. induction m as [|[k0 v0] m IH]; [done|]. unfold remove in *.
  rewrite filter_cons. case_decide; simpl in *.
  - by rewrite IH.
  - rewrite bool_decide_eq_false_2; [done|]. naive_solver.
Qed.

Lemma get_None_below k m :
  Forall (λ kv, kv.1 < k) m → get k m = None.
Proof.
  induction 1 as [|[k' v'] m Hk _ IH]; [done|]. simpl in *.
  by rewrite bool_decide_eq_false_2 by lia.
Qed.

End Table.

(** Key and id field of the records of all tables. *)
Definition entries (t : Tables) : list (Z * Z) :=
  pairs agent_id (agents (core t)) ++ pairs act_id (activities (core t))
  ++ pairs log_id (systemLogs (core t)) ++ pairs user_id (users t)
  ++ pairs project_id (projects t) ++ pairs deployment_id (deployments t)
  ++ pairs repo_id (gitRepositories t).

(** Every record is filed under its own id, no id is used twice, in one
    table or in two, and all ids in use lie below the counter. *)
Definition sound (t : Tables) : Prop :=
  NoDup (map fst (entries t))
  ∧ Forall (λ p, p.1 = p.2 ∧ p.1 < currentId (core t)) (entries t).

Lemma sound_created t t' :
  currentId (core t') = currentId (core t) + 1 →
  entries t' ≡ₚ (currentId (core t), currentId (core t)) :: entries t →
  sound t → sound t'.
Proof.
  intros Hc Hp [Hn Hf]. split.
  - rewrite Hp. simpl. apply NoDup_cons. split; [|done].
    intros Hin. apply list_elem_of_fmap in Hin as ([k i] & E & Hin).
    rewrite Forall_forall in Hf. apply Hf in Hin. simpl in *. lia.
  - rewrite Hp, Hc. constructor; [simpl; lia|].
    eapply Forall_impl; [exact Hf|]. simpl. intros; lia.
Qed.

Lemma sound_removed t t' :
  currentId (core t') = currentId (core t) →
  entries t' `sublist_of` entries t → sound t → sound t'.
Proof.
  intros Hc Hs [Hn Hf]. split.
  - eapply sublist_NoDup; [exact Hn|]. by apply (fmap_sublist fst).
  - rewrite Hc. rewrite Forall_forall in *. intros p Hp.
    apply Hf. by eapply elem_of_sublist.
Qed.

(** What the soundness of the store says of one of its tables. *)
Ltac below H :=
  let Hf := fresh in
  destruct H as [_ Hf]; unfold entries in Hf;
  rewrite !Forall_app in Hf;
  eapply Forall_impl; [apply Hf|]; simpl; intros; lia.

Ltac created H :=
  match goal with |- sound ?t' =>
    match type of H with sound ?t =>
      apply (sound_created t t'); [done| |exact H]
    end
  end;
  unfold entries; simpl; rewrite pairs_create by (below H); simpl;
  solve_Permutation.

Lemma sound_perform c t : sound t → sound (perform c t).
Proof.
  intros H. destruct c; simpl.
  - created H.
  - created H.
  - unfold updateProject.
    destruct (get id (projects t)) as [project|] eqn:Hg; [|done]. simpl.
    destruct H as [Hn Hf]. unfold sound, entries in *. simpl.
    by rewrite (pairs_update _ _ _ project).
  - revert H. apply sound_removed; [done|]. unfold entries. simpl.
    do 4 (apply sublist_app; [reflexivity|]).
    apply sublist_app; [apply pairs_remove|reflexivity].
  - created H.
  - unfold updateAgent.
    destruct (get id (agents (core t))) as [agent|] eqn:Hg;
      [|destruct t; exact H].
    simpl. destruct H as [Hn Hf]. unfold sound, entries in *. simpl.
    by rewrite (pairs_update _ _ _ agent).
  - created H.
  - created H.
  - created H.
  - unfold updateDeployment.
    destruct (get id (deployments t)) as [deployment|] eqn:Hg; [|done]. simpl.
    destruct H as [Hn Hf]. unfold sound, entries in *. simpl.
    by rewrite (pairs_update _ _ _ deployment).
  - created H.
  - unfold updateGitRepository.
    destruct (get id (gitRepositories t)) as [repo|] eqn:Hg; [|done]. simpl.
    destruct H as [Hn Hf]. unfold sound, entries in *. simpl.
    by rewrite (pairs_update _ _ _ repo).
Qed.

Lemma sound_empty : sound Tables.empty.
Proof. split; simpl; constructor. Qed.

Lemma sound_performAll cs t : sound t → sound (performAll cs t).
Proof.
  revert t. induction cs as [|c cs IH]; intros t H; [done|].
  by apply IH, sound_perform.
Qed.

End TablesFacts.

Section StorageProperties.
Import JsMap JsMapFacts Storage Tables TablesFacts.

(** X6.  After any sequence of calls on a new store, with updates of the
    fields the callers in the code set (none sets an id), no id is used
    twice, neither in one table nor in two; every record is filed under its
    own id; and all ids in use lie below the counter, so that the next
    record gets an id that no record has. *)
Theorem ids_unique (cs : list Tables.Call) :
  let t := Tables.performAll cs Tables.empty in
  NoDup (keys t) ∧ ids t = keys t
  ∧ Forall (λ k, k < currentId (core t)) (keys t).
Proof.
  intros t. destruct (sound_performAll cs _ sound_empty) as [Hn Hf].
  fold t in Hn, Hf.
  assert (keys t = map fst (entries t)) as Hk.
  { unfold keys, entries, pairs. rewrite !map_app, !map_map. done. }
  assert (ids t = map snd (entries t)) as Hi.
  { unfold ids, entries, pairs. rewrite !map_app, !map_map. done. }
  rewrite Hi, Hk. split; [done|]. split.
  - apply map_ext_Forall. eapply Forall_impl; [exact Hf|].
    simpl. by intros p [-> _].
  - apply Forall_fmap. eapply Forall_impl; [exact Hf|]. simpl. by intros p [_ ?].
Qed.

(** X7.  [updateAgent], whatever fields the updates give.  On an id
    without row it returns undefined and leaves the store as it is.  On an
    id with a row it returns the merged record and files it under the same
    key, at the same place: the rows of the other keys, the order of the
    rows, the counter and the other tables are as before.  Updates that give
    an id leave a record whose id is not its key.  On the updates of
    [BaseAgent] it is the [updateAgent] of the worker's model, and id, name
    and type of the row stay. *)
Theorem updateAgent_merges (id : Z) (updates : Partial.PartialAgent)
    (s : MemStorage) :
  let r := Partial.updateAgent id updates s in
  (getAgent id s = None → r = (None, s))
  ∧ (∀ a, getAgent id s = Some a →
       r.1 = Some (Partial.spread a updates)
       ∧ getAgent id r.2 = Some (Partial.spread a updates)
       ∧ (∀ id', id' ≠ id → getAgent id' r.2 = getAgent id' s)
       ∧ map fst (Storage.agents r.2) = map fst (Storage.agents s)
       ∧ (∀ id', Partial.p_id updates = Some id' →
            agent_id <$> getAgent id r.2 = Some id'))
  ∧ (currentId r.2 = currentId s ∧ activities r.2 = activities s
     ∧ systemLogs r.2 = systemLogs s)
  ∧ (∀ u, Partial.updateAgent id (Partial.ofAgent u) s = updateAgent id u s)
  ∧ (∀ u a, getAgent id s = Some a →
       ∃ a', (updateAgent id u s).1 = Some a'
             ∧ agent_id a' = agent_id a ∧ agent_name a' = agent_name a
             ∧ agent_type a' = agent_type a).
Proof.
  intros r. subst r. unfold Partial.updateAgent, updateAgent, getAgent.
  split_and!.
  - by intros ->.
  - intros a Ha. rewrite Ha. simpl. split_and!; try done.
    + by rewrite get_set_eq.
    + intros id' Hne. by rewrite get_set_ne.
    + revert Ha. generalize (Partial.spread a updates). clear.
      induction (Storage.agents s) as [|[k v] m IH]; [done|]. simpl.
      intros v' Ha. case_bool_decide; simpl; [by subst|]. by rewrite IH.
    + intros id' E. rewrite get_set_eq. simpl. by rewrite E.
  - by destruct (get id (Storage.agents s)).
  - by destruct (get id (Storage.agents s)).
  - by destruct (get id (Storage.agents s)).
  - intros u. by destruct (get id (Storage.agents s)).
  - intros u a ->. by eexists.
Qed.

Lemma updateAgent_merges_witness :
  let r := Partial.updateAgent 1
             {| Partial.p_id := Some 2; Partial.p_name := None;
                Partial.p_type := None; Partial.p_status := Some "working";
                Partial.p_currentTask := None; Partial.p_progress := None |}
             Sample.store in
  (λ a, (agent_id a, agent_type a, agent_status a)) <$> getAgent 1 r.2
  = Some (2, "infrastructure", "working")
  ∧ getAgent 2 r.2 = None
  ∧ Partial.updateAgent 2
      {| Partial.p_id := Some 2; Partial.p_name := None;
         Partial.p_type := None; Partial.p_status := Some "working";
         Partial.p_currentTask := None; Partial.p_progress := None |}
      Sample.store
    = (None, Sample.store).
Proof.
  pose (updates := {| Partial.p_id := Some 2; Partial.p_name := None;
                      Partial.p_type := None;
                      Partial.p_status := Some "working";
                      Partial.p_currentTask := None;
                      Partial.p_progress := None |}).
  destruct (updateAgent_merges 1 updates Sample.store) as (_ & H1 & _).
  destruct (H1 {| agent_id := 1; agent_name := "Infrastructure Agent";
                  agent_type := "infrastructure"; agent_status := "idle";
                  agent_currentTask := None; agent_progress := 0 |} eq_refl)
    as (_ & H2 & H3 & _).
  destruct (updateAgent_merges 2 updates Sample.store) as (H4 & _).
  assert (2 ≠ 1) as Hne by done.
  split_and!.
  - exact (f_equal (fmap (λ a, (agent_id a, agent_type a, agent_status a)))
                   H2).
  - exact (eq_trans (H3 2 Hne) eq_refl).
  - exact (H4 eq_refl).
Defined.

(** The project [id] is gone and its id is spent. *)
Definition deleted (id : Z) (t : Tables) : Prop :=
  getProject id t = None ∧ id < currentId (core t).

Lemma deleted_perform id c t : deleted id t → deleted id (Tables.perform c t).
Proof.
  intros [Hg Hc]. unfold deleted, getProject in *.
  destruct c; simpl; try (split; [done|lia]).
  - split; [|lia]. rewrite get_set_ne by lia. done.
  - unfold updateProject.
    destruct (get id0 (projects t)) as [p|] eqn:E; [|done]. simpl.
    split; [|done]. rewrite get_set_ne; [done|]. intros ->. congruence.
  - split; [|done]. destruct (decide (id0 = id)) as [->|Hne].
    + apply get_remove_eq.
    + by rewrite get_remove_ne.
  - unfold updateAgent. by destruct (get id0 (agents (core t))).
  - unfold updateDeployment. by destruct (get id0 (deployments t)).
  - unfold updateGitRepository. by destruct (get id0 (gitRepositories t)).
Qed.

(** X8.  [deleteProject] answers true exactly when the project was there;
    afterwards the project is gone, the other projects are as before, and
    whatever is called on the store later, no project is filed under the
    id again when the id had been handed out by the store. *)
Theorem deleteProject_spends_id (id : Z) (t : Tables) (cs : list Tables.Call) :
  id < currentId (core t) →
  let t' := (deleteProject id t).2 in
  ((deleteProject id t).1 = true ↔ is_Some (getProject id t))
  ∧ getProject id t' = None
  ∧ (∀ id', id' ≠ id → getProject id' t' = getProject id' t)
  ∧ getProject id (Tables.performAll cs t') = None.
Proof.
  intros Hc t'. split; [apply bool_decide_eq_true|].
  split; [apply get_remove_eq|].
  split; [intros id' Hne; by apply get_remove_ne|].
  assert (deleted id t') as Hd by (split; [apply get_remove_eq|done]).
  clearbody t'. revert t' Hd. induction cs as [|c cs IH]; intros t' Hd.
  - apply Hd.
  - apply IH. by apply deleted_perform.
Qed.

Lemma deleteProject_spends_id_witness :
  let t := Tables.performAll
             [CreateProject {| ip_name := "shop"; ip_type := "Flask REST API";
                               ip_details := "" |}] Tables.empty in
  getProject 1
    (Tables.performAll
       [CreateProject {| ip_name := "blog"; ip_type := "Django Web App";
                         ip_details := "" |}]
       (deleteProject 1 t).2) = None.
Proof.
  refine (proj2 (proj2 (proj2 (deleteProject_spends_id 1 _ _ _)))).
  vm_compute. reflexivity.
Defined.

(** X9.  [getGitRepository] answers with the oldest repository of the
    project: a repository created for a project that has one already is
    not found through it; created for a project that has none, it is the
    one found, with branch main when no branch was given. *)
Theorem getGitRepository_oldest (ins : InsertGitRepository) (t : Tables) :
  sound t →
  let created := createGitRepository ins t in
  (is_Some (getGitRepository (ir_projectId ins) t) →
   getGitRepository (ir_projectId ins) created.2
   = getGitRepository (ir_projectId ins) t)
  ∧ (getGitRepository (ir_projectId ins) t = None →
     getGitRepository (ir_projectId ins) created.2 = Some created.1
     ∧ repo_branch created.1 = branchOrMain (ir_branch ins)
     ∧ repo_id created.1 = currentId (core t))
  ∧ (∀ projectId, projectId ≠ ir_projectId ins →
       getGitRepository projectId created.2 = getGitRepository projectId t).
Proof.
  intros Hs created.
  assert (gitRepositories created.2
          = gitRepositories t ++ [(currentId (core t), created.1)]) as E.
  { unfold created, createGitRepository. simpl. apply set_fresh.
    destruct Hs as [_ Hf]. unfold entries in Hf. rewrite !Forall_app in Hf.
    destruct Hf as (_ & _ & _ & _ & _ & _ & Hf). unfold pairs in Hf.
    apply Forall_fmap in Hf. eapply Forall_impl; [exact Hf|].
    simpl. intros; lia. }
  assert (repo_projectId created.1 = ir_projectId ins) as Hp by done.
  assert (repo_branch created.1 = branchOrMain (ir_branch ins)
          ∧ repo_id created.1 = currentId (core t)) as Hb by done.
  unfold getGitRepository, values. rewrite E, map_app. simpl.
  clearbody created. clear E. split; [|split].
  - intros [r Hr]. induction (map snd (gitRepositories t)) as [|r' l IH];
      [done|]. simpl in *. destruct (bool_decide _); [done|]. by apply IH.
  - intros Hn. split; [|done].
    induction (map snd (gitRepositories t)) as [|r' l IH]; simpl in *.
    + by rewrite bool_decide_eq_true_2.
    + destruct (bool_decide (repo_projectId r' = _)); [done|]. by apply IH.
  - intros projectId Hne.
    induction (map snd (gitRepositories t)) as [|r' l IH]; simpl in *.
    + rewrite bool_decide_eq_false_2; [done|]. congruence.
    + destruct (bool_decide (repo_projectId r' = _)); [done|]. by apply IH.
Qed.

End StorageProperties.

(** * Start-up of the platform *)

Module StartupFacts.
Import JsMap JsMapFacts Storage Worker Manager Startup.

Lemma get_elem_of {V} k (v : V) m : (k, v) ∈ m → is_Some (get k m).
Proof.
  induction m as [|[k' v'] m IH]; [by intros ?%elem_of_nil|].
  intros [E|H]%elem_of_cons; simpl.
  - injection E as <- <-. rewrite bool_decide_eq_true_2 by done. eauto.
  - destruct (bool_decide (k' = k)); [eauto|by apply IH].
Qed.

Section Facts.
Variable collaborators : AgentTask → HandlerRun.
Variable codeGeneratorKinds : list string.

(** A new worker has nothing queued: [start] sets the flag, writes the
    row twice and the log once. *)
Lemma start_new_eq c id s :
  start collaborators codeGeneratorKinds (new c id) s
  = (set_isRunning true (new c id),
     updateStatus "running" None (new c id)
       (log "info" "Agent started" None (new c id)
          (updateStatus "running" None (new c id) s))).
Proof. done. Qed.

Lemma startAgent_registered id m :
  is_Some (getAgent id (storage m)) → is_Some (agents m !! id) →
  startAgent collaborators codeGeneratorKinds id m = (Resolved, m).
Proof.
  intros [a Ha] Hr. unfold Manager.startAgent. rewrite Ha.
  by rewrite bool_decide_eq_true_2.
Qed.

Lemma startAgent_registry id id' m :
  id' ≠ id →
  agents (startAgent collaborators codeGeneratorKinds id m).2 !! id'
  = agents m !! id'.
Proof.
  intros Hne. unfold Manager.startAgent.
  destruct (getAgent id (storage m)) as [a|]; [|done].
  case_bool_decide; [done|].
  destruct (classOf (agent_type a)); [|done].
  destruct (Worker.start _ _ _ _) as [w s]. simpl.
  by rewrite lookup_insert_ne.
Qed.

Lemma startEach_registry ids id m :
  id ∉ ids →
  agents (startEach collaborators codeGeneratorKinds ids m).2 !! id
  = agents m !! id.
Proof.
  revert m. induction ids as [|i ids IH]; intros m Hid; [done|].
  apply not_elem_of_cons in Hid as [Hne Hid]. simpl.
  pose proof (startAgent_registry i id m Hne) as E.
  destruct (startAgent collaborators codeGeneratorKinds i m) as [[|e] m'];
    simpl in *; [|done].
  by rewrite IH.
Qed.

Lemma startEach_registered ids m :
  Forall (λ id, is_Some (getAgent id (storage m)) ∧ is_Some (agents m !! id))
         ids →
  startEach collaborators codeGeneratorKinds ids m = (Resolved, m).
Proof.
  induction 1 as [|id ids [Hg Hr] _ IH]; [done|]. simpl.
  by rewrite startAgent_registered.
Qed.

Lemma startAgent_new id a c m :
  getAgent id (storage m) = Some a → agents m !! id = None →
  classOf (agent_type a) = Some c →
  startAgent collaborators codeGeneratorKinds id m
  = (Resolved,
     {| storage := (start collaborators codeGeneratorKinds (new c id)
                          (storage m)).2;
        objects := objects m ++ [set_isRunning true (new c id)];
        agents := <[id := length (objects m)]> (agents m) |}).
Proof.
  intros Ha Hr Hc. unfold Manager.startAgent. rewrite Ha, Hr, Hc.
  by rewrite bool_decide_eq_false_2 by by intros [??].
Qed.

End Facts.
End StartupFacts.

Section StartupProperties.
Import JsMap JsMapFacts Storage Worker Manager Startup StartupFacts.

Variable collaborators : AgentTask → HandlerRun.
Variable codeGeneratorKinds : list string.


(** Comparisons of ids that arithmetic settles. *)
Ltac ids :=
  simpl;
  repeat (match goal with
          | |- context [bool_decide (?a = ?b)] =>
              first [ rewrite (bool_decide_eq_true_2 (a = b)) by lia
                    | rewrite (bool_decide_eq_false_2 (a = b)) by lia ]
          end; simpl).

(** What a row shows of an agent. *)
Definition shown (a : Agent) : Z * string * string * option string * Z :=
  (agent_id a, agent_type a, agent_status a, agent_currentTask a,
   agent_progress a).

(** X10.  On a store without agents, whatever else it holds,
    [initializeAgents] resolves; it files a code generator, an infrastructure
    and a learning agent under the next three ids, in this order, each shown
    as running, without task, at progress 0; and it registers one running
    worker of the matching class for each, with nothing queued. *)
Theorem initializeAgents_bootstrap (s : MemStorage) :
  Storage.agents s = [] →
  let c := currentId s in
  let booted := initializeAgents collaborators codeGeneratorKinds (fresh s) in
  booted.1 = Resolved
  ∧ map shown (getAgents (storage booted.2))
    = [(c, "code_generator", "running", None, 0);
       (c + 1, "infrastructure", "running", None, 0);
       (c + 2, "learning", "running", None, 0)]
  ∧ objects booted.2
    = [set_isRunning true (new CodeGeneratorAgent c);
       set_isRunning true (new InfrastructureAgent (c + 1));
       set_isRunning true (new LearningAgent (c + 2))]
  ∧ agents booted.2
    = <[c + 2 := 2%nat]> (<[c + 1 := 1%nat]> (<[c := 0%nat]> ∅))
  ∧ currentId (storage booted.2) = c + 6.
Proof.
  destruct s as [ag act logs c]. simpl. intros ->.
  unfold Startup.initializeAgents. ids.
  erewrite (startAgent_new _ _ c _ CodeGeneratorAgent);
    [|unfold getAgent; ids; reflexivity|done|done].
  simpl. unfold updateStatus, log, updateAgent, createSystemLog. ids.
  erewrite (startAgent_new _ _ (c + 1) _ InfrastructureAgent);
    [|unfold getAgent; ids; reflexivity
     |simpl; by rewrite lookup_insert_ne by lia|done].
  simpl. unfold updateStatus, log, updateAgent, createSystemLog. ids.
  erewrite (startAgent_new _ _ (c + 1 + 1) _ LearningAgent);
    [|unfold getAgent; ids; reflexivity
     |simpl; by rewrite !lookup_insert_ne by lia|done].
  simpl. unfold updateStatus, log, updateAgent, createSystemLog. ids.
  replace (c + 1 + 1) with (c + 2) by lia.
  split_and!; try done. lia.
Qed.

(** X11.  On a store with agents, [initializeAgents] changes nothing and
    resolves when every agent shown as running has a registered worker:
    nothing is created again, and agents shown as idle, working or in error
    are left as they are. *)
Theorem initializeAgents_again (m : AgentManager) :
  getAgents (storage m) ≠ [] →
  Forall (λ row, row.1 = agent_id row.2) (Storage.agents (storage m)) →
  (∀ a, a ∈ getAgents (storage m) → agent_status a = "running" →
        is_Some (agents m !! agent_id a)) →
  initializeAgents collaborators codeGeneratorKinds m = (Resolved, m).
Proof.
  intros Hne Hid Hreg. unfold Startup.initializeAgents.
  rewrite bool_decide_eq_false_2
    by (destruct (getAgents (storage m)); [done|simpl; lia]).
  apply startEach_registered, Forall_fmap, Forall_forall.
  intros a [Hs Ha]%list_elem_of_filter. simpl. split; [|by apply Hreg].
  unfold getAgents, values in Ha.
  apply list_elem_of_fmap in Ha as ([k a'] & -> & Hin).
  rewrite Forall_forall in Hid. specialize (Hid _ Hin). simpl in *. subst k.
  by apply (get_elem_of _ a').
Qed.

(** X12.  On a store with agents, the only agents for which
    [initializeAgents] registers a worker are those shown as running when
    it is called. *)
Theorem initializeAgents_only_running (m : AgentManager) (id : Z) :
  getAgents (storage m) ≠ [] →
  agents (initializeAgents collaborators codeGeneratorKinds m).2 !! id
  ≠ agents m !! id →
  ∃ a, a ∈ getAgents (storage m) ∧ agent_id a = id
       ∧ agent_status a = "running".
Proof.
  intros Hne. unfold Startup.initializeAgents.
  rewrite bool_decide_eq_false_2
    by (destruct (getAgents (storage m)); [done|simpl; lia]).
  intros Hch.
  destruct (decide (id ∈ map agent_id
                      (filter (λ agent, agent_status agent = "running")
                              (getAgents (storage m))))) as [Hin|Hout].
  - apply list_elem_of_fmap in Hin as (a & -> & [Hs Ha]%list_elem_of_filter).
    by exists a.
  - by rewrite startEach_registry in Hch.
Qed.

End StartupProperties.

(** * The manager over the whole store *)

Module PlatformFacts.
Import JsMap JsMapFacts Storage Worker Manager Tables TablesFacts Platform.

Lemma sound_projects t :
  sound t → Forall (λ kv, kv.1 < currentId (core t)) (projects t).
Proof.
  intros [_ Hf]. unfold entries in Hf. rewrite !Forall_app in Hf.
  destruct Hf as (_ & _ & _ & _ & Hf & _). unfold pairs in Hf.
  apply Forall_fmap in Hf. eapply Forall_impl; [exact Hf|]. simpl. intros; lia.
Qed.

(** The project [createProject] files for [ins] under the id [id]. *)
Definition filed (id : Z) (ins : InsertProject) : Project :=
  {| project_id := id; project_name := ip_name ins;
     project_type := ip_type ins; project_details := ip_details ins;
     project_status := "active" |}.

Lemma createProject_filed ins t :
  Forall (λ kv, kv.1 < currentId (core t)) (projects t) →
  Tables.createProject ins t
  = (filed (currentId (core t)) ins,
     set_projects (projects t ++ [(currentId (core t),
                                   filed (currentId (core t)) ins)])
                  (set_core (createOther (core t)) t)).
Proof.
  intros Hf. unfold Tables.createProject, nextId. simpl.
  by rewrite set_fresh.
Qed.

Lemma handed (a b : AgentTask) n n' :
  n = [] ∨ n = [a] → n' = [] ∨ n' = [b] → n ++ n' ⊆ [a; b].
Proof.
  intros [-> | ->] [-> | ->] x; simpl; intros H;
    repeat (apply elem_of_cons in H as [->|H]);
    try (by apply elem_of_nil in H);
    rewrite !elem_of_cons; auto.
Qed.

Section Facts.
Variable collaborators : AgentTask → HandlerRun.
Variable codeGeneratorKinds : list string.

Lemma tasks_insert ref w w' new ws :
  ws !! ref = Some w →
  executed w' ++ taskQueue w' ≡ₚ executed w ++ taskQueue w ++ new →
  flat_map (λ w, executed w ++ taskQueue w) (<[ref := w']> ws)
  ≡ₚ flat_map (λ w, executed w ++ taskQueue w) ws ++ new.
Proof.
  intros Hw Hp. rewrite insert_take_drop by by eapply lookup_lt_Some.
  rewrite <- (take_drop_middle ws ref w Hw) at 3.
  rewrite !flat_map_app. simpl. rewrite Hp. solve_Permutation.
Qed.

(** [assignTask] hands the task to one worker or to none, and touches no
    other task; the projects are not its concern. *)
Lemma assign_tasks agentType task app :
  let r := assign collaborators codeGeneratorKinds agentType task app in
  projects (store r.2) = projects (store app)
  ∧ ∃ new, tasks r.2 ≡ₚ tasks app ++ new ∧ (new = [] ∨ new = [task]).
Proof.
  unfold assign, Manager.assignTask, tasks. simpl.
  destruct (List.find _ _) as [a|];
    [|split; [done|exists []; rewrite app_nil_r; auto]].
  unfold instance. simpl.
  destruct (registry app !! agent_id a) as [ref|];
    [|split; [done|exists []; rewrite app_nil_r; auto]].
  destruct (workers app !! ref) as [w|] eqn:Hw;
    [|split; [done|exists []; rewrite app_nil_r; auto]].
  pose proof (WorkerInvariants.step_moves collaborators codeGeneratorKinds
                (AddTask task) w (core (store app))) as Hm.
  simpl in Hm. destruct (addTask _ _ _ _ _) as [w' s']. simpl in *.
  split; [done|]. exists [task]. split; [|auto].
  by apply (tasks_insert ref w).
Qed.

Lemma assign_rejected agentType task app :
  (∀ a, a ∈ getAgents (core (store app)) →
        ¬ (agent_type a = agentType ∧ agent_status a = "running")) →
  assign collaborators codeGeneratorKinds agentType task app
  = (Rejected (NoRunningAgent agentType),
     withManager (manager app) app).
Proof.
  intros H. unfold assign, Manager.assignTask. simpl.
  destruct (List.find _ _) as [a|] eqn:Hf; [|done].
  apply find_some in Hf as [Hin Ha].
  apply andb_prop in Ha as [?%String.eqb_eq ?%String.eqb_eq].
  destruct (H a); [by apply list_elem_of_In|done].
Qed.

(** *** The counter of identifiers never goes back *)

Definition grows (s s' : MemStorage) : Prop := currentId s ≤ currentId s'.

Lemma currentId_updateAgent id u s :
  currentId (updateAgent id u s).2 = currentId s.
Proof. unfold updateAgent. by destruct (get id (Storage.agents s)). Qed.

Ltac counter :=
  unfold grows in *;
  repeat first
    [ rewrite currentId_updateAgent
    | progress unfold handlerOp, updateStatus, updateProgress, log,
        Worker.createActivity
    | progress simpl ];
  try lia.

Lemma counter_handlerOp op w s0 s : grows s0 s → grows s0 (handlerOp op w s).
Proof. intros H. destruct op; counter. Qed.

Lemma counter_processQueue w s0 s :
  grows s0 s →
  grows s0 (processQueue collaborators codeGeneratorKinds w s).2.
Proof.
  intros H. unfold Worker.processQueue.
  destruct (isRunning w), (taskQueue w); counter.
Qed.

Lemma counter_afterTask e w s0 s :
  grows s0 s →
  grows s0 (afterTask collaborators codeGeneratorKinds e w s).2.
Proof.
  intros H. unfold Worker.afterTask, Worker.restOfBody.
  destruct (currentTask w), e; try apply counter_processQueue; counter.
Qed.

Lemma counter_resume i w s :
  grows s (resume collaborators codeGeneratorKinds i w s).2.
Proof.
  unfold Worker.resume. destruct (awaiting w !! i) as [r|]; [|counter].
  destruct (run_ops r); [|simpl; apply counter_handlerOp; counter].
  apply counter_afterTask. counter.
Qed.

Lemma counter_addTask t w s :
  grows s (addTask collaborators codeGeneratorKinds t w s).2.
Proof.
  unfold Worker.addTask. destruct (_ && _); [|counter].
  apply counter_processQueue. counter.
Qed.

Lemma counter_start w s :
  grows s (start collaborators codeGeneratorKinds w s).2.
Proof.
  unfold Worker.start. destruct (isRunning w); [counter|].
  apply counter_processQueue. counter.
Qed.

Lemma counter_stop w s : grows s (stop w s).2.
Proof. unfold stop. counter. Qed.

Lemma counter_perform c m :
  grows (storage m)
        (storage (Manager.perform collaborators codeGeneratorKinds c m)).
Proof.
  destruct c as [id|id|agentType task|ref i]; simpl.
  - unfold Manager.startAgent. destruct (getAgent _ _) as [a|]; [|counter].
    case_bool_decide; [counter|].
    destruct (classOf _) as [c|]; [|counter].
    pose proof (counter_start (new c id) (storage m)) as Hg.
    by destruct (start _ _ _ _).
  - unfold stopAgent. destruct (instance _ _) as [[ref w]|]; [|counter].
    pose proof (counter_stop w (storage m)) as H. by destruct (stop _ _).
  - unfold Manager.assignTask. destruct (List.find _ _); [|counter].
    destruct (instance _ _) as [[ref w]|]; [|counter].
    pose proof (counter_addTask task w (storage m)) as Hg.
    by destruct (addTask _ _ _ _ _).
  - unfold resumeAt. destruct (objects m !! ref) as [w|]; [|counter].
    pose proof (counter_resume i w (storage m)) as Hg.
    by destruct (resume _ _ _ _ _).
Qed.

(** *** What is served while a request waits *)

(** The keys of the projects lie below the counter. *)
Definition below (app : App) : Prop :=
  Forall (λ kv, kv.1 < currentId (core (store app))) (projects (store app)).

(** An event that neither deletes nor updates the project [id]. *)
Definition spares (id : Z) (e : Event) : Prop :=
  match e with
  | Store (DeleteProject id') | Store (UpdateProject id' _) => id' ≠ id
  | _ => True
  end.

Lemma keys_set {V} k (v v0 : V) m :
  get k m = Some v0 → map fst (set k v m) = map fst m.
Proof.
  induction m as [|[k' v'] m IH]; [done|]. simpl. intros Hg.
  case_bool_decide; simpl; [by subst|]. by rewrite IH.
Qed.

Lemma below_weaken (c c' : Z) (m : list (Z * Project)) :
  c ≤ c' → Forall (λ kv, kv.1 < c) m → Forall (λ kv, kv.1 < c') m.
Proof. intros Hc H. eapply Forall_impl; [exact H|]. simpl. intros kv. lia. Qed.

Lemma below_serve e app :
  below app →
  below (serve collaborators codeGeneratorKinds e app)
  ∧ currentId (core (store app))
    ≤ currentId (core (store (serve collaborators codeGeneratorKinds e app))).
Proof.
  unfold below. intros H. destruct e as [c|c]; simpl.
  - destruct c; simpl;
      try (split; [eapply below_weaken; [|exact H]|]; simpl; lia).
    + rewrite set_fresh by done. split; [|simpl; lia]. apply Forall_app. split.
      * eapply below_weaken; [|exact H]. simpl. lia.
      * repeat constructor. simpl. lia.
    + unfold updateProject.
      destruct (get id (projects (store app))) as [project|] eqn:E; [|done].
      simpl. split; [|done].
      apply (Forall_fmap fst (λ k, k < currentId (core (store app)))).
      rewrite (keys_set _ _ project) by done.
      by apply (Forall_fmap fst (λ k, k < currentId (core (store app)))).
    + split; [|done]. unfold remove. apply Forall_forall.
      intros kv [_ Hin]%list_elem_of_filter.
      rewrite Forall_forall in H. by apply H.
    + rewrite currentId_updateAgent. done.
    + unfold updateDeployment. by destruct (get id (deployments (store app))).
    + unfold updateGitRepository.
      by destruct (get id (gitRepositories (store app))).
  - pose proof (counter_perform c (manager app)) as Hc. unfold grows in Hc.
    simpl in *. split; [|done]. by eapply below_weaken.
Qed.

Lemma kept_serve id p e app :
  spares id e → id < currentId (core (store app)) →
  getProject id (store app) = Some p →
  getProject id (store (serve collaborators codeGeneratorKinds e app)) = Some p.
Proof.
  unfold getProject. intros He Hid Hp. destruct e as [c|c]; [|done].
  destruct c; simpl in *; try done.
  - rewrite get_set_ne by lia. done.
  - unfold updateProject.
    destruct (get id0 (projects (store app))); [|done]. simpl.
    by rewrite get_set_ne.
  - by rewrite get_remove_ne.
  - unfold updateDeployment. by destruct (get id0 (deployments (store app))).
  - unfold updateGitRepository.
    by destruct (get id0 (gitRepositories (store app))).
Qed.

Lemma served es : ∀ app id p,
  below app → id < currentId (core (store app)) →
  let app' := serveAll collaborators codeGeneratorKinds es app in
  below app' ∧ id < currentId (core (store app'))
  ∧ (Forall (spares id) es → getProject id (store app) = Some p →
     getProject id (store app') = Some p).
Proof.
  induction es as [|e es IH]; intros app id p Hb Hid; [done|]. simpl.
  destruct (below_serve e app Hb) as [Hb' Hc].
  destruct (IH (serve collaborators codeGeneratorKinds e app) id p Hb')
    as (H1 & H2 & H3); [lia|].
  split_and!; [done..|].
  intros [He Hes]%Forall_cons Hp. apply H3; [done|]. by apply kept_serve.
Qed.

End Facts.
End PlatformFacts.

Section PlatformProperties.
Import JsMap JsMapFacts Storage Worker Manager Tables TablesFacts.
Import Platform PlatformFacts.

Variable collaborators : AgentTask → HandlerRun.
Variable codeGeneratorKinds : list string.
Variable projectPayload : Z → ProjectData → string.
Variable terraformPayload : Z → ProjectData → string.

(** X13.  [AgentManager.createProject] files the project before it looks
    for an agent, and never takes it back: whether the call resolves or is
    rejected, the projects are those of before followed by the new one.
    When no code generator is shown as running, the call is rejected, no
    worker has got a task, and the project is there all the same. *)
Theorem createProject_no_rollback (data : ProjectData) (now now' : Z)
    (app : App) :
  sound (store app) →
  let id := currentId (core (store app)) in
  let r := createProject collaborators codeGeneratorKinds projectPayload
                         terraformPayload data now now' app in
  getProjects (store r.2)
  = getProjects (store app) ++ [filed id (pd_insert data)]
  ∧ ((∀ a, a ∈ getAgents (core (store app)) →
           ¬ (agent_type a = "code_generator" ∧ agent_status a = "running")) →
     r.1 = Rejected (NoRunningAgent "code_generator")
     ∧ workers r.2 = workers app ∧ registry r.2 = registry app).
Proof.
  intros Hs id r. subst r. unfold createProject.
  rewrite createProject_filed by by apply sound_projects. fold id.
  set (app1 := set_store _ app).
  assert (getProjects (store app1)
          = getProjects (store app) ++ [filed id (pd_insert data)]) as E1.
  { unfold getProjects, values. simpl. by rewrite map_app. }
  split.
  - pose proof (assign_tasks collaborators codeGeneratorKinds "code_generator"
                  (generateProjectTask projectPayload
                     (filed id (pd_insert data)) data now) app1) as [P1 _].
    destruct (assign _ _ "code_generator" _ app1) as [[|e] app2]; simpl in *.
    + destruct (pd_autoDeploy data).
      * pose proof (assign_tasks collaborators codeGeneratorKinds
                      "infrastructure"
                      (generateTerraformTask terraformPayload
                         (filed id (pd_insert data)) data now') app2)
          as [P2 _].
        destruct (assign _ _ "infrastructure" _ app2) as [r3 app3].
        simpl in *. unfold getProjects in *. by rewrite P2, P1.
      * simpl. unfold getProjects in *. by rewrite P1.
    + unfold getProjects in *. by rewrite P1.
  - intros Hno. rewrite assign_rejected; [done|]. exact Hno.
Qed.

(** X14.  A [POST /api/projects] that gets as far as the manager files the
    project twice: once in the project service, under the next id, and once
    in the manager, under the id that is next when the file system has
    answered, a later one, whatever the event loop has served meanwhile.
    The second is added behind the projects of that moment; the first is
    still there when nothing served meanwhile deleted or updated it.  The
    answer, when it is 201, carries the first; every task the request hands
    to a worker is made for the second. *)
Theorem postProject_files_twice (data : ProjectData) (now now' : Z)
    (meanwhile : list Event) (app : App) :
  sound (store app) →
  let id := currentId (core (store app)) in
  let first := filed id (pd_insert data) in
  let waited :=
    serveAll collaborators codeGeneratorKinds meanwhile
             (fileProject data app).2 in
  let id' := currentId (core (store waited)) in
  let second := filed id' (pd_insert data) in
  let r := postProject collaborators codeGeneratorKinds projectPayload
                       terraformPayload data true now now' meanwhile app in
  id < id'
  ∧ getProject id (store (fileProject data app).2) = Some first
  ∧ getProjects (store r.2) = getProjects (store waited) ++ [second]
  ∧ (Forall (spares id) meanwhile → getProject id (store r.2) = Some first)
  ∧ (∀ project, r.1 = Created project → project = first)
  ∧ ∃ new, tasks r.2 ≡ₚ tasks waited ++ new
           ∧ new ⊆ [generateProjectTask projectPayload second data now;
                    generateTerraformTask terraformPayload second data now'].
Proof.
  intros Hs id first waited id' second r.
  pose proof (sound_projects _ Hs) as Hb.
  assert ((fileProject data app).1 = first
          ∧ below (fileProject data app).2
          ∧ id < currentId (core (store (fileProject data app).2))
          ∧ getProject id (store (fileProject data app).2) = Some first)
    as (E1 & Hb1 & Hid1 & Hg1).
  { unfold fileProject, Tables.createProject, getProject, below. simpl.
    split_and!; [done| |lia|apply get_set_eq].
    rewrite set_fresh by done. apply Forall_app. split.
    - eapply below_weaken; [|exact Hb]. simpl. lia.
    - repeat constructor. simpl. lia. }
  destruct (served collaborators codeGeneratorKinds meanwhile
              (fileProject data app).2 id first Hb1 Hid1)
    as (Hb2 & Hid2 & Hk2).
  fold waited in Hb2, Hid2, Hk2. fold id' in Hid2.
  split; [done|]. split; [done|].
  subst r. unfold postProject.
  destruct (fileProject data app) as [project app1] eqn:Ef. simpl in *.
  subst project. fold waited.
  unfold createProject. rewrite createProject_filed by done.
  fold id' second. set (app2 := set_store _ waited).
  assert (getProjects (store app2) = getProjects (store waited) ++ [second])
    as E2 by (unfold getProjects, values; simpl; by rewrite map_app).
  assert (Forall (spares id) meanwhile →
          getProject id (store app2) = Some first) as G2.
  { intros Hsp. unfold getProject. simpl. rewrite <- set_fresh by done.
    rewrite get_set_ne by lia. by apply Hk2. }
  assert (tasks app2 = tasks waited) as T2 by done.
  pose proof (assign_tasks collaborators codeGeneratorKinds "code_generator"
                (generateProjectTask projectPayload second data now) app2)
    as (P3 & n3 & T3 & N3).
  destruct (assign _ _ "code_generator" _ app2) as [[|e] app3]; simpl in *.
  - destruct (pd_autoDeploy data).
    + pose proof (assign_tasks collaborators codeGeneratorKinds
                    "infrastructure"
                    (generateTerraformTask terraformPayload second data now')
                    app3) as (P4 & n4 & T4 & N4).
      destruct (assign _ _ "infrastructure" _ app3) as [[|e] app4];
        simpl in *; unfold getProjects, getProject in *; rewrite P4, P3.
      all: (split; [done|]); (split; [done|]); (split; [congruence|]).
      all: exists (n3 ++ n4); (split; [by rewrite T4, T3, T2, app_assoc|]).
      all: by apply handed.
    + simpl. unfold getProjects, getProject in *. rewrite P3.
      split; [done|]. split; [done|].
      split; [congruence|]. exists n3. split; [by rewrite T3, T2|].
      rewrite <- (app_nil_r n3). apply handed; auto.
  - unfold getProjects, getProject in *. rewrite P3. split; [done|].
    split; [done|]. split; [done|]. exists n3. split; [by rewrite T3, T2|].
    rewrite <- (app_nil_r n3). apply handed; auto.
Qed.

End PlatformProperties.

(** * An agent at work and [assignTask] *)

Module BusyFacts.
Import JsMap JsMapFacts Storage Worker Manager.

Lemma get_filed {V} k (v : V) m :
  NoDup (map fst m) → (k, v) ∈ m → get k m = Some v.
Proof.
  induction m as [|[k' v'] m IH]; simpl; [by intros _ ?%elem_of_nil|].
  intros [Hk Hn]%NoDup_cons [E|Hin]%elem_of_cons.
  - injection E as <- <-. by rewrite bool_decide_eq_true_2.
  - rewrite bool_decide_eq_false_2; [by apply IH|].
    intros <-. apply Hk. apply list_elem_of_fmap. by exists (k', v).
Qed.

(** After [set], the map holds the new entry, and the old entries of the
    other keys. *)
Lemma elem_of_set {V} k (v : V) k' v' m :
  NoDup (map fst m) → (k', v') ∈ set k v m →
  (k' = k ∧ v' = v) ∨ (k' ≠ k ∧ (k', v') ∈ m).
Proof.
  induction m as [|[k0 v0] m IH]; simpl.
  - intros _ [E|?%elem_of_nil]%elem_of_cons; [|done].
    injection E as -> ->. by left.
  - intros [Hk Hn]%NoDup_cons. case_bool_decide as E.
    + subst k0. intros [E|Hin]%elem_of_cons.
      * injection E as -> ->. by left.
      * right. split; [|by apply list_elem_of_further].
        intros ->. apply Hk. apply list_elem_of_fmap. by exists (k, v').
    + intros [E'|Hin]%elem_of_cons.
      * injection E' as -> ->. right. split; [done|apply list_elem_of_here].
      * destruct (IH Hn Hin) as [?|[? ?]]; [by left|right].
        split; [done|by apply list_elem_of_further].
Qed.

Lemma find_absent {A} (f : A → bool) l :
  (∀ x, x ∈ l → f x = false) → List.find f l = None.
Proof.
  induction l as [|x l IH]; [done|]. intros H. simpl.
  rewrite (H x) by apply list_elem_of_here. apply IH.
  intros y Hy. by apply H, list_elem_of_further.
Qed.

End BusyFacts.

Section BusyProperties.
Import JsMap JsMapFacts Storage Worker Manager QueueOrder BusyFacts.

Variable collaborators : AgentTask → HandlerRun.
Variable codeGeneratorKinds : list string.

(** X15.  The only agent of a type is shown as running, and its worker,
    registered and running, executes nothing.  A task assigned to the type
    is accepted, and the worker takes a task at once, which shows the agent
    as working; from then on [assignTask] for the type is rejected, and
    the rejected task is in no queue: the manager has changed nothing. *)
Theorem working_agent_refuses (agentType : string) (task next : AgentTask)
    (m : AgentManager) (a : Agent) (ref : nat) (w : BaseAgent) :
  NoDup (map fst (Storage.agents (storage m))) →
  Forall (λ row, row.1 = agent_id row.2) (Storage.agents (storage m)) →
  target agentType m = Some a →
  (∀ a', a' ∈ getAgents (storage m) → agent_type a' = agentType →
         agent_id a' = agent_id a) →
  instance (agent_id a) m = Some (ref, w) →
  agentId w = agent_id a → isRunning w = true → currentTask w = None →
  let assigned :=
    assignTask collaborators codeGeneratorKinds agentType task m in
  assigned.1 = Resolved
  ∧ agent_status <$> getAgent (agent_id a) (storage assigned.2)
    = Some "working"
  ∧ assignTask collaborators codeGeneratorKinds agentType next assigned.2
    = (Rejected (NoRunningAgent agentType), assigned.2).
Proof.
  intros Hn Hid Ht Hone Hi Hw Hr Hc assigned. unfold target in Ht.
  pose proof Ht as Hin. apply find_some in Hin as [Hin Hf].
  apply andb_prop in Hf as [Hty%String.eqb_eq Hst%String.eqb_eq].
  apply list_elem_of_In in Hin. unfold getAgents, values in Hin.
  apply list_elem_of_fmap in Hin as ([k a0] & -> & Hin). simpl in *.
  assert (k = agent_id a0) as ->.
  { rewrite Forall_forall in Hid. apply (Hid _ Hin). }
  assert (get (agent_id a0) (Storage.agents (storage m)) = Some a0) as Hg
    by by apply get_filed.
  assert (∃ t0 w',
    assigned
    = (Resolved,
       {| storage :=
            log "info" ("Starting task: " +:+ task_type t0) None w
              (updateStatus "working" (Some (task_type t0)) w (storage m));
          objects := <[ref := w']> (objects m);
          agents := agents m |})) as (t0 & w' & ->).
  { subst assigned. unfold Manager.assignTask. rewrite Ht, Hi.
    unfold Worker.addTask. simpl. rewrite Hr, Hc. simpl.
    unfold Worker.processQueue. simpl. rewrite Hr.
    pose proof (sort_perm (taskQueue w ++ [task])) as Hp.
    destruct (Worker.sort byPriority (taskQueue w ++ [task])) as [|t0 q].
    { apply Permutation_nil_l in Hp. by destruct (taskQueue w). }
    simpl. eauto. }
  simpl. unfold log, updateStatus, updateAgent, getAgent. rewrite Hw, Hg.
  simpl. split; [done|]. split; [by rewrite get_set_eq|].
  unfold Manager.assignTask. simpl. rewrite find_absent; [done|].
  intros a' Ha'. unfold getAgents, values in Ha'. simpl in Ha'.
  apply list_elem_of_fmap in Ha' as ([k' a''] & -> & Ha'). simpl.
  apply elem_of_set in Ha' as [[-> ->]|[Hne Ha']]; [| |done].
  - simpl. by rewrite andb_false_r.
  - apply andb_false_intro1, String.eqb_neq. intros Hty'.
    apply Hne. rewrite Forall_forall in Hid.
    rewrite (Hid _ Ha' : k' = agent_id a'').
    apply Hone; [|done]. unfold getAgents, values.
    apply list_elem_of_fmap. by exists (k', a'').
Qed.

End BusyProperties.

(** * Tasks never wait *)

Module Dispatch.
Import JsMap JsMapFacts Storage Worker Manager StorageFacts Registry BusyFacts.

(** The status the row of agent [id] shows. *)
Definition status (id : Z) (s : MemStorage) : option string :=
  agent_status <$> getAgent id s.

(** Key and id of every row of the agents. *)
Definition rows (s : MemStorage) : list (Z * Z) :=
  TablesFacts.pairs agent_id (Storage.agents s).

(** An effect that writes no status. *)
Definition quiet (s s' : MemStorage) : Prop :=
  rows s' = rows s ∧ ∀ id, status id s' = status id s.

(** An effect that writes no status but that of agent [id]. *)
Definition own (id : Z) (s s' : MemStorage) : Prop :=
  rows s' = rows s ∧ ∀ id', id' ≠ id → status id' s' = status id' s.

Lemma quiet_refl s : quiet s s.
Proof. by split. Qed.

Lemma quiet_trans s1 s2 s3 : quiet s1 s2 → quiet s2 s3 → quiet s1 s3.
Proof.
  intros [R1 S1] [R2 S2]. split; [by rewrite R2|].
  intros id. by rewrite S2.
Qed.

Lemma quiet_own id s s' : quiet s s' → own id s s'.
Proof. intros [R S]. split; [done|]. intros id' _. apply S. Qed.

Lemma own_trans id s1 s2 s3 : own id s1 s2 → own id s2 s3 → own id s1 s3.
Proof.
  intros [R1 S1] [R2 S2]. split; [by rewrite R2|].
  intros id' Hne. by rewrite S2, S1.
Qed.

Lemma rows_updateAgent id u s : rows (updateAgent id u s).2 = rows s.
Proof.
  unfold rows, updateAgent.
  destruct (get id (Storage.agents s)) as [a|] eqn:E; [|done]. simpl.
  by apply (TablesFacts.pairs_update _ _ _ a).
Qed.

Lemma status_updateAgent id id' u s :
  status id' (updateAgent id u s).2
  = if bool_decide (id = id')
    then (λ st, default st (upd_status u)) <$> status id' s
    else status id' s.
Proof.
  unfold status. rewrite getAgent_updateAgent.
  case_bool_decide; [|done]. by destruct (getAgent id' s).
Qed.

Lemma quiet_updateProgress p w s : quiet s (updateProgress p w s).
Proof.
  unfold updateProgress. split; [apply rows_updateAgent|].
  intros id. rewrite status_updateAgent. case_bool_decide; [|done].
  by destruct (status id s).
Qed.

Lemma quiet_log level message metadata w s :
  quiet s (log level message metadata w s).
Proof. by split. Qed.

Lemma quiet_handlerOp op w s : quiet s (handlerOp op w s).
Proof. destruct op; simpl; [by split|apply quiet_updateProgress|by split..]. Qed.

Lemma own_updateStatus st ct w s :
  own (agentId w) s (updateStatus st ct w s).
Proof.
  unfold updateStatus. split; [apply rows_updateAgent|].
  intros id' Hne. rewrite status_updateAgent.
  by rewrite bool_decide_eq_false_2.
Qed.

Lemma status_updateStatus st ct w s :
  st ≠ "running" →
  status (agentId w) (updateStatus st ct w s) ≠ Some "running".
Proof.
  intros Hst. unfold updateStatus. rewrite status_updateAgent.
  rewrite bool_decide_eq_true_2 by done.
  destruct (status (agentId w) s); simpl; congruence.
Qed.

Section Dispatch.
Variable collaborators : AgentTask → HandlerRun.
Variable codeGeneratorKinds : list string.

(** A move of a handler in flight, the queue being empty: it writes no
    status and takes no task, or it ends the loop of a running worker. *)
Lemma resume_spec i w s :
  taskQueue w = [] →
  let ws := resume collaborators codeGeneratorKinds i w s in
  taskQueue ws.1 = [] ∧ rows ws.2 = rows s
  ∧ ((quiet s ws.2 ∧ (is_Some (currentTask ws.1) → is_Some (currentTask w)))
     ∨ (isRunning w = true ∧ own (agentId w) s ws.2
        ∧ currentTask ws.1 = None)).
Proof.
  intros Hq. unfold Worker.resume.
  destruct (awaiting w !! i) as [r|];
    [|split_and!; [done..|left; split; [apply quiet_refl|done]]].
  destruct (run_ops r) as [|op ops]; simpl.
  - unfold Worker.afterTask, Worker.restOfBody, Worker.processQueue. simpl.
    destruct (currentTask w) as [cur|] eqn:Hc; [destruct (isRunning w) eqn:Hr|];
      destruct (run_end r) as [|message]; simpl; rewrite ?Hq, ?Hr; simpl.
    all: split_and!; [done|..].
    all: repeat match goal with
         | |- rows (updateStatus _ _ _ _) = _ =>
             rewrite (proj1 (own_updateStatus _ _ _ _))
         | |- rows (updateProgress _ _ _) = _ =>
             rewrite (proj1 (quiet_updateProgress _ _ _))
         | |- rows (log _ _ _ _ _) = _ =>
             rewrite (proj1 (quiet_log _ _ _ _ _))
         end; try done.
    1,2: right; split_and!; [done| |done].
    3,4,5,6: left; split; [|by intros [? ?]].
    1,2: match goal with
         | |- own _ _ (updateStatus ?st ?ct ?w' ?s') =>
             apply (own_trans _ _ s'); [|exact (own_updateStatus st ct w' s')]
         end; apply quiet_own.
    all: repeat first
           [ apply quiet_refl
           | eapply quiet_trans; [|apply quiet_updateProgress]
           | apply quiet_log ].
  - split_and!; [done|apply quiet_handlerOp|left].
    split; [apply quiet_handlerOp|done].
Qed.

(** [addTask] on a running worker with nothing in hand and nothing
    queued: the task is taken at once, and the agent shown as working. *)
Lemma addTask_spec t w s :
  taskQueue w = [] → isRunning w = true → currentTask w = None →
  let ws := addTask collaborators codeGeneratorKinds t w s in
  taskQueue ws.1 = [] ∧ own (agentId w) s ws.2
  ∧ status (agentId w) ws.2 ≠ Some "running".
Proof.
  intros Hq Hr Hc. unfold Worker.addTask. simpl. rewrite Hr, Hc, Hq. simpl.
  unfold Worker.processQueue. simpl. rewrite Hr. simpl.
  split_and!; [done| |].
  - eapply own_trans; [|apply quiet_own, quiet_log].
    apply (own_updateStatus "working" _ w).
  - apply (status_updateStatus "working" _ w). done.
Qed.

Lemma start_spec c id s :
  let ws := start collaborators codeGeneratorKinds (new c id) s in
  taskQueue ws.1 = [] ∧ currentTask ws.1 = None ∧ own id s ws.2.
Proof.
  simpl. split_and!; [done..|].
  eapply own_trans; [apply (own_updateStatus "running" None (new c id))|].
  eapply own_trans; [apply quiet_own, quiet_log|].
  apply (own_updateStatus "running" None (new c id)).
Qed.

Lemma stop_own w s : own (agentId w) s (stop w s).2.
Proof.
  unfold stop. simpl.
  eapply own_trans; [apply (own_updateStatus "idle" None w)|].
  apply quiet_own, quiet_log.
Qed.

(** What holds of the manager at all times: registry and workers agree,
    the rows are filed under their ids, no task waits in a queue, and an
    agent whose worker has a task in hand is not shown as running. *)
Record dispatching (m : AgentManager) : Prop := {
  d_consistent : consistent m;
  d_keys : NoDup (map fst (rows (storage m)));
  d_ids : Forall (λ p, p.1 = p.2) (rows (storage m));
  d_queues : Forall (λ w, taskQueue w = []) (objects m);
  d_busy : ∀ id ref w,
    agents m !! id = Some ref → objects m !! ref = Some w →
    is_Some (currentTask w) → status id (storage m) ≠ Some "running"
}.

Lemma dispatching_fresh s :
  NoDup (map fst (Storage.agents s)) →
  Forall (λ row, row.1 = agent_id row.2) (Storage.agents s) →
  dispatching (fresh s).
Proof.
  intros Hn Hid. split; simpl.
  - apply consistent_fresh.
  - unfold rows, TablesFacts.pairs. by rewrite map_map.
  - unfold rows, TablesFacts.pairs. by apply Forall_fmap.
  - constructor.
  - intros id ref w H. by rewrite lookup_empty in H.
Qed.

(** A method of the worker at [ref] that is neither [start] nor [stop]. *)
Lemma dispatching_update m ref w0 ws :
  dispatching m → objects m !! ref = Some w0 →
  same_worker w0 (storage m) ws → taskQueue ws.1 = [] →
  rows ws.2 = rows (storage m) →
  (quiet (storage m) ws.2
   ∧ (is_Some (currentTask ws.1) → is_Some (currentTask w0)))
  ∨ (isRunning w0 = true ∧ own (agentId w0) (storage m) ws.2
     ∧ (is_Some (currentTask ws.1) →
        status (agentId w0) ws.2 ≠ Some "running")) →
  dispatching {| storage := ws.2; objects := <[ref := ws.1]> (objects m);
                 agents := agents m |}.
Proof.
  intros [Hc Hk Hi Hq Hb] Ho Hsame Hq' Hrows Hcases. split; simpl.
  - by eapply consistent_update.
  - by rewrite Hrows.
  - by rewrite Hrows.
  - by apply Forall_insert.
  - intros id ref' w Hreg Hw Hcur.
    destruct (registered_running _ Hc id ref' Hreg) as (w1 & Hw1 & Hid1 & Hr1).
    destruct (decide (ref' = ref)) as [->|Hne].
    + rewrite list_lookup_insert_eq in Hw by by eapply lookup_lt_Some.
      simplify_eq. destruct Hcases as [[[_ Hst] Hcur']|(_ & _ & Hst)].
      * rewrite Hst. by apply (Hb _ ref w0), Hcur'.
      * by apply Hst.
    + rewrite list_lookup_insert_ne in Hw by done.
      destruct Hcases as [[[_ Hst] _]|(Hr0 & [_ Hst] & _)].
      * rewrite Hst. by apply (Hb id ref' w).
      * rewrite Hst; [by apply (Hb id ref' w)|].
        intros ->. pose proof (running_registered _ Hc ref w0 Ho Hr0) as Hreg0.
        rewrite Hreg in Hreg0. by simplify_eq.
Qed.

Lemma dispatching_startAgent id m :
  dispatching m →
  dispatching (startAgent collaborators codeGeneratorKinds id m).2.
Proof.
  intros Hm. pose proof Hm as [Hc Hk Hi Hq Hb].
  pose proof (consistent_startAgent collaborators codeGeneratorKinds id m Hc)
    as Hc'.
  unfold Manager.startAgent in *.
  destruct (getAgent id (storage m)) as [agentData|]; [|done].
  case_bool_decide as Hreg; [done|].
  destruct (classOf (agent_type agentData)) as [c|]; [|done].
  destruct (start_spec c id (storage m)) as (Hq' & Hcur & [Hrows Hst]).
  destruct (start collaborators codeGeneratorKinds (new c id) (storage m))
    as [w s]. simpl in *.
  split; simpl; [done|by rewrite Hrows|by rewrite Hrows| |].
  - apply Forall_app. split; [done|]. by repeat constructor.
  - intros id' ref w' Hreg' Hw Hcur'.
    apply lookup_insert_Some in Hreg' as [[<- <-]|[Hne Hreg']].
    + rewrite list_lookup_middle in Hw by done. simplify_eq.
      rewrite Hcur in Hcur'. by destruct Hcur'.
    + destruct (registered_running _ Hc id' ref Hreg')
        as (w1 & Hw1 & _ & _).
      rewrite lookup_app_l in Hw by by eapply lookup_lt_Some.
      rewrite Hst by done. by apply (Hb id' ref w').
Qed.

Lemma dispatching_stopAgent id m :
  dispatching m → dispatching (stopAgent id m).2.
Proof.
  intros Hm. pose proof Hm as [Hc Hk Hi Hq Hb].
  pose proof (consistent_stopAgent id m Hc) as Hc'.
  unfold stopAgent, instance in *.
  destruct (agents m !! id) as [ref|] eqn:Hreg; [|done].
  destruct (objects m !! ref) as [agent|] eqn:Ho; [|done].
  destruct (registered_running _ Hc id ref Hreg) as (w0 & Hw0 & Hid0 & _).
  simplify_eq. destruct (stop_own agent (storage m)) as [Hrows Hst].
  simpl in *. split; simpl; [done|by rewrite Hrows|by rewrite Hrows| |].
  - apply Forall_insert; [done|].
    by apply (Forall_lookup_1 _ _ _ _ Hq) in Ho.
  - intros id' ref' w Hreg' Hw Hcur.
    apply lookup_delete_Some in Hreg' as [Hne Hreg'].
    destruct (registered_running _ Hc id' ref' Hreg')
      as (w1 & Hw1 & Hid1 & _).
    assert (ref' ≠ ref) as Hr by (intros ->; simplify_eq).
    rewrite list_lookup_insert_ne in Hw by done.
    rewrite Hst by done. by apply (Hb id' ref' w).
Qed.

Lemma dispatching_assignTask agentType task m :
  dispatching m →
  dispatching (assignTask collaborators codeGeneratorKinds
                          agentType task m).2.
Proof.
  intros Hm. pose proof Hm as [Hc Hk Hi Hq Hb]. unfold Manager.assignTask.
  destruct (List.find _ _) as [a|] eqn:Hf; [|done].
  destruct (instance (agent_id a) m) as [[ref w]|] eqn:Hin; [|done].
  unfold instance in Hin.
  destruct (agents m !! agent_id a) as [ref'|] eqn:Hreg; [|done].
  destruct (objects m !! ref') as [w'|] eqn:Ho; [|done]. simplify_eq.
  destruct (registered_running _ Hc _ ref Hreg) as (w0 & Hw0 & Hid0 & Hr0).
  assert (w0 = w) as -> by congruence. clear Hw0.
  apply find_some in Hf as [Ha Hrun].
  apply andb_prop in Hrun as [_ Hrun%String.eqb_eq].
  apply list_elem_of_In in Ha. unfold getAgents, values in Ha.
  apply list_elem_of_fmap in Ha as ([k a0] & -> & Ha). simpl in *.
  assert (k = agent_id a0) as ->.
  { rewrite Forall_forall in Hi. apply (Hi (k, agent_id a0)).
    unfold rows, TablesFacts.pairs. apply list_elem_of_fmap.
    by exists (k, a0). }
  assert (status (agent_id a0) (storage m) = Some "running") as Hst.
  { unfold status, getAgent. rewrite (get_filed _ a0); [by rewrite <- Hrun| |done].
    unfold rows, TablesFacts.pairs in Hk. by rewrite map_map in Hk. }
  assert (currentTask w = None) as Hcur.
  { destruct (currentTask w) as [cur|] eqn:E; [|done].
    destruct (Hb _ ref w Hreg Ho); [by rewrite E|done]. }
  assert (taskQueue w = []) as Hq0
    by by apply (Forall_lookup_1 _ _ _ _ Hq) in Ho.
  destruct (addTask_spec task w (storage m) Hq0 Hr0 Hcur)
    as (Hq' & Hown & Hst').
  pose proof (dispatching_update m ref w
                (addTask collaborators codeGeneratorKinds task w (storage m))
                Hm Ho (addTask_same _ _ _ _ _) Hq' (proj1 Hown)) as H.
  destruct (addTask collaborators codeGeneratorKinds task w (storage m))
    as [w1 s1]. apply H. right. by split_and!.
Qed.

(** In such a state [assignTask] has three ways to end: rejected; resolved
    with nothing done, no worker being registered for the agent it found;
    or resolved with the task taken by the worker at once. *)
Lemma assignTask_cases agentType task m :
  dispatching m →
  let r := assignTask collaborators codeGeneratorKinds agentType task m in
  r = (Rejected (NoRunningAgent agentType), m)
  ∨ r = (Resolved, m)
  ∨ (r.1 = Resolved
     ∧ ∃ ref w,
         objects m !! ref = Some w
         ∧ isRunning w = true ∧ currentTask w = None ∧ taskQueue w = []
         ∧ objects r.2
           = <[ref := call_executeTask task
                        (executeTask collaborators codeGeneratorKinds
                                     (class w) task)
                        (set_currentTask (Some task) w)]> (objects m)).
Proof.
  intros [Hc Hk Hi Hq Hb]. unfold Manager.assignTask.
  destruct (List.find _ _) as [a|] eqn:Hf; [|by left].
  destruct (instance (agent_id a) m) as [[ref w]|] eqn:Hin; [|by right; left].
  right. right. unfold instance in Hin.
  destruct (agents m !! agent_id a) as [ref'|] eqn:Hreg; [|done].
  destruct (objects m !! ref') as [w'|] eqn:Ho; [|done]. simplify_eq.
  destruct (registered_running _ Hc _ ref Hreg) as (w0 & Hw0 & Hid0 & Hr0).
  assert (w0 = w) as -> by congruence. clear Hw0.
  apply find_some in Hf as [Ha Hrun].
  apply andb_prop in Hrun as [_ Hrun%String.eqb_eq].
  apply list_elem_of_In in Ha. unfold getAgents, values in Ha.
  apply list_elem_of_fmap in Ha as ([k a0] & -> & Ha). simpl in *.
  assert (k = agent_id a0) as ->.
  { rewrite Forall_forall in Hi. apply (Hi (k, agent_id a0)).
    unfold rows, TablesFacts.pairs. apply list_elem_of_fmap.
    by exists (k, a0). }
  assert (status (agent_id a0) (storage m) = Some "running") as Hst.
  { unfold status, getAgent.
    rewrite (get_filed _ a0); [by rewrite <- Hrun| |done].
    unfold rows, TablesFacts.pairs in Hk. by rewrite map_map in Hk. }
  assert (currentTask w = None) as Hcur.
  { destruct (currentTask w) as [cur|] eqn:E; [|done].
    destruct (Hb _ ref w Hreg Ho); [by rewrite E|done]. }
  assert (taskQueue w = []) as Hq0
    by by apply (Forall_lookup_1 _ _ _ _ Hq) in Ho.
  unfold Worker.addTask, Worker.processQueue. simpl.
  rewrite Hr0, Hcur, Hq0. simpl.
  split; [done|]. exists ref, w. split_and!; try done.
  f_equal. destruct w. simpl in *. by subst.
Qed.

Lemma dispatching_resumeAt ref i m :
  dispatching m →
  dispatching (resumeAt collaborators codeGeneratorKinds ref i m).
Proof.
  intros Hm. pose proof Hm as [Hc Hk Hi Hq Hb]. unfold resumeAt.
  destruct (objects m !! ref) as [w|] eqn:Ho; [|done].
  assert (taskQueue w = []) as Hq0
    by by apply (Forall_lookup_1 _ _ _ _ Hq) in Ho.
  destruct (resume_spec i w (storage m) Hq0) as (Hq' & Hrows & Hcases).
  pose proof (dispatching_update m ref w
                (resume collaborators codeGeneratorKinds i w (storage m))
                Hm Ho (resume_same _ _ _ _ _) Hq' Hrows) as H.
  destruct (resume collaborators codeGeneratorKinds i w (storage m))
    as [w1 s1]. apply H.
  destruct Hcases as [?|(? & ? & Hcur)]; [by left|right].
  split_and!; [done..|]. simpl in *. rewrite Hcur. by intros [? ?].
Qed.

Lemma dispatching_performAll cs : ∀ m,
  dispatching m →
  dispatching (performAll collaborators codeGeneratorKinds cs m).
Proof.
  induction cs as [|c cs IH]; intros m Hm; [done|].
  apply IH. destruct c; simpl.
  - by apply dispatching_startAgent.
  - by apply dispatching_stopAgent.
  - by apply dispatching_assignTask.
  - by apply dispatching_resumeAt.
Qed.

End Dispatch.
End Dispatch.

Section DispatchProperties.
Import Storage Worker Manager Dispatch.

Variable collaborators : AgentTask → HandlerRun.
Variable codeGeneratorKinds : list string.

(** X18.  Through the manager no task ever waits.  In a process that
    starts with a store whose agents are filed under their ids, after any
    calls of [startAgent], [stopAgent] and [assignTask], each run to its end
    before the next, and any moves of the handlers in flight, the queue of
    every worker is empty, and an agent whose registered worker has a task
    in hand is not shown as running: [assignTask] passes a task only to a
    worker that takes it at once, so that the priority of a task never
    decides when it runs. *)
Theorem manager_never_queues (s : MemStorage) (cs : list Call) :
  NoDup (map fst (Storage.agents s)) →
  Forall (λ row, row.1 = agent_id row.2) (Storage.agents s) →
  let m := performAll collaborators codeGeneratorKinds cs (fresh s) in
  Forall (λ w, taskQueue w = []) (objects m)
  ∧ ∀ id ref w,
      agents m !! id = Some ref → objects m !! ref = Some w →
      is_Some (currentTask w) →
      agent_status <$> getAgent id (storage m) ≠ Some "running".
Proof.
  intros Hn Hid m.
  destruct (dispatching_performAll collaborators codeGeneratorKinds cs
              (fresh s) (dispatching_fresh s Hn Hid)) as [_ _ _ Hq Hb].
  split; [exact Hq|exact Hb].
Qed.

(** X19.  In such a process [assignTask] never leaves a task waiting.
    It ends in one of three ways: rejected, the manager unchanged; resolved
    with the manager unchanged, no worker being registered for the agent it
    found, and the task is gone; or resolved with the task taken at once by
    a running worker that had nothing in hand and nothing queued. *)
Theorem assignTask_starts_or_drops (s : MemStorage) (cs : list Call)
    (agentType : string) (task : AgentTask) :
  NoDup (map fst (Storage.agents s)) →
  Forall (λ row, row.1 = agent_id row.2) (Storage.agents s) →
  let m := performAll collaborators codeGeneratorKinds cs (fresh s) in
  let r := assignTask collaborators codeGeneratorKinds agentType task m in
  r = (Rejected (NoRunningAgent agentType), m)
  ∨ r = (Resolved, m)
  ∨ (r.1 = Resolved
     ∧ ∃ ref w,
         objects m !! ref = Some w
         ∧ isRunning w = true ∧ currentTask w = None ∧ taskQueue w = []
         ∧ objects r.2
           = <[ref := call_executeTask task
                        (executeTask collaborators codeGeneratorKinds
                                     (class w) task)
                        (set_currentTask (Some task) w)]> (objects m)).
Proof.
  intros Hn Hid m.
  apply assignTask_cases, dispatching_performAll. by apply dispatching_fresh.
Qed.

End DispatchProperties.

(** * The handlers of [InfrastructureAgent] *)

Module HandlersFacts.
Import JsMap JsMapFacts Storage Worker Tables TablesFacts Handlers.

Lemma set_set {V} k (v v' : V) m : set k v' (set k v m) = set k v' m.
Proof.
  induction m as [|[k0 v0] m IH]; simpl.
  - by rewrite bool_decide_eq_true_2.
  - case_bool_decide as E; simpl.
    + by rewrite bool_decide_eq_true_2.
    + rewrite bool_decide_eq_false_2 by done. by rewrite IH.
Qed.

Lemma sound_deployments t :
  sound t → Forall (λ kv, kv.1 < currentId (core t)) (deployments t).
Proof.
  intros [_ Hf]. unfold entries in Hf. rewrite !Forall_app in Hf.
  destruct Hf as (_ & _ & _ & _ & _ & Hf & _). unfold pairs in Hf.
  apply Forall_fmap in Hf. eapply Forall_impl; [exact Hf|]. simpl. intros; lia.
Qed.

(** A record updated right after its creation. *)
Lemma set_created {V} k (v v' : V) m :
  Forall (λ kv, kv.1 < k) m →
  get k (set k v m) = Some v ∧ set k v' (set k v m) = m ++ [(k, v')].
Proof.
  intros H. split; [apply get_set_eq|]. by rewrite set_set, set_fresh.
Qed.

End HandlersFacts.

Section HandlersProperties.
Import JsMap JsMapFacts Storage Worker Tables TablesFacts DrainLoop.
Import Handlers HandlersFacts.

(** X16.  Whatever the services end with, [generateTerraform] reports
    20, 50, 80, 100 as far as it gets; it reports 100 exactly when it
    returns, and records its activity exactly then, once; when the
    validation finds the files invalid it throws after 80, with the errors
    found in its message. *)
Theorem generateTerraform_reports (task : InfrastructureTask)
    (terraformConfig terraformPath : Outcome unit)
    (validation : Outcome ValidationResult) (found : list string) :
  let r := generateTerraform task terraformConfig terraformPath validation in
  let rejected :=
    generateTerraform task (Fulfilled ()) (Fulfilled ())
      (Fulfilled {| valid := false; errors := found |}) in
  progress (run_ops r) `prefix_of` [20; 50; 80; 100]
  ∧ (run_end r = Returns ↔ progress (run_ops r) = [20; 50; 80; 100])
  ∧ (run_end r = Returns ↔ recorded (run_ops r) = ["terraform_generated"])
  ∧ (run_end r = Returns ∨ recorded (run_ops r) = [])
  ∧ (run_end r = Returns
     ↔ ∃ validated, validation = Fulfilled validated ∧ valid validated = true
                    ∧ terraformConfig = Fulfilled ()
                    ∧ terraformPath = Fulfilled ())
  ∧ progress (run_ops rejected) = [20; 50; 80]
  ∧ run_end rejected
    = Throws ("Terraform validation failed: " +:+ String.concat ", " found).
Proof.
  destruct terraformConfig as [[]|], terraformPath as [[]|],
    validation as [[[] errs]|]; simpl.
  all: split_and!; try done; try (by right); try (by left).
  all: try (by eexists [_]); try (by eexists [_; _]);
    try (by eexists [_; _; _]).
  all: try (split; [done|by intros (? & ? & ? & ? & ?)]).
  all: try (split; [done|by intros (? & [=<-] & ? & ? & ?)]).
  all: try (split; [by eauto|done]).
Qed.

(** X17.  [deployInfrastructure], its effects taken one after the other,
    leaves one more deployment, filed after the log record of its first
    line: planned, with the plan, when the handler returns, failed when it
    throws, and never deploying.  The other deployments are as before.  On
    the agents, logs and activities its effects are those of a handler run
    that creates one record elsewhere. *)
Theorem deployInfrastructure_settles (task : InfrastructureTask)
    (plan : Outcome string) (w : BaseAgent) (t : Tables) :
  sound t →
  let run := deployInfrastructure task plan in
  let t' := steps w run.1 t in
  getDeployments t'
  = getDeployments t
    ++ [{| deployment_id := currentId (core t) + 1;
           deployment_projectId := projectId task;
           deployment_environment := environment task;
           deployment_status := if throws run.2 then "failed" else "planned";
           deployment_url := None;
           deployment_terraformState :=
             match plan with Fulfilled p => Some p | Failed _ => None end |}]
  ∧ run.2 = match plan with
            | Fulfilled _ => Returns
            | Failed message => Throws message
            end
  ∧ core t' = handlerOps (seen run.1) w (core t).
Proof.
  intros Hs. pose proof (sound_deployments t Hs) as Hd.
  assert (Forall (λ kv, kv.1 < currentId (core t) + 1) (deployments t)) as Hd'.
  { eapply Forall_impl; [exact Hd|]. simpl. intros; lia. }
  assert (∀ p s, currentId (updateProgress p w s) = currentId s) as Hc
    by (intros; unfold updateProgress, updateAgent; by destruct (get _ _)).
  destruct plan as [p|message]; unfold steps; simpl.
  all: unfold updateDeployment; simpl; rewrite !Hc; simpl.
  all: rewrite get_set_eq; simpl.
  all: rewrite set_set, set_fresh by done.
  all: unfold getDeployments, values; simpl; rewrite map_app; simpl.
  all: by split_and!.
Qed.

(** The handler runs of the samples are runs of these handlers. *)
Lemma sample_runs :
  Sample.terraformGenerated
  = generateTerraform
      {| projectId := 7; cloudProvider := "aws";
         environment := "development" |}
      (Fulfilled ()) (Fulfilled ())
      (Fulfilled {| valid := true; errors := [] |})
  ∧ Sample.terraformRejected
    = generateTerraform
        {| projectId := 7; cloudProvider := "aws";
           environment := "development" |}
        (Fulfilled ()) (Fulfilled ())
        (Fulfilled {| valid := false; errors := ["missing provider"] |})
  ∧ Sample.resourcesMonitored = monitorResources 3.
Proof. by vm_compute. Qed.

End HandlersProperties.

(** * The further properties on sample data *)

Section Instances.
Import JsMap Storage Worker Manager Tables TablesFacts StorageFacts.
Import QueueOrder DrainLoop WorkerInvariants Startup Platform PlatformFacts.
Import Handlers Sample SampleManager SamplePlatform.

Ltac fresh_ids :=
  unfold fresh_ids; vm_compute;
  repeat first [apply List.Forall_nil | apply List.Forall_cons; [reflexivity|]].

Ltac evaluated H := vm_compute in H; vm_compute; exact H.
Ltac evaluate := vm_compute; first [reflexivity | lia].

(** The ids of a store, checked one by one. *)
Ltac sound :=
  split;
  [ apply (bool_decide_unpack _); vm_compute; exact I
  | vm_compute;
    repeat first [ apply List.Forall_nil
                 | apply List.Forall_cons; [split; reflexivity|] ] ].

Lemma log_append_only_witness :
  ∃ records,
    journal (Worker.run Sample.collaborators []
               [Start; AddTask (task "0" 5); Resume 0]
               (new InfrastructureAgent 1, Sample.store)).2
    = journal Sample.store ++ records
    ∧ Forall (λ e : string * string * Z * option string,
                e.1.2 = agentId (new InfrastructureAgent 1)) records.
Proof.
  assert (fresh_ids Sample.store) as Hf by fresh_ids.
  exact (log_append_only Sample.collaborators []
           [Start; AddTask (task "0" 5); Resume 0]
           (new InfrastructureAgent 1) Sample.store Hf).
Defined.

Lemma idle_worker_buffers_witness :
  let w' := (Worker.run Sample.collaborators []
               [AddTask (task "0" 5); AddTask (task "1" 10); Stop]
               worker).1 in
  executed w' = [] ∧ taskQueue w' = [task "1" 10; task "0" 5].
Proof.
  assert (isRunning worker.1 = false) as Hr by evaluate.
  assert (Forall notStart
            [AddTask (task "0" 5); AddTask (task "1" 10); Stop]) as Hes
    by (repeat constructor).
  destruct (idle_worker_buffers Sample.collaborators []
              [AddTask (task "0" 5); AddTask (task "1" 10); Stop]
              worker.1 worker.2 Hr Hes) as (_ & H1 & H2).
  split; [evaluated H1|evaluated H2].
Defined.

Lemma restart_during_task_witness :
  let again := Worker.run Sample.collaborators [] [Stop; Start] twoTasks in
  currentTask again.1 = Some (monitor "1" 3)
  ∧ awaiting again.1 = [terraformGenerated; resourcesMonitored].
Proof.
  assert (currentTask twoTasks.1 = Some (task "0" 5)) as Hc by evaluate.
  assert (awaiting twoTasks.1 = [terraformGenerated]) as Ha by evaluate.
  assert (taskQueue twoTasks.1 = [monitor "1" 3]) as Hq by evaluate.
  assert (run_end terraformGenerated = Returns) as He by evaluate.
  assert (fresh_ids twoTasks.2) as Hf by fresh_ids.
  destruct (restart_during_task Sample.collaborators [] twoTasks.1 twoTasks.2
              (task "0" 5) (monitor "1" 3) terraformGenerated [] Hc Ha Hq He Hf)
    as ((_ & H1 & H2 & _) & _ & _).
  split; [evaluated H2|evaluated H1].
Defined.

Lemma getGitRepository_oldest_witness :
  let ins := {| ir_projectId := 1; ir_rest := "fork.git";
                ir_branch := Some "dev" |} in
  getGitRepository 1 (createGitRepository ins cloned).2
  = getGitRepository 1 cloned.
Proof.
  assert (sound cloned) as Hs by (apply sound_performAll, sound_empty).
  assert (is_Some (getGitRepository 1 cloned)) as Hr by (vm_compute; eauto).
  exact (proj1 (getGitRepository_oldest
                  {| ir_projectId := 1; ir_rest := "fork.git";
                     ir_branch := Some "dev" |} cloned Hs) Hr).
Defined.

Lemma initializeAgents_bootstrap_witness :
  map shown
    (getAgents
       (storage (initializeAgents Sample.collaborators []
                   (fresh Storage.empty)).2))
  = [(1, "code_generator", "running", None, 0);
     (2, "infrastructure", "running", None, 0);
     (3, "learning", "running", None, 0)].
Proof.
  exact (proj1 (proj2 (initializeAgents_bootstrap Sample.collaborators []
                         Storage.empty eq_refl))).
Defined.

Lemma initializeAgents_again_witness :
  initializeAgents Sample.collaborators [] booted = (Resolved, booted).
Proof.
  assert (getAgents (storage booted) ≠ []) as Hne by (vm_compute; discriminate).
  assert (Forall (λ row, row.1 = agent_id row.2)
                 (Storage.agents (storage booted))) as Hid
    by (vm_compute; repeat constructor).
  assert (∀ a, a ∈ getAgents (storage booted) → agent_status a = "running" →
               is_Some (agents booted !! agent_id a)) as Hreg.
  { intros a Ha _. vm_compute in Ha.
    repeat (apply elem_of_cons in Ha as [->|Ha]);
      [vm_compute; eauto..|by apply elem_of_nil in Ha]. }
  exact (initializeAgents_again Sample.collaborators [] booted Hne Hid Hreg).
Defined.

Lemma initializeAgents_only_running_witness :
  ∃ a, a ∈ getAgents (storage restarted) ∧ agent_id a = 1
       ∧ agent_status a = "running".
Proof.
  assert (getAgents (storage restarted) ≠ []) as Hne
    by (vm_compute; discriminate).
  assert (agents (initializeAgents Sample.collaborators [] restarted).2 !! 1
          ≠ agents restarted !! 1) as Hch by (vm_compute; discriminate).
  exact (initializeAgents_only_running Sample.collaborators [] restarted 1
           Hne Hch).
Defined.

Lemma createProject_no_rollback_witness :
  let r := createProject Sample.collaborators [] payload payload shop 0 0
                         unstaffed in
  r.1 = Rejected (NoRunningAgent "code_generator")
  ∧ map project_name (getProjects (Platform.store r.2)) = ["shop"].
Proof.
  assert (sound (Platform.store unstaffed)) as Hs by apply sound_empty.
  destruct (createProject_no_rollback Sample.collaborators [] payload payload
              shop 0 0 unstaffed Hs) as [H1 H2].
  destruct H2 as (H2 & _ & _); [by intros a Ha%elem_of_nil|].
  apply (f_equal (map project_name)) in H1.
  split; [exact H2|evaluated H1].
Defined.

Lemma postProject_files_twice_witness :
  let meanwhile :=
    [Store (CreateUser {| iu_username := "ada"; iu_rest := "" |});
     Manage (AssignTask "infrastructure" (task "0" 5))] in
  let r := postProject Sample.collaborators [] payload payload shop true 0 0
                       meanwhile app in
  map project_id (getProjects (Platform.store r.2)) = [7; 10]
  ∧ ∀ project, r.1 = Created project → project_id project = 7.
Proof.
  pose (meanwhile :=
          [Store (CreateUser {| iu_username := "ada"; iu_rest := "" |});
           Manage (AssignTask "infrastructure" (task "0" 5))]).
  assert (sound (Platform.store app)) as Hs by sound.
  destruct (postProject_files_twice Sample.collaborators [] payload payload
              shop 0 0 meanwhile app Hs) as (_ & _ & H1 & _ & H2 & _).
  apply (f_equal (map project_id)) in H1.
  split; [evaluated H1|]. intros project E. by rewrite (H2 project E).
Defined.

Lemma working_agent_refuses_witness :
  let assigned :=
    assignTask Sample.collaborators [] "infrastructure" (task "0" 5) started in
  assignTask Sample.collaborators [] "infrastructure" (task "1" 10) assigned.2
  = (Rejected (NoRunningAgent "infrastructure"), assigned.2).
Proof.
  pose (a := {| agent_id := 1; agent_name := "Infrastructure Agent";
                agent_type := "infrastructure"; agent_status := "running";
                agent_currentTask := None; agent_progress := 0 |}).
  pose (w := set_isRunning true (new InfrastructureAgent 1)).
  assert (NoDup (map fst (Storage.agents (storage started)))) as Hn
    by (apply (bool_decide_unpack _); vm_compute; exact I).
  assert (Forall (λ row, row.1 = agent_id row.2)
                 (Storage.agents (storage started))) as Hid
    by (vm_compute; repeat constructor).
  assert (target "infrastructure" started = Some a) as Ht by evaluate.
  assert (∀ a', a' ∈ getAgents (storage started) →
                agent_type a' = "infrastructure" →
                agent_id a' = agent_id a) as Hone.
  { intros a' Ha _. vm_compute in Ha.
    repeat (apply elem_of_cons in Ha as [->|Ha]);
      [reflexivity|by apply elem_of_nil in Ha]. }
  assert (instance (agent_id a) started = Some (0%nat, w)) as Hi by evaluate.
  exact (proj2 (proj2 (working_agent_refuses Sample.collaborators []
                         "infrastructure" (task "0" 5) (task "1" 10) started
                         a 0%nat w Hn Hid Ht Hone Hi eq_refl eq_refl eq_refl))).
Defined.

Lemma deployInfrastructure_settles_witness :
  let run := deployInfrastructure
               {| projectId := 7; cloudProvider := "aws";
                  environment := "development" |}
               (Failed "no credentials") in
  map deployment_status
      (getDeployments (steps (new InfrastructureAgent 1) run.1 Tables.empty))
  = ["failed"]
  ∧ run.2 = Throws "no credentials".
Proof.
  destruct (deployInfrastructure_settles
              {| projectId := 7; cloudProvider := "aws";
                 environment := "development" |}
              (Failed "no credentials") (new InfrastructureAgent 1)
              Tables.empty sound_empty) as (H1 & H2 & _).
  apply (f_equal (map deployment_status)) in H1.
  split; [evaluated H1|exact H2].
Defined.

Lemma manager_never_queues_witness :
  Forall (λ w, taskQueue w = [])
         (objects (Manager.performAll Sample.collaborators [] calls
                     (fresh Sample.store))).
Proof.
  assert (NoDup (map fst (Storage.agents Sample.store))) as Hn
    by (apply (bool_decide_unpack _); vm_compute; exact I).
  assert (Forall (λ row, row.1 = agent_id row.2)
                 (Storage.agents Sample.store)) as Hid
    by (vm_compute; repeat constructor).
  exact (proj1 (manager_never_queues Sample.collaborators [] Sample.store
                  calls Hn Hid)).
Defined.

Lemma assignTask_starts_or_drops_witness :
  let r := assignTask Sample.collaborators [] "infrastructure" (task "1" 10)
                      busy in
  r = (Rejected (NoRunningAgent "infrastructure"), busy)
  ∨ r = (Resolved, busy)
  ∨ (r.1 = Resolved
     ∧ ∃ ref w,
         objects busy !! ref = Some w
         ∧ isRunning w = true ∧ currentTask w = None ∧ taskQueue w = []
         ∧ objects r.2
           = <[ref := call_executeTask (task "1" 10)
                        (executeTask Sample.collaborators [] (class w)
                                     (task "1" 10))
                        (set_currentTask (Some (task "1" 10)) w)]>
               (objects busy)).
Proof.
  assert (NoDup (map fst (Storage.agents Sample.store))) as Hn
    by (apply (bool_decide_unpack _); vm_compute; exact I).
  assert (Forall (λ row, row.1 = agent_id row.2)
                 (Storage.agents Sample.store)) as Hid
    by (vm_compute; repeat constructor).
  exact (assignTask_starts_or_drops Sample.collaborators [] Sample.store
           [StartAgent 1; AssignTask "infrastructure" (Sample.task "0" 5)]
           "infrastructure" (task "1" 10) Hn Hid).
Defined.

End Instances.
